(** * Conversation-session and dialogue-turn management of the RAG server

    A shallow embedding of
    - [utils/text_utils.py]    (issue-category extraction),
    - [utils/session_utils.py] (the live call-session table),
    - [routes/twilio.py]       (the IVR handlers and the TwiML they return),
    - [routes/voice.py]        (the two voice-pipeline endpoints),
    followed by the properties established about them.

    Python strings are kept as [string]s holding their UTF-8 encoding: on
    well-formed UTF-8 the substring test on bytes and the one on code points
    agree, so [py_in] below is Python's [in] on [str]. *)

From Stdlib Require Import ZArith String Ascii List Lia.
From stdpp Require Import base strings gmap list.
Import ListNotations.

Open Scope string_scope.
Open Scope list_scope.

(* ===================================================================== *)
(** * Python values, strings and dictionaries                            *)
(* ===================================================================== *)

Module Py.

(** The newline character of the f-strings ["...\n"]. *)
Definition nl : string := String (ascii_of_nat 10) "".

(** [sub in s] on [str]: [sub] occurs in [s] at some offset. *)
Fixpoint py_in (sub s : string) : bool :=
  String.prefix sub s ||
  match s with
  | EmptyString => false
  | String _ s' => py_in sub s'
  end.

(** Truth value of a [str]: only the empty string is falsy. *)
Definition str_truthy (s : string) : bool :=
  match s with EmptyString => false | _ => true end.

(** Truth value of an [Optional[str]]: [None] and [""] are falsy. *)
Definition opt_truthy (o : option string) : bool :=
  match o with Some s => str_truthy s | None => false end.

(** The ASCII part of [str.lower]: [A]..[Z] go to [a]..[z], every other
    byte is left alone.  The handlers take [str.lower] from the environment
    ([str_lower] below); this is the instance used on ASCII input. *)
Definition ascii_lower (c : ascii) : ascii :=
  let n := N_of_ascii c in
  if ((65 <=? n) && (n <=? 90))%N then ascii_of_N (n + 32) else c.

Fixpoint lower_ascii (s : string) : string :=
  match s with
  | EmptyString => EmptyString
  | String c s' => String (ascii_lower c) (lower_ascii s')
  end.

(** Values that reach an f-string: a [str] or [None] (a NULL column). *)
Inductive pyval :=
| PStr (s : string)
| PNone.

(** [str(v)], what [f"{v}"] interpolates. *)
Definition py_str (v : pyval) : string :=
  match v with
  | PStr s => s
  | PNone => "None"
  end.

(** [l[-n:]] for [n > 0]: the last [n] items, the whole list when it is
    shorter. *)
Definition last_n {A} (n : nat) (l : list A) : list A :=
  skipn (length l - n) l.

(** A [dict] with [str] keys, in insertion order. *)
Definition dict (V : Type) := list (string * V).

Fixpoint dict_get {V} (d : dict V) (k : string) : option V :=
  match d with
  | [] => None
  | (k', v) :: d' => if String.eqb k' k then Some v else dict_get d' k
  end.

(** [d[k] = v]: an existing key keeps its position, a new key goes last. *)
Fixpoint dict_set {V} (d : dict V) (k : string) (v : V) : dict V :=
  match d with
  | [] => [(k, v)]
  | (k', v') :: d' =>
      if String.eqb k' k then (k', v) :: d' else (k', v') :: dict_set d' k v
  end.

Definition dict_keys {V} (d : dict V) : list string := map fst d.

(** [max(iterable, key=f)]: the running maximum is replaced only by an item
    whose key is strictly greater, so the first maximal item is returned.
    [None] stands for the [ValueError] on an empty iterable. *)
Fixpoint py_max_from {A} (key : A -> nat) (best : A) (l : list A) : A :=
  match l with
  | [] => best
  | x :: l' =>
      if (key best <? key x)%nat then py_max_from key x l' else py_max_from key best l'
  end.

Definition py_max {A} (key : A -> nat) (l : list A) : option A :=
  match l with
  | [] => None
  | x :: l' => Some (py_max_from key x l')
  end.

(** The concatenation of a list of strings. *)
Fixpoint join (l : list string) : string :=
  match l with
  | [] => EmptyString
  | s :: l' => s +:+ join l'
  end.

(** "[r] is the first item of greatest [key] in [l]": it sits at an index
    [i], no item has a greater key, every item before [i] has a smaller one. *)
Definition first_max_at {A} (key : A -> nat) (l : list A) (i : nat) (r : A) : Prop :=
  l !! i = Some r /\
  (forall j q, l !! j = Some q -> (key q <= key r)%nat) /\
  (forall j q, (j < i)%nat -> l !! j = Some q -> (key q < key r)%nat).

End Py.
Import Py.

(* ===================================================================== *)
(** * Data model                                                         *)
(* ===================================================================== *)

(** [CallerInfo]: the identity resolved for a phone call. *)
Record CallerInfo := mkCallerInfo {
  is_registered : bool;
  full_name : option string;
  user_id : option Z
}.

(** [models.CallSession], with the attributes the handlers read and write. *)
Record CallSession := mkCallSession {
  session_id : string;
  caller_phone : string;
  language : string;
  assistant_id : Z;
  caller_info : option CallerInfo
}.

(** A [CallSession] object in memory.  [oid] is the object's identity (the
    stamp it got when it was constructed), [attrs] its current attributes.
    The table [call_sessions] holds the only lasting reference to it, so an
    attribute assignment through a handler's local [session] is an update
    of the table entry that keeps [oid]. *)
Record session_obj := mkObj {
  oid : nat;
  attrs : CallSession
}.

(** One entry of [LANGUAGE_CONFIG] / [ASSISTANT_CONFIG]. *)
Record lang_config := mkLang {
  lang_code : string;
  lang_name : string;
  lang_voice : string
}.

Record assistant_config := mkAssistant {
  asst_id : Z;
  asst_name : string;
  asst_type : string
}.

(** A row of the [conversations] table. *)
Record conv_row := mkRow {
  row_id : Z;
  row_session_id : string;
  row_user_id : option Z;
  user_message : pyval;
  ai_response : pyval;
  row_language : string;
  timestamp : Z;
  user_audio_path : option string;
  ai_audio_path : option string
}.

(** The arguments of one [db.save_session(...)] call. *)
Record session_save := mkSessionSave {
  ss_session_id : string;
  ss_language : string;
  ss_assistant_id : Z;
  ss_user_id : option Z;
  ss_user_name : option string;
  ss_issue_type : option string
}.

(** The durable store behind [config.db].  [clock] is the timestamp the next
    inserted row gets, [next_id] its serial id; while [db_down] holds every
    statement raises. *)
Record Database := mkDb {
  conversations : list conv_row;
  session_saves : list session_save;
  clock : Z;
  next_id : Z;
  db_down : bool
}.

(** A call to an external collaborator.  The handlers keep no such record;
    the log of calls in the [World] is what lets a statement say which
    collaborators a turn reached, and in which order. *)
Inductive external_call :=
| GeneratorCall (context lang assistant_name : string)
| TicketCall (title description : string).

(** Work handed to [background_tasks.add_task]. *)
Inductive bg_task :=
| SaveAudio (audio_data session : string) (conversation_id_ : Z) (role : string)
| GenerateAiAudio (text voice_id session : string) (conversation_id_ : Z)
                  (assistant_name lang : string).

(** Everything mutable the handlers touch. *)
Record World := mkWorld {
  call_sessions : gmap string session_obj;   (* [config.call_sessions] *)
  next_oid : nat;                            (* objects constructed so far *)
  db : option Database;                      (* [config.db], [None] when unset *)
  calls : list external_call;                (* collaborators called so far *)
  tasks : list bg_task                       (* background work scheduled so far *)
}.

Definition with_sessions (w : World) (m : gmap string session_obj) (n : nat) : World :=
  mkWorld m n (db w) (calls w) (tasks w).

Definition with_db (w : World) (d : option Database) : World :=
  mkWorld (call_sessions w) (next_oid w) d (calls w) (tasks w).

Definition log_call (w : World) (c : external_call) : World :=
  mkWorld (call_sessions w) (next_oid w) (db w) (calls w ++ [c]) (tasks w).

Definition add_task (w : World) (t : bg_task) : World :=
  mkWorld (call_sessions w) (next_oid w) (db w) (calls w) (tasks w ++ [t]).

(** What the handlers import and do not define: Python's [str.lower], the
    tables and the constructor of [config] and [models], and the external
    collaborators (generator, ticketing, identity resolver).  A collaborator
    is a function of its arguments here: no handler calls the same one twice
    in a turn. *)
Record Env := mkEnv {
  str_lower : string -> string;
  LANGUAGE_CONFIG : dict lang_config;
  ASSISTANT_CONFIG : dict assistant_config;
  (** [VOICE_CONFIG.get(name, {}).get(lang, VOICE_CONFIG["Amira"]["en-US"])] *)
  voice_id_for : string -> string -> string;
  (** [CallSession(call_sid, caller_phone)] *)
  new_CallSession : string -> string -> CallSession;
  (** [VoiceResponse is not None]: the twilio package could be imported *)
  twilio_installed : bool;
  identify_caller_by_phone : string -> CallerInfo;
  (** [rag_system.get_response(context, language, assistant_name)];
      [None] when the call raises *)
  get_response : string -> string -> string -> option string;
  (** [create_trello_card(title, description)]: the card's URL or [None] *)
  create_trello_card : string -> string -> option string;
  (** [extract_user_name], a cascade of regular-expression searches; its
      result is only passed along *)
  extract_user_name : string -> option string;
  (** [str(uuid.uuid4())] *)
  uuid4 : string
}.

(** The reply of an endpoint: a value, or the [HTTPException] it raised. *)
Inductive http (A : Type) :=
| Ok (a : A)
| HttpError (status : nat) (detail : string).
Arguments Ok {A} a.
Arguments HttpError {A} status detail.

(* ===================================================================== *)
(** * The durable store                                                  *)
(* ===================================================================== *)

Module Db.

(** [ORDER BY timestamp ASC]: a stable insertion sort on [timestamp]. *)
Fixpoint insert_row (r : conv_row) (l : list conv_row) : list conv_row :=
  match l with
  | [] => [r]
  | x :: l' =>
      if (timestamp r <=? timestamp x)%Z then r :: l else x :: insert_row r l'
  end.

Definition order_by_timestamp (l : list conv_row) : list conv_row :=
  fold_right insert_row [] l.

(** [WHERE session_id = %s] *)
Definition where_session (sid : string) (l : list conv_row) : list conv_row :=
  List.filter (fun r => String.eqb (row_session_id r) sid) l.

(** [SELECT ... FROM conversations WHERE session_id = %s
     ORDER BY timestamp ASC LIMIT 10]; [None] when the statement raises. *)
Definition select_limit_10 (d : Database) (sid : string) : option (list conv_row) :=
  if db_down d then None
  else Some (firstn 10 (order_by_timestamp (where_session sid (conversations d)))).

(** The same query without [LIMIT]. *)
Definition select_all (d : Database) (sid : string) : option (list conv_row) :=
  if db_down d then None
  else Some (order_by_timestamp (where_session sid (conversations d))).

(** [INSERT INTO conversations (...) VALUES (...) RETURNING id]; the row gets
    the next serial id and the current timestamp. *)
Definition insert_conversation (d : Database) (sid : string) (uid : option Z)
    (um ai lang : string) : option (Z * Database) :=
  if db_down d then None
  else
    let r := mkRow (next_id d) sid uid (PStr um) (PStr ai) lang (clock d) None None in
    Some (next_id d,
          mkDb (conversations d ++ [r]) (session_saves d)
               (clock d + 1) (next_id d + 1) (db_down d)).

(** Modelled from the spec: [db.save_session(...)], the [save_session_meta]
    of the durable store, whose code is not part of the sources; the call is
    recorded with its arguments. *)
Definition save_session (d : Database) (s : session_save) : option Database :=
  if db_down d then None
  else Some (mkDb (conversations d) (session_saves d ++ [s])
                  (clock d) (next_id d) (db_down d)).

(** Modelled from the spec: [db.save_conversation(...)], the [save_turn] of
    the durable store: one more row, stamped at persistence time. *)
Definition save_conversation (d : Database) (sid : string) (um ai lang : string)
    (uid : option Z) : option Database :=
  snd <$> insert_conversation d sid uid um ai lang.

Definition empty : Database := mkDb [] [] 0 1 false.

End Db.

(* ===================================================================== *)
(** * utils/text_utils.py                                                *)
(* ===================================================================== *)

Record issue_pattern := mkIssue {
  type : string;
  keywords : list string
}.

Definition issue_patterns : list issue_pattern :=
  [ mkIssue "billing"
      [ "bill"; "billing"; "payment"; "charge"; "invoice"; "cost"; "price";
        "money"; "pay"; "owed"; "debt";
        "facture"; "paiement"; "coût"; "prix"; "argent";
        "فاتورة"; "دفع"; "سعر"; "مال"; "تكلفة" ];
    mkIssue "internet"
      [ "internet"; "wifi"; "wi-fi"; "connection"; "slow"; "outage"; "speed";
        "broadband"; "network";
        "connexion"; "lent"; "panne"; "vitesse";
        "إنترنت"; "واي فاي"; "اتصال"; "بطيء"; "سرعة"; "شبكة" ];
    mkIssue "mobile"
      [ "phone"; "mobile"; "cell"; "call"; "text"; "sms"; "voicemail";
        "signal"; "roaming";
        "téléphone"; "mobile"; "appel"; "texto"; "signal";
        "هاتف"; "جوال"; "مكالمة"; "رسالة"; "إشارة" ];
    mkIssue "technical"
      [ "technical"; "support"; "help"; "problem"; "issue"; "error"; "bug";
        "fix"; "repair"; "broken";
        "technique"; "aide"; "problème"; "erreur"; "réparer";
        "تقني"; "مساعدة"; "مشكلة"; "خطأ"; "إصلاح" ];
    mkIssue "account"
      [ "account"; "login"; "password"; "profile"; "settings"; "personal";
        "information"; "data";
        "compte"; "connexion"; "mot de passe"; "profil"; "paramètres";
        "حساب"; "تسجيل دخول"; "كلمة مرور"; "ملف شخصي"; "إعدادات" ];
    mkIssue "service"
      [ "service"; "plan"; "package"; "subscription"; "upgrade"; "downgrade";
        "change"; "switch";
        "forfait"; "abonnement"; "amélioration";
        "خدمة"; "باقة"; "اشتراك"; "ترقية"; "تغيير" ] ].

(** The inner loop: [score += 1] for every keyword found in the text. *)
Definition keyword_score (text_lower : string) (kws : list string) : nat :=
  fold_left
    (fun score keyword => if py_in keyword text_lower then score + 1 else score)
    kws 0.

(** The outer loop: [issue_scores[issue["type"]] = score] when [score > 0]. *)
Definition score_issues (patterns : list issue_pattern) (text_lower : string)
  : dict nat :=
  fold_left
    (fun issue_scores issue =>
       let score := keyword_score text_lower (keywords issue) in
       if (0 <? score)%nat then dict_set issue_scores (type issue) score
       else issue_scores)
    patterns [].

(** [issue_scores.get], used as the key of [max]; every key [max] sees is
    in the dictionary. *)
Definition scores_get (issue_scores : dict nat) (k : string) : nat :=
  default 0 (dict_get issue_scores k).

Definition extract_issue_type (E : Env) (input_text : string) : option string :=
  let text_lower := str_lower E input_text in
  let issue_scores := score_issues issue_patterns text_lower in
  match issue_scores with
  | [] => None
  | _ => py_max (scores_get issue_scores) (dict_keys issue_scores)
  end.

(** The score [extract_issue_type] gives a category on a text. *)
Definition category_score (E : Env) (input_text : string) (issue : issue_pattern) : nat :=
  keyword_score (str_lower E input_text) (keywords issue).

(* ===================================================================== *)
(** * utils/session_utils.py                                             *)
(* ===================================================================== *)

(** [if call_sid not in call_sessions: call_sessions[call_sid] = CallSession(...)]
    then [return call_sessions[call_sid]]. *)
Definition get_or_create_call_session (E : Env) (call_sid caller_phone : string)
    (w : World) : session_obj * World :=
  match call_sessions w !! call_sid with
  | Some session => (session, w)
  | None =>
      let session := mkObj (next_oid w) (new_CallSession E call_sid caller_phone) in
      (session,
       with_sessions w (<[call_sid := session]> (call_sessions w)) (S (next_oid w)))
  end.

(** Attribute assignments on the session stored under [call_sid]. *)
Definition set_language (l : string) (s : session_obj) : session_obj :=
  let a := attrs s in
  mkObj (oid s) (mkCallSession (session_id a) (caller_phone a) l (assistant_id a) (caller_info a)).

Definition set_assistant_id (i : Z) (s : session_obj) : session_obj :=
  let a := attrs s in
  mkObj (oid s) (mkCallSession (session_id a) (caller_phone a) (language a) i (caller_info a)).

Definition set_caller_info (c : CallerInfo) (s : session_obj) : session_obj :=
  let a := attrs s in
  mkObj (oid s) (mkCallSession (session_id a) (caller_phone a) (language a) (assistant_id a) (Some c)).

Definition store_session (call_sid : string) (s : session_obj) (w : World) : World :=
  with_sessions w (<[call_sid := s]> (call_sessions w)) (next_oid w).

(* ===================================================================== *)
(** * routes/twilio.py                                                   *)
(* ===================================================================== *)

Module Twilio.

(** ** TwiML documents *)

Inductive gather_input := Dtmf | Speech.

(** A [Gather(...)]: every one is built with [method="POST"], and the speech
    ones with [speech_timeout="auto"]. *)
Record gather := mkGather {
  g_input : gather_input;
  g_num_digits : option nat;
  g_action : string;
  g_timeout : nat;
  g_language : option string;
  (** the nested [gather.say(text, voice)], if any *)
  g_say : option (string * string)
}.

Inductive verb :=
| Say (text voice : string)
| Gather (g : gather)
| Redirect (url : string)
| Hangup.

Definition twiml := list verb.

Definition speech_gather (lang : string) (prompt : option (string * string)) : gather :=
  mkGather Speech None "/api/twilio/process-speech" 5 (Some lang) prompt.

Definition digit_gather (action : string) (prompt : string * string) : gather :=
  mkGather Dtmf (Some 1) action 5 None (Some prompt).

Definition twilio_unavailable {A} (w : World) : http A * World :=
  (HttpError 500 "Twilio not available", w).

(** An exception no handler catches: FastAPI answers 500. *)
Definition uncaught {A} (exn : string) (w : World) : http A * World :=
  (HttpError 500 exn, w).

(** The loop [for key, config in LANGUAGE_CONFIG.items(): if config["code"]
    == session.language: lang_config = config; break]: the first entry with
    that code, if any, replaces the initial [lang_config]. *)
Definition find_lang (E : Env) (code : string) : option lang_config :=
  snd <$> List.find (fun kv => String.eqb (lang_code (snd kv)) code) (LANGUAGE_CONFIG E).

(** The same loop started from [lang_config = LANGUAGE_CONFIG.get("1")],
    which is [None] when the table has no key ["1"]. *)
Definition lang_for_code (E : Env) (code : string) : option lang_config :=
  match find_lang E code with
  | Some c => Some c
  | None => dict_get (LANGUAGE_CONFIG E) "1"
  end.

(** [session = call_sessions.get(CallSid)], and when there is none the
    session made by [get_or_create_call_session(CallSid, "unknown")] with the
    handler's defaults [fill] assigned to it. *)
Definition session_or_default (E : Env) (CallSid : string)
    (fill : session_obj -> session_obj) (w : World) : session_obj * World :=
  match call_sessions w !! CallSid with
  | Some session => (session, w)
  | None =>
      let '(session, w1) := get_or_create_call_session E CallSid "unknown" w in
      (fill session, store_session CallSid (fill session) w1)
  end.

(** ** [POST /api/twilio/incoming-call] *)
Definition handle_incoming_call (E : Env) (w : World) (CallSid From : string)
  : http twiml * World :=
  if negb (twilio_installed E) then twilio_unavailable w else
  let '(session, w1) := get_or_create_call_session E CallSid From w in
  let info := identify_caller_by_phone E From in
  let session := set_caller_info info session in
  let w2 := store_session CallSid session w1 in
  let greeting :=
    match is_registered info, full_name info with
    | true, Some name =>
        if str_truthy name then "Hello " +:+ name +:+ "! Welcome back to Ooredoo."
        else "Hello! Welcome to Ooredoo AI Assistant."
    | _, _ => "Hello! Welcome to Ooredoo AI Assistant."
    end in
  (Ok [ Say greeting "alice";
        Gather (digit_gather "/api/twilio/language-selection"
                  ("Press 1 for English. Press 2 for Arabic. Press 3 for French.", "alice"));
        Redirect "/api/twilio/language-selection?Digits=1" ],
   w2).

(** ** [POST /api/twilio/language-selection]
    [Digits] is [None] when the form carries no such field; the parameter's
    default is then ["1"]. *)
Definition handle_language_selection (E : Env) (w : World) (CallSid : string)
    (Digits : option string) : http twiml * World :=
  if negb (twilio_installed E) then twilio_unavailable w else
  let Digits := default "1" Digits in
  let '(session, w1) := session_or_default E CallSid id w in
  match dict_get (LANGUAGE_CONFIG E) "1" with
  | None => uncaught "KeyError: '1'" w1
  | Some fallback =>
      let lang_config := default fallback (dict_get (LANGUAGE_CONFIG E) Digits) in
      let session := set_language (lang_code lang_config) session in
      let w2 := store_session CallSid session w1 in
      (Ok [ Say ("You selected " +:+ lang_name lang_config +:+ ".") (lang_voice lang_config);
            Gather (digit_gather "/api/twilio/assistant-selection"
                      ("Press 1 for Slah, our B2B Enterprise Assistant. Press 2 for Amira, our B2C Customer Assistant.",
                       lang_voice lang_config));
            Redirect "/api/twilio/assistant-selection?Digits=2" ],
       w2)
  end.

(** ** [POST /api/twilio/assistant-selection] *)
Definition handle_assistant_selection (E : Env) (w : World) (CallSid : string)
    (Digits : option string) : http twiml * World :=
  if negb (twilio_installed E) then twilio_unavailable w else
  let Digits := default "2" Digits in
  let '(session, w1) := session_or_default E CallSid (set_language "en-US") w in
  match dict_get (ASSISTANT_CONFIG E) "2" with
  | None => uncaught "KeyError: '2'" w1
  | Some fallback =>
      let assistant_config := default fallback (dict_get (ASSISTANT_CONFIG E) Digits) in
      let session := set_assistant_id (asst_id assistant_config) session in
      let w2 := store_session CallSid session w1 in
      match dict_get (LANGUAGE_CONFIG E) "1" with
      | None => uncaught "KeyError: '1'" w2
      | Some first =>
          let lang_config := default first (find_lang E (language (attrs session))) in
          (Ok [ Say ("You're now connected with " +:+ asst_name assistant_config
                       +:+ ". How can I help you today?") (lang_voice lang_config);
                Gather (speech_gather (language (attrs session)) None);
                Say "I didn't hear anything. Please try again." (lang_voice lang_config);
                Redirect "/api/twilio/start-conversation" ],
           w2)
      end
  end.

(** The defaults [start_conversation] and [process_speech] give a session
    they had to create. *)
Definition en_amira (s : session_obj) : session_obj :=
  set_assistant_id 2 (set_language "en-US" s).

(** ** [POST /api/twilio/start-conversation] *)
Definition start_conversation (E : Env) (w : World) (CallSid : string)
  : http twiml * World :=
  if negb (twilio_installed E) then twilio_unavailable w else
  let '(session, w1) := session_or_default E CallSid en_amira w in
  match lang_for_code E (language (attrs session)) with
  | None => uncaught "TypeError: 'NoneType' object is not subscriptable" w1
  | Some lang_config =>
      (Ok [ Gather (speech_gather (language (attrs session)) None);
            Say "I didn't hear anything. Goodbye!" (lang_voice lang_config);
            Hangup ],
       w1)
  end.

(** The [if db:] block of [process_speech]; every exception inside it is
    caught and only printed. *)
Definition save_call_turn (w : World) (session : CallSession)
    (SpeechResult reply : string) : World :=
  match db w with
  | None => w
  | Some d =>
      let uid := match caller_info session with Some c => user_id c | None => None end in
      let name := match caller_info session with Some c => full_name c | None => None end in
      match Db.save_session d
              (mkSessionSave (session_id session) (language session)
                             (assistant_id session) uid name None) with
      | None => w
      | Some d1 =>
          match Db.save_conversation d1 (session_id session) SpeechResult reply
                  (language session) uid with
          | None => with_db w (Some d1)
          | Some d2 => with_db w (Some d2)
          end
      end
  end.

(** ** [POST /api/twilio/process-speech]
    [SpeechResult] is [None] when the form carries no such field; the
    parameter's default is then [""]. *)
Definition process_speech (E : Env) (w : World) (CallSid : string)
    (SpeechResult : option string) : http twiml * World :=
  if negb (twilio_installed E) then twilio_unavailable w else
  let SpeechResult := default "" SpeechResult in
  let '(session, w1) := session_or_default E CallSid en_amira w in
  let lang_config := lang_for_code E (language (attrs session)) in
  let assistant_name :=
    if (assistant_id (attrs session) =? 1)%Z then "Slah" else "Amira" in
  if negb (str_truthy SpeechResult) then
    match lang_config with
    | None => uncaught "TypeError: 'NoneType' object is not subscriptable" w1
    | Some lc =>
        (Ok [ Say "I didn't hear anything. Please try again." (lang_voice lc);
              Redirect "/api/twilio/start-conversation" ],
         w1)
    end
  else
    let w2 := log_call w1 (GeneratorCall SpeechResult (language (attrs session)) assistant_name) in
    match get_response E SpeechResult (language (attrs session)) assistant_name with
    | None =>
        (* [except Exception]: apologise and hang up *)
        match lang_config with
        | None => uncaught "TypeError: 'NoneType' object is not subscriptable" w2
        | Some lc =>
            (Ok [ Say "I'm having technical difficulties. Please try again later." (lang_voice lc);
                  Hangup ],
             w2)
        end
    | Some reply =>
        let w3 := save_call_turn w2 (attrs session) SpeechResult reply in
        match lang_config with
        | None => uncaught "TypeError: 'NoneType' object is not subscriptable" w3
        | Some lc =>
            (Ok [ Say reply (lang_voice lc);
                  Gather (speech_gather (language (attrs session))
                            (Some ("Is there anything else I can help you with?", lang_voice lc)));
                  Say "Thank you for calling Ooredoo. Goodbye!" (lang_voice lc);
                  Hangup ],
             w3)
        end
    end.

(** ** [POST /api/twilio/status-callback] *)
Definition terminal_statuses : list string :=
  ["completed"; "failed"; "busy"; "no-answer"; "canceled"].

Record status_reply := mkStatusReply {
  status : string;
  call_sid : string;
  call_status : string
}.

Definition handle_status_callback (w : World) (CallSid CallStatus : string)
  : status_reply * World :=
  let w' :=
    if existsb (String.eqb CallStatus) terminal_statuses then
      match call_sessions w !! CallSid with
      | Some _ => with_sessions w (delete CallSid (call_sessions w)) (next_oid w)
      | None => w
      end
    else w in
  (mkStatusReply "received" CallSid CallStatus, w').

(** ** The telephone side
    What Twilio does with a TwiML document (TwiML reference): verbs run in
    order; [<Say>] speaks; [<Gather>] speaks its nested prompt and listens:
    input of the kind it listens for ends the document and is posted to the
    [action] URL, no such input within the timeout lets the document go on
    with the next verb; [<Redirect>] requests another document; [<Hangup>]
    or the end of the document ends the call.  Every request carries the
    call's [CallSid] and [From]. *)

Inductive caller_input :=
| NoInput                      (* nothing until the timeout *)
| Pressed (digits : string)
| Spoke (speech_result : string).
    (* the recogniser's result, which may be the empty string: the request
       [process_speech] answers under [if not SpeechResult] *)

Definition accepts (g : gather) (i : caller_input) : bool :=
  match g_input g, i with
  | Dtmf, Pressed _ => true
  | Speech, Spoke _ => true
  | _, _ => false
  end.

Inductive doc_outcome :=
| DocHangup
| DocListening
| DocRequest (url : string) (input : caller_input) (rest : list caller_input).

Definition prompt_text (g : gather) : list string :=
  match g_say g with Some (text, _) => [text] | None => [] end.

Fixpoint exec_verbs (doc : twiml) (inputs : list caller_input) (spoken : list string)
  : list string * doc_outcome :=
  match doc with
  | [] => (spoken, DocHangup)
  | Say text _ :: doc' => exec_verbs doc' inputs (spoken ++ [text])
  | Hangup :: _ => (spoken, DocHangup)
  | Redirect url :: _ => (spoken, DocRequest url NoInput inputs)
  | Gather g :: doc' =>
      let spoken := spoken ++ prompt_text g in
      match inputs with
      | [] => (spoken, DocListening)
      | i :: rest =>
          if accepts g i then (spoken, DocRequest (g_action g) i rest)
          else exec_verbs doc' rest spoken
      end
  end.

(** The path of a URL: what precedes ['?'].  The handlers read [Digits] and
    [SpeechResult] from the form body only, so a query string is dropped. *)
Fixpoint url_path (url : string) : string :=
  match url with
  | EmptyString => EmptyString
  | String c url' => if Ascii.eqb c "?"%char then EmptyString else String c (url_path url')
  end.

Definition form_digits (i : caller_input) : option string :=
  match i with Pressed d => Some d | _ => None end.

Definition form_speech (i : caller_input) : option string :=
  match i with Spoke s => Some s | _ => None end.

(** FastAPI's routing of the POST requests. *)
Definition dispatch (E : Env) (w : World) (CallSid From url : string)
    (i : caller_input) : http twiml * World :=
  let path := url_path url in
  if String.eqb path "/api/twilio/incoming-call" then handle_incoming_call E w CallSid From
  else if String.eqb path "/api/twilio/language-selection" then
    handle_language_selection E w CallSid (form_digits i)
  else if String.eqb path "/api/twilio/assistant-selection" then
    handle_assistant_selection E w CallSid (form_digits i)
  else if String.eqb path "/api/twilio/start-conversation" then start_conversation E w CallSid
  else if String.eqb path "/api/twilio/process-speech" then
    process_speech E w CallSid (form_speech i)
  else (HttpError 404 "Not Found", w).

Inductive call_state :=
| Listening            (* a gather waits for the caller *)
| HungUp               (* the call was ended by the application *)
| AppError (status : nat)
| MoreRequests.        (* the request budget ran out *)

Record call_run := mkRun {
  spoken : list string;
  state : call_state;
  world : World
}.

(** The call from the request of [url] on, the caller providing [inputs] to
    the successive gathers; [fuel] bounds the number of requests. *)
Fixpoint run (fuel : nat) (E : Env) (w : World) (CallSid From url : string)
    (i : caller_input) (inputs : list caller_input) (said : list string) : call_run :=
  match fuel with
  | O => mkRun said MoreRequests w
  | S fuel' =>
      match dispatch E w CallSid From url i with
      | (HttpError st _, w') => mkRun said (AppError st) w'
      | (Ok doc, w') =>
          match exec_verbs doc inputs said with
          | (said', DocHangup) => mkRun said' HungUp w'
          | (said', DocListening) => mkRun said' Listening w'
          | (said', DocRequest url' i' rest) => run fuel' E w' CallSid From url' i' rest said'
          end
      end
  end.

Definition reprompt : string := "I didn't hear anything. Please try again.".

End Twilio.

(* ===================================================================== *)
(** * routes/voice.py                                                    *)
(* ===================================================================== *)

Module Voice.

(** An item of a conversation history: an object with attributes (a parsed
    request model) or a mapping (a [dict] built from a database row). *)
Inductive history_item :=
| TurnObject (attributes : dict pyval)
| TurnDict (entries : dict pyval).

(** [turn.f if hasattr(turn, 'f') else turn.get('f', '')].  A mapping has no
    attribute [f] and answers [get]; an object without the attribute has no
    [get] either, and the expression raises [AttributeError] ([None]). *)
Definition turn_field (turn : history_item) (f : string) : option pyval :=
  match turn with
  | TurnObject attributes => dict_get attributes f
  | TurnDict entries => Some (default (PStr "") (dict_get entries f))
  end.

(** The body of [for turn in history_to_use[-10:]], appended to the context
    built so far. *)
Definition add_turn (conversation_context : option string) (turn : history_item)
  : option string :=
  match conversation_context with
  | None => None
  | Some ctx =>
      match turn_field turn "user" with
      | None => None
      | Some user_msg =>
          match turn_field turn "ai" with
          | None => None
          | Some ai_msg =>
              Some (ctx +:+ "User: " +:+ py_str user_msg +:+ nl
                        +:+ "AI: " +:+ py_str ai_msg +:+ nl)
          end
      end
  end.

(** "Build conversation context": the same statements in both endpoints.
    [None] when an item makes them raise. *)
Definition build_context (history_to_use : list history_item) (transcription : string)
  : option string :=
  match history_to_use with
  | [] => Some transcription
  | _ =>
      match fold_left add_turn (last_n 10 history_to_use)
              (Some ("Previous conversation:" +:+ nl)) with
      | None => None
      | Some ctx =>
          Some (ctx +:+ nl +:+ "Current user message: " +:+ transcription +:+ nl)
      end
  end.

Record user := mkUser {
  u_user_id : Z;
  email : string
}.

(** [TranscriptionRequest] / [AuthorizedTranscriptionRequest], with the
    fields the endpoints read. *)
Record TranscriptionRequest := mkRequest {
  transcription : string;
  sessionId : option string;
  assistantId : option Z;
  req_language : string;
  history : option (list history_item);
  audioData : option string
}.

(** An item of the returned [conversationHistory]. *)
Record history_entry := mkEntry {
  h_user : pyval;
  h_ai : pyval;
  h_timestamp : option Z;
  h_user_audio_path : option string;
  h_ai_audio_path : option string
}.

Record voice_reply := mkReply {
  r_transcription : string;
  aiResponse : string;
  r_sessionId : string;
  conversationHistory : list history_entry;
  r_user : option string;          (* only the authenticated endpoint has it *)
  userName : option string;
  issueType : option string
}.

(** [request.sessionId or str(uuid.uuid4())] *)
Definition session_id_of (E : Env) (request : TranscriptionRequest) : string :=
  match sessionId request with
  | Some s => if str_truthy s then s else uuid4 E
  | None => uuid4 E
  end.

(** ["Slah" if request.assistantId == 1 else "Amira"] *)
Definition assistant_name_of (request : TranscriptionRequest) : string :=
  match assistantId request with
  | Some 1%Z => "Slah"
  | _ => "Amira"
  end.

(** [request.assistantId or 1] *)
Definition assistant_id_or_1 (request : TranscriptionRequest) : Z :=
  match assistantId request with
  | Some 0%Z | None => 1
  | Some i => i
  end.

(** "Load conversation history": the rows of the query as dicts; the empty
    list when there is no database or the query raises. *)
Definition load_history (w : World) (session_id : string) : list history_item :=
  match db w with
  | None => []
  | Some d =>
      match Db.select_limit_10 d session_id with
      | None => []
      | Some rows =>
          map (fun row => TurnDict [("user", user_message row); ("ai", ai_response row)]) rows
      end
  end.

(** [request.history if request.history else conversation_history_list] *)
Definition history_to_use (request : TranscriptionRequest)
    (conversation_history_list : list history_item) : list history_item :=
  match history request with
  | Some (turn :: turns) => turn :: turns
  | _ => conversation_history_list
  end.

Definition ticket_phrases : list string :=
  ["open a ticket"; "open the ticket"; "create a ticket"; "raise a ticket";
   "submit a ticket"].

Fixpoint spaces (n : nat) : string :=
  match n with
  | O => EmptyString
  | S n' => String " "%char (spaces n')
  end.

(** The triple-quoted f-string passed as [description], with the
    indentation it has in the source. *)
Definition ticket_description (indent : nat) (first_line session_id lang message : string)
  : string :=
  nl +:+ spaces indent +:+ first_line +:+ nl
     +:+ spaces indent +:+ "Session: " +:+ session_id +:+ nl
     +:+ spaces indent +:+ "Language: " +:+ lang +:+ nl
     +:+ spaces indent +:+ "Message: " +:+ message +:+ nl
     +:+ spaces indent.

Definition user_label (current_user : option user) : string :=
  match current_user with Some u => email u | None => "guest" end.

(** "Check for manual ticket request" and "Generate AI response": the reply
    of the turn, [None] when the generator raises. *)
Definition decide_reply (E : Env) (w : World) (request : TranscriptionRequest)
    (current_user : option user) (session_id assistant_name conversation_context : string)
  : option string * World :=
  let transcription_lower := str_lower E (transcription request) in
  if existsb (fun phrase => py_in phrase transcription_lower) ticket_phrases then
    let title := "[MANUAL] " +:+ assistant_name +:+ " - " +:+ user_label current_user in
    let description :=
      ticket_description 16 "User explicitly asked to open a ticket."
        session_id (req_language request) (transcription request) in
    let w1 := log_call w (TicketCall title description) in
    match create_trello_card E title description with
    | Some ticket_url =>
        if str_truthy ticket_url
        then (Some ("A support ticket has been created: " +:+ ticket_url), w1)
        else (Some "I'll create a support ticket for you right away.", w1)
    | None => (Some "I'll create a support ticket for you right away.", w1)
    end
  else
    let w1 := log_call w (GeneratorCall conversation_context (req_language request) assistant_name) in
    match get_response E conversation_context (req_language request) assistant_name with
    | None => (None, w1)
    | Some ai_response =>
        if negb (str_truthy ai_response)
           || py_in "technical difficulties" (str_lower E ai_response) then
          let title := "[AUTO-FALLBACK] " +:+ assistant_name +:+ " - " +:+ user_label current_user in
          let description :=
            ticket_description 20 "AI failed to respond properly."
              session_id (req_language request) (transcription request) in
          let w2 := log_call w1 (TicketCall title description) in
          match create_trello_card E title description with
          | Some ticket_url =>
              if str_truthy ticket_url
              then (Some ("I'm having technical issues. A support ticket was created: "
                            +:+ ticket_url), w2)
              else (Some ai_response, w2)
          | None => (Some ai_response, w2)
          end
        else (Some ai_response, w1)
    end.

(** "Save to database" of the authenticated endpoint: the new row's id, or
    [None] when there is no database or a statement raises. *)
Definition save_turn_auth (w : World) (request : TranscriptionRequest)
    (session_id : string) (uid : option Z) (extracted_name extracted_issue : option string)
    (reply : string) : option Z * World :=
  match db w with
  | None => (None, w)
  | Some d =>
      match Db.save_session d
              (mkSessionSave session_id (req_language request) (assistant_id_or_1 request)
                             uid extracted_name extracted_issue) with
      | None => (None, w)
      | Some d1 =>
          match Db.insert_conversation d1 session_id uid (transcription request) reply
                  (req_language request) with
          | None => (None, with_db w (Some d1))
          | Some (conversation_id, d2) => (Some conversation_id, with_db w (Some d2))
          end
      end
  end.

(** "Schedule background audio processing". *)
Definition schedule_audio (E : Env) (w : World) (request : TranscriptionRequest)
    (session_id assistant_name reply : string) (conversation_id : option Z) : World :=
  match conversation_id with
  | Some cid =>
      if (cid =? 0)%Z then w
      else
        let w1 :=
          if opt_truthy (audioData request)
          then add_task w (SaveAudio (default "" (audioData request)) session_id cid "user")
          else w in
        add_task w1
          (GenerateAiAudio reply (voice_id_for E assistant_name (req_language request))
             session_id cid assistant_name (req_language request))
  | None => w
  end.

(** [row[i] or ""] *)
Definition or_empty (v : pyval) : pyval :=
  match v with
  | PStr s => PStr s
  | PNone => PStr ""
  end.

(** "Get updated conversation history": every row of the session. *)
Definition fetch_history (w : World) (session_id : string) : list history_entry :=
  match db w with
  | None => []
  | Some d =>
      match Db.select_all d session_id with
      | None => []
      | Some rows =>
          map (fun row => mkEntry (or_empty (user_message row)) (or_empty (ai_response row))
                            (Some (timestamp row)) (user_audio_path row) (ai_audio_path row))
              rows
      end
  end.

(** Any exception inside the endpoint's [try] becomes a 500. *)
Definition server_error {A} (detail : string) (w : World) : http A * World :=
  (HttpError 500 detail, w).

(** ** [POST /api/voice-pipeline-auth]
    The returned dictionary without its constant ["audioSaved"] entry. *)
Definition process_voice_with_auth (E : Env) (w : World) (request : TranscriptionRequest)
    (current_user : option user) : http voice_reply * World :=
  let session_id := session_id_of E request in
  let uid := u_user_id <$> current_user in
  let assistant_name := assistant_name_of request in
  let extracted_name := extract_user_name E (transcription request) in
  let extracted_issue := extract_issue_type E (transcription request) in
  let conversation_history_list := load_history w session_id in
  let history_to_use := history_to_use request conversation_history_list in
  match build_context history_to_use (transcription request) with
  | None => server_error "AttributeError" w
  | Some conversation_context =>
      match decide_reply E w request current_user session_id assistant_name
              conversation_context with
      | (None, w1) => server_error "get_response" w1
      | (Some reply, w1) =>
          let '(conversation_id, w2) :=
            save_turn_auth w1 request session_id uid extracted_name extracted_issue reply in
          let w3 := schedule_audio E w2 request session_id assistant_name reply conversation_id in
          (Ok (mkReply (transcription request) reply session_id
                       (fetch_history w3 session_id)
                       (Some (user_label current_user))
                       extracted_name extracted_issue),
           w3)
      end
  end.

(** "Save to database" of the guest endpoint. *)
Definition save_turn_guest (w : World) (request : TranscriptionRequest)
    (session_id : string) (extracted_name extracted_issue : option string)
    (reply : string) : World :=
  match db w with
  | None => w
  | Some d =>
      match Db.save_session d
              (mkSessionSave session_id (req_language request) (assistant_id_or_1 request)
                             None extracted_name extracted_issue) with
      | None => w
      | Some d1 =>
          match Db.save_conversation d1 session_id (transcription request) reply
                  (req_language request) None with
          | None => with_db w (Some d1)
          | Some d2 => with_db w (Some d2)
          end
      end
  end.

(** "Build updated conversation history": every item of [history_to_use],
    read the way the context builder reads them. *)
Fixpoint updated_history (turns : list history_item) : option (list history_entry) :=
  match turns with
  | [] => Some []
  | turn :: turns' =>
      match turn_field turn "user", turn_field turn "ai" with
      | Some user_msg, Some ai_msg =>
          match updated_history turns' with
          | Some es => Some (mkEntry user_msg ai_msg None None None :: es)
          | None => None
          end
      | _, _ => None
      end
  end.

(** ** [POST /api/voice-pipeline] *)
Definition process_voice (E : Env) (w : World) (request : TranscriptionRequest)
  : http voice_reply * World :=
  let session_id := session_id_of E request in
  let assistant_name := assistant_name_of request in
  let extracted_name := extract_user_name E (transcription request) in
  let extracted_issue := extract_issue_type E (transcription request) in
  let conversation_history_list := load_history w session_id in
  let history_to_use := history_to_use request conversation_history_list in
  match build_context history_to_use (transcription request) with
  | None => server_error "AttributeError" w
  | Some conversation_context =>
      let w1 := log_call w (GeneratorCall conversation_context (req_language request) assistant_name) in
      match get_response E conversation_context (req_language request) assistant_name with
      | None => server_error "get_response" w1
      | Some reply =>
          let w2 := save_turn_guest w1 request session_id extracted_name extracted_issue reply in
          match updated_history history_to_use with
          | None => server_error "AttributeError" w2
          | Some entries =>
              (Ok (mkReply (transcription request) reply session_id
                           (entries ++ [mkEntry (PStr (transcription request)) (PStr reply)
                                                None None None])
                           None extracted_name extracted_issue),
               w2)
          end
      end
  end.

End Voice.


(* ===================================================================== *)
(** * Strings by character                                               *)
(* ===================================================================== *)

(** The functions below measure and slice their strings ([len], [s[i:j]],
    [startswith], [strip]), so a string is here the list of its characters,
    each one a Unicode code point. *)
Module Str.

Definition char := N.
Definition str := list char.

(** A literal of the source, all of whose characters are ASCII. *)
Definition lit (s : string) : str := map N_of_ascii (list_ascii_of_string s).

(** Truth value of a [str]. *)
Definition truthy (s : str) : bool :=
  match s with [] => false | _ => true end.

(** [s.startswith(prefix)] *)
Fixpoint startswith (prefix s : str) : bool :=
  match prefix, s with
  | [], _ => true
  | p :: prefix', c :: s' => N.eqb p c && startswith prefix' s'
  | _ :: _, [] => false
  end.

(** [s[i:j]] for [0 <= i <= j] *)
Definition slice (i j : nat) (s : str) : str := firstn (j - i) (skipn i s).

(** [s[:k]] for any integer [k]: a negative [k] counts from the end, and a
    bound beyond either end is clipped. *)
Definition slice_to (k : Z) (s : str) : str :=
  if (0 <=? k)%Z then firstn (Z.to_nat k) s
  else firstn (length s - Z.to_nat (- k)) s.

(** The ASCII part of [str.isdigit]: ['0'] to ['9'].  The functions take
    [str.isdigit] as a parameter; this is the instance used on ASCII input. *)
Definition ascii_isdigit (c : char) : bool := ((48 <=? c) && (c <=? 57))%N.

(** The characters [str.isspace], [str.strip] and the [\s] of [re] take for
    whitespace (CPython's [_PyUnicode_IsWhitespace]). *)
Definition py_isspace (c : char) : bool :=
  (((9 <=? c) && (c <=? 13)) || ((28 <=? c) && (c <=? 32))
   || (c =? 133) || (c =? 160) || (c =? 5760)
   || ((8192 <=? c) && (c <=? 8202))
   || (c =? 8232) || (c =? 8233) || (c =? 8239) || (c =? 8287) || (c =? 12288))%N.

End Str.

(* ===================================================================== *)
(** * utils/text_utils.py: [clean_text], [truncate_text]                  *)
(* ===================================================================== *)

Section CleanText.
Import Str.
(** Which characters are whitespace: [Str.py_isspace] in Python. *)
Variable isspace : char -> bool.

(** [re.sub(r'\s+', ' ', text)]: every maximal run of whitespace becomes one
    space; [in_run] tells that the run being read was already replaced. *)
Fixpoint collapse_spaces (in_run : bool) (text : str) : str :=
  match text with
  | [] => []
  | c :: text' =>
      if isspace c then
        if in_run then collapse_spaces true text'
        else 32%N :: collapse_spaces true text'
      else c :: collapse_spaces false text'
  end.

(** [text.lstrip()] *)
Fixpoint lstrip (text : str) : str :=
  match text with
  | [] => []
  | c :: text' => if isspace c then lstrip text' else text
  end.

(** [text.rstrip()] *)
Fixpoint rstrip (text : str) : str :=
  match text with
  | [] => []
  | c :: text' =>
      match rstrip text' with
      | [] => if isspace c then [] else [c]
      | kept => c :: kept
      end
  end.

(** [text.strip()] *)
Definition strip (text : str) : str := rstrip (lstrip text).

Definition clean_text (text : str) : str :=
  if negb (truthy text) then []
  else
    let text := collapse_spaces false text in
    let text := strip text in
    text.

End CleanText.

(** [truncate_text(text, max_length, suffix)]; the defaults of the source are
    [max_length = 100] and [suffix = "..."]. *)
Definition truncate_text (text : Str.str) (max_length : Z) (suffix : Str.str) : Str.str :=
  if negb (Str.truthy text) || (Z.of_nat (length text) <=? max_length)%Z then text
  else Str.slice_to (max_length - Z.of_nat (length suffix)) text ++ suffix.

(* ===================================================================== *)
(** * utils/phone_utils.py                                               *)
(* ===================================================================== *)

Section PhoneUtils.
Import Str.
(** [str.isdigit] on one character. *)
Variable isdigit : char -> bool.

(** [s.isdigit()]: at least one character, and every one a digit. *)
Definition str_isdigit (s : str) : bool := truthy s && forallb isdigit s.

Definition normalize_phone_number (phone : str) : str :=
  if negb (truthy phone) then phone
  else
    let digits_only := List.filter isdigit phone in
    if (length digits_only =? 8)%nat && startswith (lit "2") digits_only then
      lit "+216" ++ digits_only
    else if (length digits_only =? 11)%nat && startswith (lit "216") digits_only then
      lit "+" ++ digits_only
    else if negb (startswith (lit "+") phone) then
      lit "+" ++ digits_only
    else phone.

Definition valid_prefixes : list char := lit "234579".

Definition validate_tunisian_phone (phone : str) : bool :=
  if negb (truthy phone) then false
  else
    let normalized := normalize_phone_number phone in
    if negb (startswith (lit "+216") normalized) then false
    else if negb (length normalized =? 12)%nat then false
    else
      let remaining := skipn 4 normalized in
      if negb (str_isdigit remaining) then false
      else
        match remaining with
        | first :: _ => existsb (N.eqb first) valid_prefixes
        | [] => false   (* not reached: [remaining] has eight characters *)
        end.

Definition format_phone_display (phone : str) : str :=
  if negb (truthy phone) then phone
  else
    let normalized := normalize_phone_number phone in
    if startswith (lit "+216") normalized && (length normalized =? 12)%nat then
      lit "+216 " ++ slice 4 6 normalized ++ lit " " ++ slice 6 9 normalized
        ++ lit " " ++ slice 9 12 normalized
    else normalized.

End PhoneUtils.
(* ===================================================================== *)
(** * Vocabulary of the statements                                       *)
(* ===================================================================== *)

(** "The prompt was not answered, or answered with a digit the menu does not
    offer": the form has no [Digits], or a value that is no key of [table]. *)
Definition no_valid_choice {V} (table : dict V) (Digits : option string) : Prop :=
  match Digits with
  | None => True
  | Some d => dict_get table d = None
  end.

(** Every live session object was constructed before the next one will be. *)
Definition oids_allocated (w : World) : Prop :=
  forall sid o, call_sessions w !! sid = Some o -> (oid o < next_oid w)%nat.

(** From [w] to [w'] every live session stayed live as the same object, no
    object identity was given back, and the table still holds allocated
    objects only. *)
Definition keeps_sessions (w w' : World) : Prop :=
  (forall sid s, call_sessions w !! sid = Some s ->
     exists s', call_sessions w' !! sid = Some s' /\ oid s' = oid s) /\
  (next_oid w <= next_oid w')%nat /\
  (oids_allocated w -> oids_allocated w').

(** The two shapes of history item the context builder is written for: a
    mapping, or an object exposing both a [user] and an [ai] attribute. *)
Definition well_shaped (turn : Voice.history_item) : Prop :=
  match turn with
  | Voice.TurnDict _ => True
  | Voice.TurnObject attributes =>
      is_Some (dict_get attributes "user") /\ is_Some (dict_get attributes "ai")
  end.

(** The text a field of an item stands for: its value, and the empty string
    when the item has no such field. *)
Definition field_text (turn : Voice.history_item) (f : string) : string :=
  match turn with
  | Voice.TurnDict fields | Voice.TurnObject fields =>
      match dict_get fields f with
      | Some v => py_str v
      | None => ""
      end
  end.

(** The two labelled lines one turn contributes to the context. *)
Definition turn_lines (turn : Voice.history_item) : string :=
  "User: " +:+ field_text turn "user" +:+ nl +:+
  "AI: " +:+ field_text turn "ai" +:+ nl.

(** The labelled transcript of a window of turns followed by the current
    message. *)
Definition transcript (window : list Voice.history_item) (message : string) : string :=
  "Previous conversation:" +:+ nl +:+ join (map turn_lines window)
    +:+ nl +:+ "Current user message: " +:+ message +:+ nl.

(** The [aiResponse] of an endpoint's reply, [None] when the endpoint
    answered with an error. *)
Definition reply_text (r : http Voice.voice_reply) : option string :=
  match r with
  | Ok reply => Some (Voice.aiResponse reply)
  | HttpError _ _ => None
  end.

(** A history loader's view of a row. *)
Definition row_turn (row : conv_row) : Voice.history_item :=
  Voice.TurnDict [("user", user_message row); ("ai", ai_response row)].

(** Rows in ascending order of [timestamp]. *)
Fixpoint ascending (rows : list conv_row) : Prop :=
  match rows with
  | [] => True
  | r :: rows' =>
      match rows' with
      | [] => True
      | r' :: _ => (timestamp r <= timestamp r')%Z
      end /\ ascending rows'
  end.


(** The context the last logged generator call was given. *)
Definition last_context (w : World) : option string :=
  match last (calls w) with
  | Some (GeneratorCall context _ _) => Some context
  | _ => None
  end.


(** A call that is where the application meant it to be: waiting in a gather
    for the caller, or ended by a hang-up. *)
Definition settled (s : Twilio.call_state) : Prop :=
  match s with
  | Twilio.Listening | Twilio.HungUp => True
  | Twilio.AppError _ | Twilio.MoreRequests => False
  end.

(** The POST routes of [routes/twilio.py] that answer with TwiML. *)
Definition twiml_routes : list string :=
  [ "/api/twilio/incoming-call"; "/api/twilio/language-selection";
    "/api/twilio/assistant-selection"; "/api/twilio/start-conversation";
    "/api/twilio/process-speech" ].

(** Whitespace occurs in [text] only as single spaces: every whitespace
    character is [' '] and none follows another; [after_space] tells that
    the character before [text] was one. *)
Fixpoint single_spaced (isspace : Str.char -> bool) (after_space : bool)
    (text : Str.str) : Prop :=
  match text with
  | [] => True
  | c :: text' =>
      if isspace c then
        c = 32%N /\ after_space = false /\ single_spaced isspace true text'
      else single_spaced isspace false text'
  end.

(** A text that has nothing to clean: single spaces only, and none at
    either end. *)
Definition tidy (isspace : Str.char -> bool) (text : Str.str) : Prop :=
  single_spaced isspace false text /\
  (forall c, head text = Some c -> isspace c = false) /\
  (forall c, last text = Some c -> isspace c = false).

(** The characters of a text that are not whitespace, in order. *)
Definition solid (isspace : Str.char -> bool) (text : Str.str) : Str.str :=
  List.filter (fun c => negb (isspace c)) text.
(* ===================================================================== *)
(** * Concrete environments used by the examples                         *)
(* ===================================================================== *)

Module Examples.

(** The two tables as the spoken menus of [routes/twilio.py] enumerate them. *)
Definition languages : dict lang_config :=
  [ ("1", mkLang "en-US" "English" "alice");
    ("2", mkLang "ar-SA" "Arabic" "alice");
    ("3", mkLang "fr-FR" "French" "alice") ].

Definition assistants : dict assistant_config :=
  [ ("1", mkAssistant 1 "Slah" "B2B");
    ("2", mkAssistant 2 "Amira" "B2C") ].

(** An environment whose generator answers [answer] and whose ticketing
    answers [ticket]. *)
Definition env_with (answer : option string) (ticket : option string) : Env :=
  {| str_lower := lower_ascii;
     LANGUAGE_CONFIG := languages;
     ASSISTANT_CONFIG := assistants;
     voice_id_for := fun _ _ => "en-US-JennyNeural";
     new_CallSession := fun sid phone => mkCallSession sid phone "en-US" 2 None;
     twilio_installed := true;
     identify_caller_by_phone := fun _ => mkCallerInfo false None None;
     get_response := fun _ _ _ => answer;
     create_trello_card := fun _ _ => ticket;
     extract_user_name := fun _ => None;
     uuid4 := "00000000-0000-4000-8000-000000000000" |}.

Definition env : Env :=
  env_with (Some "Your plan includes 10 GB.") (Some "https://trello.example/c/1").

(** The generator returns the empty string and ticketing fails. *)
Definition failing_env : Env := env_with (Some "") None.

Definition world0 : World := mkWorld ∅ 0 (Some Db.empty) [] [].

Definition phone : string := "+21620000000".

(** A call that chose French and Slah and is now in its speech gather. *)
Definition french_slah : session_obj :=
  mkObj 0 (mkCallSession "CA1" phone "fr-FR" 1 (Some (mkCallerInfo false None None))).

Definition world_in_call : World :=
  mkWorld (<["CA1" := french_slah]> ∅) 1 (Some Db.empty) [] [].

(** What the caller says on turn [k] of the twelve-turn session:
    ["question A"], ["question B"], ... *)
Definition question (k : nat) : string :=
  "question " +:+ String (ascii_of_nat (65 + k)) EmptyString.

(** The row turn [k] of session ["s1"] left in the table. *)
Definition turn_row (k : nat) : conv_row :=
  mkRow (1 + Z.of_nat k) "s1" None (PStr (question k)) (PStr "Your plan includes 10 GB.")
        "en-US" (Z.of_nat k) None None.

(** A table holding twelve persisted turns of session ["s1"], A to L, with
    timestamps 0 to 11. *)
Definition world_after_12 : World :=
  mkWorld ∅ 0
    (Some (mkDb (map turn_row (seq 0 12))
                (repeat (mkSessionSave "s1" "en-US" 2 None None None) 12) 12 13 false))
    [] [].

(** [n] guest turns of session ["s1"], none carrying a client history; turn
    [k] says [question k]. *)
Fixpoint guest_turns (w : World) (k n : nat) : World :=
  match n with
  | O => w
  | S n' =>
      let request := Voice.mkRequest (question k) (Some "s1") (Some 2%Z) "en-US" None None in
      guest_turns (snd (Voice.process_voice env w request)) (S k) n'
  end.

(** The thirteenth turn of that session, again without client history. *)
Definition turn_13 : Voice.TranscriptionRequest :=
  Voice.mkRequest (question 12) (Some "s1") (Some 2%Z) "en-US" None None.

(** Persisted turn [k] as the history loader returns it. *)
Definition persisted (k : nat) : Voice.history_item :=
  Voice.TurnDict [("user", PStr (question k)); ("ai", PStr "Your plan includes 10 GB.")].

End Examples.


(** An environment whose identity resolver knows the number [Examples.phone]. *)
Module Callers.

Definition sami : CallerInfo := mkCallerInfo true (Some "Sami") (Some 7%Z).

Definition env : Env :=
  {| str_lower := str_lower Examples.env;
     LANGUAGE_CONFIG := LANGUAGE_CONFIG Examples.env;
     ASSISTANT_CONFIG := ASSISTANT_CONFIG Examples.env;
     voice_id_for := voice_id_for Examples.env;
     new_CallSession := new_CallSession Examples.env;
     twilio_installed := twilio_installed Examples.env;
     identify_caller_by_phone := fun From =>
       if String.eqb From Examples.phone then sami else mkCallerInfo false None None;
     get_response := get_response Examples.env;
     create_trello_card := create_trello_card Examples.env;
     extract_user_name := extract_user_name Examples.env;
     uuid4 := uuid4 Examples.env |}.

End Callers.
(* ===================================================================== *)
(** * Properties                                                         *)
(* ===================================================================== *)

Open Scope nat_scope.

(** ** [max] returns the first item of greatest key *)

Section PyMax.
Context {A : Type} (key : A -> nat).

Lemma py_max_from_split (l : list A) (best : A) :
  ∃ pre post,
    best :: l = pre ++ py_max_from key best l :: post ∧
    (∀ x, In x pre → key x < key (py_max_from key best l)) ∧
    (∀ x, In x post → key x ≤ key (py_max_from key best l)).
Proof.
  induction l as [|x l IH] in best |- *; simpl.
  - exists [], []. repeat split; simpl; intros; tauto.
  - destruct (Nat.ltb_spec (key best) (key x)) as [Hlt|Hge].
    + destruct (IH x) as (pre & post & Heq & Hpre & Hpost).
      exists (best :: pre), post. rewrite Heq. repeat split; [|exact Hpost].
      intros y [<-|Hy]; [|auto].
      destruct pre as [|z pre]; simpl in Heq; injection Heq as Hz Hrest.
      * rewrite <- Hz. exact Hlt.
      * subst z. specialize (Hpre x (or_introl eq_refl)). lia.
    + destruct (IH best) as (pre & post & Heq & Hpre & Hpost).
      destruct pre as [|z pre]; simpl in Heq; injection Heq as Hz Hrest.
      * subst post. exists [], (x :: l). rewrite <- Hz in Hpost |- *.
        repeat split; simpl; [tauto|].
        intros y [<-|Hy]; [exact Hge | auto].
      * subst z. exists (best :: x :: pre), post.
        repeat split; [simpl; do 2 f_equal; exact Hrest | | exact Hpost].
        intros y [<-|[<-|Hy]].
        -- apply Hpre. now left.
        -- specialize (Hpre best (or_introl eq_refl)). lia.
        -- apply Hpre. now right.
Qed.

Lemma py_max_first_max (l : list A) (r : A) :
  py_max key l = Some r → ∃ i, first_max_at key l i r.
Proof.
  destruct l as [|best l]; [discriminate|]. simpl. intros [= <-].
  destruct (py_max_from_split l best) as (pre & post & Heq & Hpre & Hpost).
  exists (length pre). rewrite Heq. repeat split.
  - now rewrite list_lookup_middle.
  - intros j q Hq. apply list_elem_of_lookup_2, list_elem_of_In, in_app_or in Hq.
    destruct Hq as [Hq|[<-|Hq]]; [apply Nat.lt_le_incl; auto | lia | auto].
  - intros j q Hj Hq. rewrite lookup_app_l in Hq by exact Hj.
    apply Hpre, list_elem_of_In. eapply list_elem_of_lookup_2, Hq.
Qed.

Lemma first_max_at_unique (l : list A) (i i' : nat) (r r' : A) :
  first_max_at key l i r → first_max_at key l i' r' → i = i' ∧ r = r'.
Proof.
  intros (Hi & Hmax & Hbefore) (Hi' & Hmax' & Hbefore').
  destruct (Nat.lt_trichotomy i i') as [Hlt|[->|Hlt]].
  - specialize (Hbefore' i r Hlt Hi). specialize (Hmax i' r' Hi'). lia.
  - split; congruence.
  - specialize (Hbefore i' r' Hlt Hi'). specialize (Hmax' i r Hi). lia.
Qed.

Lemma py_max_None (l : list A) : py_max key l = None → l = [].
Proof. destruct l; [reflexivity | discriminate]. Qed.

Lemma py_max_from_ext (key' : A -> nat) (l : list A) (best : A) :
  (∀ x, In x (best :: l) → key x = key' x) →
  py_max_from key best l = py_max_from key' best l.
Proof.
  induction l as [|x l IH] in best |- *; simpl; [reflexivity|]. intros Hext.
  rewrite <- (Hext best), <- (Hext x) by tauto.
  destruct (key best <? key x)%nat; apply IH; intros y Hy; apply Hext;
    simpl in *; tauto.
Qed.

(** Items of key 0 never displace a running maximum. *)
Lemma py_max_from_filter_pos (l : list A) (best : A) :
  py_max_from key best (List.filter (fun x => (0 <? key x)%nat) l)
  = py_max_from key best l.
Proof.
  induction l as [|x l IH] in best |- *; simpl; [reflexivity|].
  destruct (Nat.ltb_spec 0 (key x)) as [Hpos|Hzero]; simpl.
  - destruct (key best <? key x)%nat; apply IH.
  - replace (key best <? key x)%nat with false; [apply IH|].
    symmetry. apply Nat.ltb_ge. lia.
Qed.

Lemma py_max_from_zero_start (l : list A) (x y : A) :
  key x = 0 → key y = 0 →
  List.filter (fun x => (0 <? key x)%nat) l ≠ [] →
  py_max_from key x l = py_max_from key y l.
Proof.
  intros Hx Hy. induction l as [|z l IH]; simpl; [congruence|].
  rewrite Hx, Hy. destruct (0 <? key z)%nat; [reflexivity | exact IH].
Qed.

Lemma py_max_filter_pos (l : list A) :
  List.filter (fun x => (0 <? key x)%nat) l ≠ [] →
  py_max key (List.filter (fun x => (0 <? key x)%nat) l) = py_max key l.
Proof.
  induction l as [|x l IH]; simpl; [congruence|].
  destruct (Nat.ltb_spec 0 (key x)) as [Hpos|Hzero]; simpl.
  - intros _. now rewrite py_max_from_filter_pos.
  - intros Hne. rewrite (IH Hne).
    destruct l as [|y l]; [simpl in Hne; congruence|]. simpl.
    destruct (Nat.ltb_spec (key x) (key y)) as [Hlt|Hge]; [reflexivity|].
    f_equal. symmetry. apply py_max_from_zero_start; [lia | lia |].
    simpl in Hne. replace (0 <? key y)%nat with false in Hne; [exact Hne|].
    symmetry. apply Nat.ltb_ge. lia.
Qed.

Lemma py_max_map {B : Type} (f : B → A) (l : list B) :
  py_max key (map f l) = f <$> py_max (fun b => key (f b)) l.
Proof.
  destruct l as [|b l]; simpl; [reflexivity|]. f_equal.
  induction l as [|c l IH] in b |- *; simpl; [reflexivity|].
  destruct (key (f b) <? key (f c))%nat; apply IH.
Qed.

End PyMax.

(** ** The score table is the list of the categories that scored *)

Lemma dict_set_fresh {V} (d : dict V) (k : string) (v : V) :
  ¬ In k (dict_keys d) → dict_set d k v = d ++ [(k, v)].
Proof.
  induction d as [|[k' v'] d IH]; simpl; [reflexivity|]. intros Hk.
  destruct (String.eqb_spec k' k) as [->|Hne]; [tauto|].
  rewrite IH; [reflexivity | tauto].
Qed.

Section Scores.
Context (text_lower : string).

Let score (p : issue_pattern) : nat := keyword_score text_lower (keywords p).
Let scored (ps : list issue_pattern) : list issue_pattern :=
  List.filter (fun p => (0 <? score p)%nat) ps.
Let row (p : issue_pattern) : string * nat := (type p, score p).

Lemma score_issues_from (ps : list issue_pattern) (acc : dict nat) :
  NoDup (dict_keys acc ++ map type ps) →
  fold_left
    (fun issue_scores issue =>
       let score := keyword_score text_lower (keywords issue) in
       if (0 <? score)%nat then dict_set issue_scores (type issue) score
       else issue_scores) ps acc
  = acc ++ map row (scored ps).
Proof.
  induction ps as [|p ps IH] in acc |- *; simpl; intros Hnd.
  - now rewrite app_nil_r.
  - fold (score p). apply NoDup_app in Hnd as Hparts.
    destruct Hparts as (Hacc & Hdisj & Hps).
    destruct (0 <? score p)%nat eqn:Hpos.
    + rewrite dict_set_fresh.
      * rewrite IH; [simpl; now rewrite <- app_assoc|].
        unfold dict_keys. rewrite map_app. simpl. rewrite <- app_assoc. exact Hnd.
      * intros Hin. apply (Hdisj (type p)); [now apply list_elem_of_In | left].
    + rewrite IH; [reflexivity|].
      apply NoDup_app. repeat split; [exact Hacc | | now inversion Hps].
      intros k Hk Hk'. apply (Hdisj k Hk). now right.
Qed.

Lemma score_issues_scored (ps : list issue_pattern) :
  NoDup (map type ps) → score_issues ps text_lower = map row (scored ps).
Proof. intros Hnd. unfold score_issues. now rewrite score_issues_from. Qed.

End Scores.

(** ** [extract_issue_type] *)

Section PickIssue.
Context (text_lower : string) (ps : list issue_pattern).
Hypothesis types_distinct : NoDup (map type ps).

Let score (p : issue_pattern) : nat := keyword_score text_lower (keywords p).
Let scored : list issue_pattern := List.filter (fun p => (0 <? score p)%nat) ps.

(** What [extract_issue_type] returns from the score table. *)
Let pick : option string :=
  let issue_scores := score_issues ps text_lower in
  match issue_scores with
  | [] => None
  | _ => py_max (scores_get issue_scores) (dict_keys issue_scores)
  end.

Lemma scores_get_row (qs : list issue_pattern) (p : issue_pattern) :
  NoDup (map type qs) → In p qs →
  scores_get (map (fun p => (type p, score p)) qs) (type p) = score p.
Proof.
  unfold scores_get. induction qs as [|q qs IH]; simpl; [tauto|].
  intros Hnd [->|Hin].
  - now rewrite String.eqb_refl.
  - inversion Hnd as [|? ? Hq Hqs]; subst.
    destruct (String.eqb_spec (type q) (type p)) as [Heq|Hne]; [|auto].
    exfalso. apply Hq. rewrite Heq. apply list_elem_of_In, in_map, Hin.
Qed.

Lemma scored_types_distinct : NoDup (map type scored).
Proof.
  unfold scored. clear pick. induction ps as [|q qs IH]; simpl; [constructor|].
  inversion types_distinct as [|? ? Hq Hqs]; subst.
  destruct (0 <? score q)%nat; [|auto]. simpl. constructor; [|auto].
  intros Hin. apply Hq. apply list_elem_of_In in Hin. apply list_elem_of_In.
  apply in_map_iff in Hin as (r & Hr & Hin). apply in_map_iff.
  exists r. split; [exact Hr|]. apply filter_In in Hin. tauto.
Qed.

Lemma score_table :
  score_issues ps text_lower = map (fun p => (type p, score p)) scored.
Proof. exact (score_issues_scored _ _ types_distinct). Qed.

Lemma pick_none : scored = [] → pick = None.
Proof. intros Hnone. unfold pick. rewrite score_table, Hnone. reflexivity. Qed.

Lemma pick_max : scored ≠ [] → pick = type <$> py_max score ps.
Proof.
  intros Hsome. unfold pick. rewrite score_table. cbv zeta.
  rewrite <- (py_max_filter_pos score ps Hsome). fold scored.
  pose proof scored_types_distinct as Hnd.
  destruct scored as [|p qs]; [congruence|].
  unfold dict_keys. rewrite map_map. cbn [fst]. rewrite py_max_map.
  cbn [map py_max fmap option_fmap option_map]. do 2 f_equal.
  apply py_max_from_ext. intros x Hx.
  exact (scores_get_row (p :: qs) x Hnd Hx).
Qed.

Lemma scored_nil_iff : scored = [] ↔ ∀ p, In p ps → score p = 0.
Proof.
  unfold scored. clear. split.
  - intros Hnil p Hp. destruct (Nat.eq_dec (score p) 0) as [|Hne]; [assumption|].
    assert (Hin : In p (List.filter (fun p => (0 <? score p)%nat) ps)).
    { apply filter_In. split; [exact Hp|]. apply Nat.ltb_lt. lia. }
    rewrite Hnil in Hin. destruct Hin.
  - intros Hzero. induction ps as [|q qs IH]; simpl; [reflexivity|].
    rewrite (Hzero q) by now left. simpl. apply IH. intros p Hp. apply Hzero. now right.
Qed.

Lemma pick_first_highest :
  (pick = None ↔ ∀ p, In p ps → score p = 0) ∧
  (∀ c, pick = Some c ↔
     ∃ i p, ps !! i = Some p ∧ type p = c ∧ 0 < score p ∧
            (∀ j q, ps !! j = Some q → score q ≤ score p) ∧
            (∀ j q, j < i → ps !! j = Some q → score q < score p)).
Proof.
  assert (Hpick : scored ≠ [] →
            ∃ i r, py_max score ps = Some r ∧ first_max_at score ps i r ∧ 0 < score r).
  { intros Hne.
    destruct scored as [|q qs] eqn:Hq; [congruence|].
    assert (Hin : In q scored) by (rewrite Hq; now left).
    apply filter_In in Hin as [Hin Hpos]. apply Nat.ltb_lt in Hpos.
    apply list_elem_of_In, list_elem_of_lookup_1 in Hin as [j Hj].
    destruct (py_max score ps) as [r|] eqn:Hr.
    2:{ apply py_max_None in Hr. rewrite Hr, lookup_nil in Hj. discriminate. }
    destruct (py_max_first_max score _ _ Hr) as [i Hi]. exists i, r.
    repeat split; try apply Hi.
    destruct Hi as (_ & Hle & _). specialize (Hle j q Hj). lia. }
  split.
  - split.
    + intros Hex. apply scored_nil_iff.
      destruct scored as [|q qs] eqn:Hq; [reflexivity|]. exfalso.
      assert (Hne : scored ≠ []) by (rewrite Hq; discriminate).
      rewrite <- Hq in Hpick.
      rewrite pick_max in Hex by exact Hne.
      destruct (Hpick Hne) as (i & r & Hr & _). rewrite Hr in Hex. discriminate.
    + intros Hzero. apply pick_none, scored_nil_iff, Hzero.
  - intros c. split.
    + intros Hex.
      assert (Hne : scored ≠ []).
      { intros Hnil. rewrite pick_none in Hex by exact Hnil. discriminate. }
      rewrite pick_max in Hex by exact Hne.
      destruct (Hpick Hne) as (i & r & Hr & (Hi & Hle & Hlt) & Hpos).
      rewrite Hr in Hex. injection Hex as <-. exists i, r. auto.
    + intros (i & p & Hi & <- & Hpos & Hle & Hlt).
      assert (Hne : scored ≠ []).
      { intros Hnil. pose proof (proj1 scored_nil_iff Hnil) as Hzero.
        assert (score p = 0); [|lia].
        apply Hzero. apply list_elem_of_In. eapply list_elem_of_lookup_2, Hi. }
      rewrite pick_max by exact Hne.
      destruct (Hpick Hne) as (i' & r & Hr & Hfirst & _). rewrite Hr. simpl.
      destruct (first_max_at_unique score ps i i' p r) as [_ ->];
        [repeat split; assumption | exact Hfirst | reflexivity].
Qed.

End PickIssue.

Lemma issue_types_distinct : NoDup (map type issue_patterns).
Proof. apply (bool_decide_unpack _). vm_compute. reflexivity. Qed.


(** Billing and internet keywords in equal number: billing, enumerated
    first, is returned. *)
Example extract_issue_type_tie :
  category_score Examples.env "my BILL and my WIFI" <$> issue_patterns = [1; 1; 0; 0; 0; 0] ∧
  extract_issue_type Examples.env "my BILL and my WIFI" = Some "billing".
Proof. split; vm_compute; reflexivity. Qed.

(** The utterance of the specification: two internet keywords against none
    of any other category. *)
Example extract_issue_type_internet :
  extract_issue_type Examples.env "Hi, I'm John, my internet is very slow" = Some "internet".
Proof. vm_compute. reflexivity. Qed.

(** ** The live session table *)

Lemma get_or_create_lookup (E : Env) (w : World) (call_sid caller_phone : string) :
  call_sessions (snd (get_or_create_call_session E call_sid caller_phone w)) !! call_sid
  = Some (fst (get_or_create_call_session E call_sid caller_phone w)).
Proof.
  unfold get_or_create_call_session.
  destruct (call_sessions w !! call_sid) as [s|] eqn:Hs; simpl; [exact Hs|].
  apply lookup_insert_eq.
Qed.

Lemma get_or_create_fresh (E : Env) (w : World) (call_sid caller_phone : string) :
  call_sessions w !! call_sid = None →
  get_or_create_call_session E call_sid caller_phone w
  = (mkObj (next_oid w) (new_CallSession E call_sid caller_phone),
     with_sessions w
       (<[call_sid := mkObj (next_oid w) (new_CallSession E call_sid caller_phone)]>
          (call_sessions w))
       (S (next_oid w))).
Proof. intros Hnone. unfold get_or_create_call_session. now rewrite Hnone. Qed.

(** C7.  Two calls of [get_or_create_call_session] with the same key and no
    removal in between return the identical session object, identity and
    state, and the second call changes nothing; the first call for a key
    the table does not have constructs a new session. *)
Theorem get_or_create_call_session_idempotent
    (E : Env) (w : World) (call_sid phone1 phone2 : string) :
  get_or_create_call_session E call_sid phone2
      (snd (get_or_create_call_session E call_sid phone1 w))
    = get_or_create_call_session E call_sid phone1 w
  ∧ call_sessions (snd (get_or_create_call_session E call_sid phone1 w)) !! call_sid
    = Some (fst (get_or_create_call_session E call_sid phone1 w))
  ∧ (call_sessions w !! call_sid = None →
     fst (get_or_create_call_session E call_sid phone1 w)
     = mkObj (next_oid w) (new_CallSession E call_sid phone1)).
Proof.
  split; [|split].
  - pose proof (get_or_create_lookup E w call_sid phone1) as Hlook.
    destruct (get_or_create_call_session E call_sid phone1 w) as [s w1] eqn:Hfirst.
    simpl in *. unfold get_or_create_call_session at 1. now rewrite Hlook.
  - apply get_or_create_lookup.
  - intros Hnone. now rewrite get_or_create_fresh.
Qed.

(** C6.  A status callback carrying any of the five completion signals
    leaves no session under the call's [CallSid], whatever that session's
    language and assistant were, and touches no other call; the next
    [get_or_create_call_session] for the same [CallSid], and so the next
    incoming call, gets a newly constructed session in its initial state,
    not the evicted object. *)
Theorem status_callback_evicts
    (E : Env) (w : World) (CallSid CallStatus From : string) :
  In CallStatus Twilio.terminal_statuses →
  oids_allocated w →
  Twilio.terminal_statuses = ["completed"; "failed"; "busy"; "no-answer"; "canceled"] ∧
  call_sessions (snd (Twilio.handle_status_callback w CallSid CallStatus)) !! CallSid = None ∧
  (∀ sid, sid ≠ CallSid →
     call_sessions (snd (Twilio.handle_status_callback w CallSid CallStatus)) !! sid
     = call_sessions w !! sid) ∧
  fst (get_or_create_call_session E CallSid From
         (snd (Twilio.handle_status_callback w CallSid CallStatus)))
    = mkObj (next_oid w) (new_CallSession E CallSid From) ∧
  (∀ old, call_sessions w !! CallSid = Some old → oid old ≠ next_oid w) ∧
  (twilio_installed E = true →
   call_sessions
     (snd (Twilio.handle_incoming_call E
             (snd (Twilio.handle_status_callback w CallSid CallStatus)) CallSid From))
     !! CallSid
   = Some (set_caller_info (identify_caller_by_phone E From)
             (mkObj (next_oid w) (new_CallSession E CallSid From)))).
Proof.
  intros Hstatus Hoids.
  assert (Hterm : existsb (String.eqb CallStatus) Twilio.terminal_statuses = true).
  { apply existsb_exists. exists CallStatus. split; [exact Hstatus | apply String.eqb_refl]. }
  assert (Hgone : call_sessions (snd (Twilio.handle_status_callback w CallSid CallStatus))
                    !! CallSid = None).
  { unfold Twilio.handle_status_callback. rewrite Hterm. simpl.
    destruct (call_sessions w !! CallSid) eqn:Hs; simpl; [apply lookup_delete_eq | exact Hs]. }
  assert (Hnext : next_oid (snd (Twilio.handle_status_callback w CallSid CallStatus))
                  = next_oid w).
  { unfold Twilio.handle_status_callback. rewrite Hterm. simpl.
    now destruct (call_sessions w !! CallSid). }
  assert (Hothers : ∀ sid, sid ≠ CallSid →
            call_sessions (snd (Twilio.handle_status_callback w CallSid CallStatus)) !! sid
            = call_sessions w !! sid).
  { intros sid Hne. unfold Twilio.handle_status_callback. rewrite Hterm. simpl.
    destruct (call_sessions w !! CallSid); simpl; [|reflexivity].
    now apply lookup_delete_ne. }
  split; [reflexivity|]. split; [exact Hgone|]. split; [exact Hothers|].
  remember (snd (Twilio.handle_status_callback w CallSid CallStatus)) as w' eqn:Hw'.
  clear Hw' Hothers. split; [|split].
  - rewrite (get_or_create_fresh E _ CallSid From Hgone). cbn [fst]. now rewrite Hnext.
  - intros old Hold. specialize (Hoids CallSid old Hold). lia.
  - intros Htw. unfold Twilio.handle_incoming_call. rewrite Htw. cbn [negb].
    rewrite (get_or_create_fresh E _ CallSid From Hgone). cbn.
    rewrite lookup_insert_eq. now rewrite Hnext.
Qed.

(** C6 on a call that had chosen French and Slah: after ["completed"] its
    [CallSid] gets a new session, English and Amira again. *)
Lemma status_callback_evicts_witness :
  call_sessions (snd (Twilio.handle_status_callback Examples.world_in_call "CA1" "completed"))
    !! "CA1" = None
  ∧ fst (get_or_create_call_session Examples.env "CA1" Examples.phone
           (snd (Twilio.handle_status_callback Examples.world_in_call "CA1" "completed")))
    = mkObj 1 (mkCallSession "CA1" Examples.phone "en-US" 2 None).
Proof.
  assert (Hoids : oids_allocated Examples.world_in_call).
  { intros sid o. unfold Examples.world_in_call. simpl.
    destruct (decide (sid = "CA1")) as [->|Hne].
    - rewrite lookup_insert_eq. intros [= <-]. simpl. lia.
    - rewrite lookup_insert_ne, lookup_empty by congruence. discriminate. }
  destruct (status_callback_evicts Examples.env Examples.world_in_call
              "CA1" "completed" Examples.phone) as (_ & Hgone & _ & Hnew & _).
  - simpl. tauto.
  - exact Hoids.
  - split; [exact Hgone | exact Hnew].
Defined.

(** ** The IVR handlers *)

Section Handlers.
Import Twilio.
Context (E : Env) (first : lang_config) (second : assistant_config).
Hypothesis twilio_ok : twilio_installed E = true.
Hypothesis first_language : dict_get (LANGUAGE_CONFIG E) "1" = Some first.
Hypothesis second_assistant : dict_get (ASSISTANT_CONFIG E) "2" = Some second.

(** The session a handler constructs when the table has none. *)
Let created (w : World) (CallSid : string) : session_obj :=
  mkObj (next_oid w) (new_CallSession E CallSid "unknown").

(** The voice the handlers speak in for a session language. *)
Let voice (code : string) : string := lang_voice (default first (find_lang E code)).

Lemma session_or_default_live (w : World) (CallSid : string) (fill : session_obj → session_obj)
    (s : session_obj) :
  call_sessions w !! CallSid = Some s →
  session_or_default E CallSid fill w = (s, w).
Proof. intros Hs. unfold session_or_default. now rewrite Hs. Qed.

Lemma session_or_default_missing (w : World) (CallSid : string)
    (fill : session_obj → session_obj) :
  call_sessions w !! CallSid = None →
  session_or_default E CallSid fill w
  = (fill (created w CallSid),
     with_sessions w (<[CallSid := fill (created w CallSid)]> (call_sessions w))
       (S (next_oid w))).
Proof.
  intros Hnone. unfold session_or_default. rewrite Hnone.
  rewrite (get_or_create_fresh E w CallSid "unknown" Hnone).
  unfold store_session, with_sessions. cbn. now rewrite insert_insert_eq.
Qed.

Lemma lang_for_code_voice (code : string) :
  lang_for_code E code = Some (default first (find_lang E code)).
Proof.
  unfold lang_for_code. destruct (find_lang E code); [reflexivity|].
  exact first_language.
Qed.

Lemma handle_language_selection_eq (w : World) (CallSid : string) (Digits : option string) :
  handle_language_selection E w CallSid Digits
  = let lang_config :=
      default first (dict_get (LANGUAGE_CONFIG E) (default "1" Digits)) in
    let sw := session_or_default E CallSid id w in
    (Ok [ Say ("You selected " +:+ lang_name lang_config +:+ ".") (lang_voice lang_config);
          Gather (digit_gather "/api/twilio/assistant-selection"
                    ("Press 1 for Slah, our B2B Enterprise Assistant. Press 2 for Amira, our B2C Customer Assistant.",
                     lang_voice lang_config));
          Redirect "/api/twilio/assistant-selection?Digits=2" ],
     store_session CallSid (set_language (lang_code lang_config) (fst sw)) (snd sw)).
Proof.
  unfold handle_language_selection. rewrite twilio_ok. cbn [negb].
  destruct (session_or_default E CallSid id w) as [s w1].
  now rewrite first_language.
Qed.

Lemma handle_assistant_selection_eq (w : World) (CallSid : string) (Digits : option string) :
  handle_assistant_selection E w CallSid Digits
  = let assistant_config :=
      default second (dict_get (ASSISTANT_CONFIG E) (default "2" Digits)) in
    let sw := session_or_default E CallSid (set_language "en-US") w in
    let session := set_assistant_id (asst_id assistant_config) (fst sw) in
    (Ok [ Say ("You're now connected with " +:+ asst_name assistant_config
                 +:+ ". How can I help you today?") (voice (language (attrs session)));
          Gather (speech_gather (language (attrs session)) None);
          Say reprompt (voice (language (attrs session)));
          Redirect "/api/twilio/start-conversation" ],
     store_session CallSid session (snd sw)).
Proof.
  unfold handle_assistant_selection. rewrite twilio_ok. cbn [negb].
  destruct (session_or_default E CallSid (set_language "en-US") w) as [s w1].
  now rewrite second_assistant, first_language.
Qed.

Lemma start_conversation_eq (w : World) (CallSid : string) :
  start_conversation E w CallSid
  = let sw := session_or_default E CallSid en_amira w in
    (Ok [ Gather (speech_gather (language (attrs (fst sw))) None);
          Say "I didn't hear anything. Goodbye!" (voice (language (attrs (fst sw))));
          Hangup ],
     snd sw).
Proof.
  unfold start_conversation. rewrite twilio_ok. cbn [negb].
  destruct (session_or_default E CallSid en_amira w) as [s w1].
  now rewrite lang_for_code_voice.
Qed.

Lemma process_speech_empty (w : World) (CallSid : string) (SpeechResult : option string) :
  default "" SpeechResult = "" →
  process_speech E w CallSid SpeechResult
  = let sw := session_or_default E CallSid en_amira w in
    (Ok [ Say reprompt (voice (language (attrs (fst sw))));
          Redirect "/api/twilio/start-conversation" ],
     snd sw).
Proof.
  intros Hempty. unfold process_speech. rewrite twilio_ok, Hempty. cbn [negb str_truthy].
  destruct (session_or_default E CallSid en_amira w) as [s w1].
  now rewrite lang_for_code_voice.
Qed.

Lemma save_call_turn_sessions (w : World) (session : CallSession) (speech reply : string) :
  call_sessions (save_call_turn w session speech reply) = call_sessions w.
Proof.
  unfold save_call_turn. destruct (db w) as [d|]; [|reflexivity].
  destruct (Db.save_session d _); [|reflexivity].
  now destruct (Db.save_conversation _ _ _ _ _ _).
Qed.

(** A non-empty utterance always gets a TwiML reply: the generator's answer
    and an offer to go on, or the apology when the generator raises. *)
Lemma process_speech_spoken (w : World) (CallSid speech : string) :
  str_truthy speech = true →
  ∃ w',
    call_sessions w' = call_sessions (snd (session_or_default E CallSid en_amira w)) ∧
    process_speech E w CallSid (Some speech)
    = let sw := session_or_default E CallSid en_amira w in
      let session := attrs (fst sw) in
      let assistant_name := if (assistant_id session =? 1)%Z then "Slah" else "Amira" in
      (Ok match get_response E speech (language session) assistant_name with
          | Some reply =>
              [ Say reply (voice (language session));
                Gather (speech_gather (language session)
                          (Some ("Is there anything else I can help you with?",
                                 voice (language session))));
                Say "Thank you for calling Ooredoo. Goodbye!" (voice (language session));
                Hangup ]
          | None =>
              [ Say "I'm having technical difficulties. Please try again later."
                    (voice (language session));
                Hangup ]
          end,
       w').
Proof.
  intros Hspeech. unfold process_speech. rewrite twilio_ok. cbn [negb].
  change (default "" (Some speech)) with speech. rewrite Hspeech. cbn [negb].
  destruct (session_or_default E CallSid en_amira w) as [s w1]. cbn [fst snd].
  rewrite lang_for_code_voice.
  destruct (get_response E speech _ _); eexists; (split; [|reflexivity]).
  - now rewrite save_call_turn_sessions.
  - reflexivity.
Qed.

Lemma handle_incoming_call_eq (w : World) (CallSid From : string) :
  ∃ greeting,
    handle_incoming_call E w CallSid From
    = let sw := get_or_create_call_session E CallSid From w in
      (Ok [ Say greeting "alice";
            Gather (digit_gather "/api/twilio/language-selection"
                      ("Press 1 for English. Press 2 for Arabic. Press 3 for French.", "alice"));
            Redirect "/api/twilio/language-selection?Digits=1" ],
       store_session CallSid (set_caller_info (identify_caller_by_phone E From) (fst sw))
         (snd sw)).
Proof.
  unfold handle_incoming_call. rewrite twilio_ok. cbn [negb].
  destruct (get_or_create_call_session E CallSid From w) as [s w1].
  eexists. reflexivity.
Qed.

(** ** Calls: the documents as Twilio runs them *)

Lemma run_step (fuel : nat) (w : World) (CallSid From url : string) (i : caller_input)
    (inputs : list caller_input) (said : list string) :
  run (S fuel) E w CallSid From url i inputs said
  = match dispatch E w CallSid From url i with
    | (HttpError st _, w') => mkRun said (AppError st) w'
    | (Ok doc, w') =>
        match exec_verbs doc inputs said with
        | (said', DocHangup) => mkRun said' HungUp w'
        | (said', DocListening) => mkRun said' Listening w'
        | (said', DocRequest url' i' rest) => run fuel E w' CallSid From url' i' rest said'
        end
    end.
Proof. reflexivity. Qed.

Lemma store_session_lookup (w : World) (CallSid : string) (s : session_obj) :
  call_sessions (store_session CallSid s w) !! CallSid = Some s.
Proof. apply lookup_insert_eq. Qed.

(** One round of the retry loop.  An empty [SpeechResult] is answered by the
    re-prompt and a redirect to [start-conversation], whose gather then
    decides: speech goes back to [process-speech], anything else lets the
    document run into its goodbye and hang-up. *)
Lemma empty_speech_round (fuel : nat) (w : World) (CallSid From : string) (s : session_obj)
    (inputs : list caller_input) (said : list string) :
  call_sessions w !! CallSid = Some s →
  run (S (S fuel)) E w CallSid From "/api/twilio/process-speech" (Spoke "") inputs said
  = match inputs with
    | [] => mkRun (said ++ [reprompt]) Listening w
    | Spoke speech :: rest =>
        run fuel E w CallSid From "/api/twilio/process-speech" (Spoke speech) rest
          (said ++ [reprompt])
    | _ :: rest => mkRun (said ++ [reprompt; "I didn't hear anything. Goodbye!"]) HungUp w
    end.
Proof.
  intros Hs. rewrite run_step.
  change (dispatch E w CallSid From "/api/twilio/process-speech" (Spoke ""))
    with (process_speech E w CallSid (Some "")).
  rewrite process_speech_empty by reflexivity.
  rewrite (session_or_default_live w CallSid en_amira s Hs). cbn [fst snd exec_verbs].
  rewrite run_step.
  change (dispatch E w CallSid From "/api/twilio/start-conversation" NoInput)
    with (start_conversation E w CallSid).
  rewrite start_conversation_eq.
  rewrite (session_or_default_live w CallSid en_amira s Hs).
  cbn [fst snd exec_verbs speech_gather prompt_text g_say].
  rewrite app_nil_r.
  destruct inputs as [|[| |speech] rest]; cbn; try reflexivity.
  all: now rewrite <- app_assoc.
Qed.

Lemma empty_speech_loop (n fuel : nat) (w : World) (CallSid From : string) (s : session_obj)
    (said : list string) :
  call_sessions w !! CallSid = Some s →
  run (2 * S n + fuel) E w CallSid From "/api/twilio/process-speech" (Spoke "")
      (repeat (Spoke "") n) said
  = mkRun (said ++ repeat reprompt (S n)) Listening w.
Proof.
  intros Hs. induction n as [|n IH] in said |- *.
  - change (2 * 1 + fuel) with (S (S fuel)).
    now rewrite (empty_speech_round _ _ _ _ s).
  - replace (2 * S (S n) + fuel) with (S (S (2 * S n + fuel))) by lia.
    rewrite (empty_speech_round _ _ _ _ s) by exact Hs. cbn [repeat].
    rewrite IH. now rewrite <- app_assoc.
Qed.

(** Silence after the persona menu: the document re-prompts and redirects to
    [start-conversation]; silence again: goodbye and hang-up. *)
Lemma silence_after_persona (fuel : nat) (w : World) (CallSid From : string)
    (choice : caller_input) (rest : list caller_input) (said : list string) :
  ∃ connected,
    let r := run (S (S fuel)) E w CallSid From "/api/twilio/assistant-selection" choice
               (NoInput :: NoInput :: rest) said in
    spoken r = said ++ [connected; reprompt; "I didn't hear anything. Goodbye!"] ∧
    state r = HungUp.
Proof.
  eexists. cbv zeta. rewrite run_step.
  change (dispatch E w CallSid From "/api/twilio/assistant-selection" choice)
    with (handle_assistant_selection E w CallSid (form_digits choice)).
  rewrite handle_assistant_selection_eq. cbv zeta.
  cbn [exec_verbs speech_gather prompt_text g_say accepts g_input].
  rewrite run_step.
  match goal with
  | |- context [dispatch E ?w1 CallSid From "/api/twilio/start-conversation" NoInput] =>
      change (dispatch E w1 CallSid From "/api/twilio/start-conversation" NoInput)
        with (start_conversation E w1 CallSid);
      rewrite start_conversation_eq;
      rewrite (session_or_default_live w1 CallSid en_amira _ (store_session_lookup _ _ _))
  end.
  cbn [fst snd exec_verbs speech_gather prompt_text g_say accepts g_input spoken state].
  rewrite !app_nil_r, <- !app_assoc. split; reflexivity.
Qed.

(** Silence in the gather that follows a reply: the document thanks the
    caller and hangs up, without any re-prompt. *)
Lemma silence_after_reply (fuel : nat) (w : World) (CallSid From speech reply : string)
    (s : session_obj) (rest : list caller_input) (said : list string) :
  call_sessions w !! CallSid = Some s →
  str_truthy speech = true →
  get_response E speech (language (attrs s))
    (if (assistant_id (attrs s) =? 1)%Z then "Slah" else "Amira") = Some reply →
  let r := run (S fuel) E w CallSid From "/api/twilio/process-speech" (Spoke speech)
             (NoInput :: rest) said in
  spoken r = said ++ [reply; "Is there anything else I can help you with?";
                      "Thank you for calling Ooredoo. Goodbye!"] ∧
  state r = HungUp.
Proof.
  intros Hs Hspeech Hreply. cbv zeta. rewrite run_step.
  change (dispatch E w CallSid From "/api/twilio/process-speech" (Spoke speech))
    with (process_speech E w CallSid (Some speech)).
  destruct (process_speech_spoken w CallSid speech Hspeech) as (w' & _ & ->).
  rewrite (session_or_default_live w CallSid en_amira s Hs). cbv zeta. cbn [fst snd].
  rewrite Hreply.
  cbn [exec_verbs speech_gather prompt_text g_say accepts g_input spoken state].
  rewrite <- !app_assoc. split; reflexivity.
Qed.

(** Nobody answers either menu: the call reaches its speech gather with the
    language of entry ["1"] and the assistant of entry ["2"]. *)
Lemma unanswered_menus (fuel : nat) (w : World) (CallSid From : string) :
  let r := run (S (S (S fuel))) E w CallSid From "/api/twilio/incoming-call" NoInput
             [NoInput; NoInput] [] in
  state r = Listening ∧
  ∃ s, call_sessions (world r) !! CallSid = Some s ∧
       language (attrs s) = lang_code first ∧
       assistant_id (attrs s) = asst_id second.
Proof.
  cbv zeta. rewrite run_step.
  change (dispatch E w CallSid From "/api/twilio/incoming-call" NoInput)
    with (handle_incoming_call E w CallSid From).
  destruct (handle_incoming_call_eq w CallSid From) as [greeting ->]. cbv zeta.
  cbn [exec_verbs digit_gather prompt_text g_say accepts g_input].
  rewrite run_step.
  match goal with
  | |- context [dispatch E ?w1 CallSid From "/api/twilio/language-selection?Digits=1" NoInput] =>
      change (dispatch E w1 CallSid From "/api/twilio/language-selection?Digits=1" NoInput)
        with (handle_language_selection E w1 CallSid None);
      rewrite handle_language_selection_eq;
      rewrite (session_or_default_live w1 CallSid id _ (store_session_lookup _ _ _))
  end.
  change (default "1" None) with "1". rewrite first_language.
  cbv zeta. cbn [fst snd default from_option id].
  cbn [exec_verbs digit_gather prompt_text g_say accepts g_input].
  rewrite run_step.
  match goal with
  | |- context [dispatch E ?w2 CallSid From "/api/twilio/assistant-selection?Digits=2" NoInput] =>
      change (dispatch E w2 CallSid From "/api/twilio/assistant-selection?Digits=2" NoInput)
        with (handle_assistant_selection E w2 CallSid None);
      rewrite handle_assistant_selection_eq;
      rewrite (session_or_default_live w2 CallSid (set_language "en-US") _
                 (store_session_lookup _ _ _))
  end.
  change (default "2" None) with "2". rewrite second_assistant.
  cbv zeta. cbn [fst snd default from_option id].
  cbn [exec_verbs speech_gather prompt_text g_say accepts g_input state world].
  split; [reflexivity|]. eexists. split; [apply store_session_lookup|].
  split; reflexivity.
Qed.

End Handlers.

(** ** Live sessions keep their identity

    No handler other than the status callback removes a session or replaces
    the object stored under a key: whatever a request does, every session
    that was live is still live afterwards, as the same object. *)

Lemma keeps_sessions_refl (w : World) : keeps_sessions w w.
Proof. split; [|split]; [intros sid s Hs; eauto | lia | auto]. Qed.

Lemma keeps_sessions_trans (w1 w2 w3 : World) :
  keeps_sessions w1 w2 → keeps_sessions w2 w3 → keeps_sessions w1 w3.
Proof.
  intros (H12 & Hn12 & Ha12) (H23 & Hn23 & Ha23). split; [|split]; [|lia|auto].
  intros sid s Hs. destruct (H12 sid s Hs) as (s2 & Hs2 & Ho2).
  destruct (H23 sid s2 Hs2) as (s3 & Hs3 & Ho3). exists s3. split; [exact Hs3 | congruence].
Qed.

Lemma keeps_sessions_same_table (w w' : World) :
  call_sessions w' = call_sessions w → next_oid w' = next_oid w → keeps_sessions w w'.
Proof.
  intros Ht Hn. split; [|split].
  - intros sid s Hs. exists s. now rewrite Ht.
  - lia.
  - intros Hall sid o. rewrite Ht, Hn. apply Hall.
Qed.

Lemma get_or_create_keeps (E : Env) (w : World) (call_sid caller_phone : string) :
  keeps_sessions w (snd (get_or_create_call_session E call_sid caller_phone w)).
Proof.
  unfold get_or_create_call_session.
  destruct (call_sessions w !! call_sid) as [s|] eqn:Hs; [apply keeps_sessions_refl|].
  split; [|split]; cbn.
  - intros sid s' Hs'. exists s'. split; [|reflexivity].
    rewrite lookup_insert_ne; [exact Hs' | congruence].
  - lia.
  - intros Hall sid o. cbn. destruct (decide (call_sid = sid)) as [->|Hne].
    + rewrite lookup_insert_eq. intros [= <-]. cbn. lia.
    + rewrite lookup_insert_ne by exact Hne. intros Ho. specialize (Hall sid o Ho). lia.
Qed.

(** Assigning to attributes of the object stored under a key. *)
Lemma store_session_keeps (w : World) (call_sid : string) (s s' : session_obj) :
  call_sessions w !! call_sid = Some s → oid s' = oid s →
  keeps_sessions w (store_session call_sid s' w).
Proof.
  intros Hs Hoid. split; [|split]; unfold store_session; cbn.
  - intros sid o Ho. destruct (decide (call_sid = sid)) as [->|Hne].
    + rewrite lookup_insert_eq. exists s'. split; [reflexivity | congruence].
    + rewrite lookup_insert_ne by exact Hne. eauto.
  - lia.
  - intros Hall sid o. unfold store_session. cbn.
    destruct (decide (call_sid = sid)) as [->|Hne].
    + rewrite lookup_insert_eq. intros [= <-]. rewrite Hoid. eauto.
    + rewrite lookup_insert_ne by exact Hne. apply Hall.
Qed.

Lemma session_or_default_keeps (E : Env) (w : World) (CallSid : string)
    (fill : session_obj → session_obj) :
  (∀ s, oid (fill s) = oid s) →
  keeps_sessions w (snd (Twilio.session_or_default E CallSid fill w)) ∧
  call_sessions (snd (Twilio.session_or_default E CallSid fill w)) !! CallSid
  = Some (fst (Twilio.session_or_default E CallSid fill w)).
Proof.
  intros Hfill. unfold Twilio.session_or_default.
  destruct (call_sessions w !! CallSid) as [s|] eqn:Hs.
  - split; [apply keeps_sessions_refl | exact Hs].
  - pose proof (get_or_create_keeps E w CallSid "unknown") as Hkeep.
    pose proof (get_or_create_lookup E w CallSid "unknown") as Hlook.
    destruct (get_or_create_call_session E CallSid "unknown" w) as [s w1].
    cbn [fst snd] in *. split; [|apply lookup_insert_eq].
    eapply keeps_sessions_trans; [exact Hkeep|].
    eapply store_session_keeps; [exact Hlook | apply Hfill].
Qed.

Lemma save_call_turn_keeps (w : World) (session : CallSession) (speech reply : string) :
  keeps_sessions w (Twilio.save_call_turn w session speech reply).
Proof.
  apply keeps_sessions_same_table; [apply save_call_turn_sessions|].
  unfold Twilio.save_call_turn. destruct (db w) as [d|]; [|reflexivity].
  destruct (Db.save_session d _); [|reflexivity].
  now destruct (Db.save_conversation _ _ _ _ _ _).
Qed.

Ltac keeps_sessions_step :=
  match goal with
  | |- keeps_sessions ?w ?w => apply keeps_sessions_refl
  | |- keeps_sessions ?w (store_session _ _ ?w) =>
      eapply store_session_keeps; [eassumption | reflexivity]
  | |- keeps_sessions ?w (log_call ?w _) =>
      apply keeps_sessions_same_table; reflexivity
  | |- keeps_sessions ?w (Twilio.save_call_turn ?w _ _ _) => apply save_call_turn_keeps
  | |- keeps_sessions _ _ => eapply keeps_sessions_trans; [eassumption|]
  | |- keeps_sessions _ (Twilio.save_call_turn _ _ _ _) =>
      eapply keeps_sessions_trans; [|apply save_call_turn_keeps]
  | |- keeps_sessions _ (log_call _ _) =>
      eapply keeps_sessions_trans; [|apply keeps_sessions_same_table; reflexivity]
  end.

(** Every request of a call leaves every live session live, and the same
    object. *)
Theorem requests_keep_sessions (E : Env) (w : World) (CallSid From url : string)
    (i : Twilio.caller_input) :
  keeps_sessions w (snd (Twilio.dispatch E w CallSid From url i)).
Proof.
  unfold Twilio.dispatch.
  repeat match goal with |- context [if String.eqb ?a ?b then _ else _] =>
    destruct (String.eqb a b) end; [| | | | |apply keeps_sessions_refl].
  - unfold Twilio.handle_incoming_call.
    destruct (twilio_installed E); cbn [negb]; [|apply keeps_sessions_refl].
    pose proof (get_or_create_keeps E w CallSid From) as Hkeep.
    pose proof (get_or_create_lookup E w CallSid From) as Hlook.
    destruct (get_or_create_call_session E CallSid From w) as [s w1].
    cbn [fst snd] in *. repeat keeps_sessions_step.
  - unfold Twilio.handle_language_selection.
    destruct (twilio_installed E); cbn [negb]; [|apply keeps_sessions_refl].
    destruct (session_or_default_keeps E w CallSid id (fun _ => eq_refl)) as [Hkeep Hlook].
    destruct (Twilio.session_or_default E CallSid id w) as [s w1]. cbn [fst snd] in *.
    destruct (dict_get (LANGUAGE_CONFIG E) "1"); cbn [snd Twilio.uncaught];
      repeat keeps_sessions_step.
  - unfold Twilio.handle_assistant_selection.
    destruct (twilio_installed E); cbn [negb]; [|apply keeps_sessions_refl].
    destruct (session_or_default_keeps E w CallSid (set_language "en-US") (fun _ => eq_refl))
      as [Hkeep Hlook].
    destruct (Twilio.session_or_default E CallSid (set_language "en-US") w) as [s w1].
    cbn [fst snd] in *.
    destruct (dict_get (ASSISTANT_CONFIG E) "2"); cbn [snd Twilio.uncaught];
      [|repeat keeps_sessions_step].
    destruct (dict_get (LANGUAGE_CONFIG E) "1"); cbn [snd Twilio.uncaught];
      repeat keeps_sessions_step.
  - unfold Twilio.start_conversation.
    destruct (twilio_installed E); cbn [negb]; [|apply keeps_sessions_refl].
    destruct (session_or_default_keeps E w CallSid Twilio.en_amira (fun _ => eq_refl))
      as [Hkeep Hlook].
    destruct (Twilio.session_or_default E CallSid Twilio.en_amira w) as [s w1].
    cbn [fst snd] in *.
    destruct (Twilio.lang_for_code E _); cbn [snd Twilio.uncaught]; exact Hkeep.
  - unfold Twilio.process_speech.
    destruct (twilio_installed E); cbn [negb]; [|apply keeps_sessions_refl].
    destruct (session_or_default_keeps E w CallSid Twilio.en_amira (fun _ => eq_refl))
      as [Hkeep Hlook].
    destruct (Twilio.session_or_default E CallSid Twilio.en_amira w) as [s w1].
    cbn [fst snd] in *.
    destruct (negb (str_truthy _)).
    + destruct (Twilio.lang_for_code E _); cbn [snd Twilio.uncaught]; exact Hkeep.
    + destruct (get_response E _ _ _);
        destruct (Twilio.lang_for_code E _); cbn [snd Twilio.uncaught];
        repeat keeps_sessions_step.
Qed.

(** The table of the empty world, and so of every world requests lead to
    from it, holds allocated objects only. *)
Lemma oids_allocated_empty (d : option Database) : oids_allocated (mkWorld ∅ 0 d [] []).
Proof. intros sid o. cbn. rewrite lookup_empty. discriminate. Qed.

(** A whole call, whatever the caller does, keeps them too. *)
Lemma run_keeps_sessions (fuel : nat) (E : Env) (w : World) (CallSid From url : string)
    (i : Twilio.caller_input) (inputs : list Twilio.caller_input) (said : list string) :
  keeps_sessions w (Twilio.world (Twilio.run fuel E w CallSid From url i inputs said)).
Proof.
  induction fuel as [|fuel IH] in w, url, i, inputs, said |- *; cbn [Twilio.run].
  - apply keeps_sessions_refl.
  - pose proof (requests_keep_sessions E w CallSid From url i) as Hstep.
    destruct (Twilio.dispatch E w CallSid From url i) as [[doc|st detail] w'];
      cbn [snd] in Hstep; [|exact Hstep].
    destruct (Twilio.exec_verbs doc inputs said) as [said' [| |url' i' rest]];
      cbn [Twilio.world]; [exact Hstep | exact Hstep |].
    eapply keeps_sessions_trans; [exact Hstep | apply IH].
Qed.

(** C8.  With the twilio package present and the two tables holding their
    entries ["1"] and ["2"]: a language prompt left unanswered, or answered
    with a digit the menu does not offer, makes the handler reply with TwiML
    (no error) and assigns the session the language of entry ["1"]; a
    persona prompt left unanswered, or answered with such a digit, likewise
    assigns the assistant of entry ["2"]; and a call in which nobody answers
    either menu arrives at its speech gather with exactly these two. *)
Theorem timeout_defaults (E : Env) (first : lang_config) (second : assistant_config)
    (w : World) (CallSid From : string) (Digits : option string) :
  twilio_installed E = true →
  dict_get (LANGUAGE_CONFIG E) "1" = Some first →
  dict_get (ASSISTANT_CONFIG E) "2" = Some second →
  (no_valid_choice (LANGUAGE_CONFIG E) Digits →
     ∃ doc s,
       fst (Twilio.handle_language_selection E w CallSid Digits) = Ok doc ∧
       call_sessions (snd (Twilio.handle_language_selection E w CallSid Digits)) !! CallSid
         = Some s ∧
       language (attrs s) = lang_code first) ∧
  (no_valid_choice (ASSISTANT_CONFIG E) Digits →
     ∃ doc s,
       fst (Twilio.handle_assistant_selection E w CallSid Digits) = Ok doc ∧
       call_sessions (snd (Twilio.handle_assistant_selection E w CallSid Digits)) !! CallSid
         = Some s ∧
       assistant_id (attrs s) = asst_id second) ∧
  (∀ fuel,
     Twilio.state (Twilio.run (3 + fuel) E w CallSid From "/api/twilio/incoming-call"
                     Twilio.NoInput [Twilio.NoInput; Twilio.NoInput] [])
       = Twilio.Listening ∧
     ∃ s,
       call_sessions
         (Twilio.world (Twilio.run (3 + fuel) E w CallSid From "/api/twilio/incoming-call"
                          Twilio.NoInput [Twilio.NoInput; Twilio.NoInput] []))
         !! CallSid = Some s ∧
       language (attrs s) = lang_code first ∧
       assistant_id (attrs s) = asst_id second).
Proof.
  intros Htw Hfirst Hsecond. split; [|split].
  - intros Hchoice.
    rewrite (handle_language_selection_eq E first Htw Hfirst). cbv zeta. cbn [fst snd].
    do 2 eexists. split; [reflexivity|]. split; [apply store_session_lookup|].
    destruct Digits as [d|]; cbn in Hchoice |- *.
    + now rewrite Hchoice.
    + now rewrite Hfirst.
  - intros Hchoice.
    rewrite (handle_assistant_selection_eq E first second Htw Hfirst Hsecond).
    cbv zeta. cbn [fst snd].
    do 2 eexists. split; [reflexivity|]. split; [apply store_session_lookup|].
    destruct Digits as [d|]; cbn in Hchoice |- *.
    + now rewrite Hchoice.
    + now rewrite Hsecond.
  - intros fuel.
    exact (unanswered_menus E first second Htw Hfirst Hsecond fuel w CallSid From).
Qed.

(** C8 with the tables of the spoken menus and the digit 7: English, and
    assistant 2. *)
Lemma timeout_defaults_witness :
  (∃ doc s,
     fst (Twilio.handle_language_selection Examples.env Examples.world0 "CA1" (Some "7"))
       = Ok doc ∧
     call_sessions
       (snd (Twilio.handle_language_selection Examples.env Examples.world0 "CA1" (Some "7")))
       !! "CA1" = Some s ∧
     language (attrs s) = "en-US") ∧
  (∃ doc s,
     fst (Twilio.handle_assistant_selection Examples.env Examples.world0 "CA1" (Some "7"))
       = Ok doc ∧
     call_sessions
       (snd (Twilio.handle_assistant_selection Examples.env Examples.world0 "CA1" (Some "7")))
       !! "CA1" = Some s ∧
     assistant_id (attrs s) = 2%Z).
Proof.
  destruct (timeout_defaults Examples.env
              (mkLang "en-US" "English" "alice") (mkAssistant 2 "Amira" "B2C")
              Examples.world0 "CA1" Examples.phone (Some "7")
              eq_refl eq_refl eq_refl) as (Hlang & Hasst & _).
  split; [apply Hlang | apply Hasst]; reflexivity.
Defined.

(** C9.  With the twilio package present and the tables holding their
    entries ["1"] and ["2"]: each of the four mid-call handlers, requested
    for a [CallSid] the table has no session for, replies with TwiML and
    leaves a newly constructed session under that [CallSid]: with the chosen
    language (language selection), with ["en-US"] and the chosen assistant
    (assistant selection), with ["en-US"] and assistant 2 (start-conversation
    and process-speech, whatever the speech result). *)
Theorem missing_session_is_created (E : Env) (first : lang_config) (second : assistant_config)
    (w : World) (CallSid : string) (Digits SpeechResult : option string) :
  twilio_installed E = true →
  dict_get (LANGUAGE_CONFIG E) "1" = Some first →
  dict_get (ASSISTANT_CONFIG E) "2" = Some second →
  call_sessions w !! CallSid = None →
  (∃ doc w',
     Twilio.handle_language_selection E w CallSid Digits = (Ok doc, w') ∧
     call_sessions w' !! CallSid
     = Some (set_language
               (lang_code (default first (dict_get (LANGUAGE_CONFIG E) (default "1" Digits))))
               (mkObj (next_oid w) (new_CallSession E CallSid "unknown")))) ∧
  (∃ doc w',
     Twilio.handle_assistant_selection E w CallSid Digits = (Ok doc, w') ∧
     call_sessions w' !! CallSid
     = Some (set_assistant_id
               (asst_id (default second (dict_get (ASSISTANT_CONFIG E) (default "2" Digits))))
               (set_language "en-US"
                  (mkObj (next_oid w) (new_CallSession E CallSid "unknown"))))) ∧
  (∃ doc w',
     Twilio.start_conversation E w CallSid = (Ok doc, w') ∧
     call_sessions w' !! CallSid
     = Some (set_assistant_id 2
               (set_language "en-US"
                  (mkObj (next_oid w) (new_CallSession E CallSid "unknown"))))) ∧
  (∃ doc w',
     Twilio.process_speech E w CallSid SpeechResult = (Ok doc, w') ∧
     call_sessions w' !! CallSid
     = Some (set_assistant_id 2
               (set_language "en-US"
                  (mkObj (next_oid w) (new_CallSession E CallSid "unknown"))))).
Proof.
  intros Htw Hfirst Hsecond Hnone.
  pose proof (fun fill => session_or_default_missing E w CallSid fill Hnone) as Hmiss.
  split; [|split; [|split]].
  - rewrite (handle_language_selection_eq E first Htw Hfirst), Hmiss. cbv zeta.
    do 2 eexists. split; [reflexivity|]. apply store_session_lookup.
  - rewrite (handle_assistant_selection_eq E first second Htw Hfirst Hsecond), Hmiss. cbv zeta.
    do 2 eexists. split; [reflexivity|]. apply store_session_lookup.
  - rewrite (start_conversation_eq E first Htw Hfirst), Hmiss. cbv zeta.
    do 2 eexists. split; [reflexivity|]. apply lookup_insert_eq.
  - destruct (str_truthy (default "" SpeechResult)) eqn:Hspeech.
    + destruct SpeechResult as [speech|]; [|discriminate].
      destruct (process_speech_spoken E first Htw Hfirst w CallSid speech Hspeech)
        as (w' & Hsessions & ->).
      rewrite Hmiss in Hsessions |- *. cbv zeta.
      do 2 eexists. split; [reflexivity|]. rewrite Hsessions. apply lookup_insert_eq.
    + rewrite (process_speech_empty E first Htw Hfirst), Hmiss.
      * cbv zeta. do 2 eexists. split; [reflexivity|]. apply lookup_insert_eq.
      * now destruct (default "" SpeechResult).
Qed.

(** C9 for a speech result that arrives for a call the table does not know. *)
Lemma missing_session_is_created_witness :
  ∃ doc w',
    Twilio.process_speech Examples.env Examples.world0 "CA9" (Some "my internet is slow")
      = (Ok doc, w') ∧
    call_sessions w' !! "CA9"
      = Some (mkObj 0 (mkCallSession "CA9" "unknown" "en-US" 2 None)).
Proof.
  destruct (missing_session_is_created Examples.env
              (mkLang "en-US" "English" "alice") (mkAssistant 2 "Amira" "B2C")
              Examples.world0 "CA9" None (Some "my internet is slow")
              eq_refl eq_refl eq_refl eq_refl) as (_ & _ & _ & Hspeech).
  exact Hspeech.
Defined.

(** C5, as the handlers have it.  For a call with a live session: an empty
    [SpeechResult] posted to [process-speech] is re-prompted and sent back
    to the gather every time, so [n + 1] consecutive empty results get
    [n + 1] re-prompts and the call goes on listening; the gather re-entered
    through [start-conversation], when it times out, ends the call with the
    goodbye; after the persona menu, two consecutive timeouts give exactly
    one re-prompt and then the goodbye and hang-up; and the gather that
    follows a reply, when it times out, ends the call at once, without a
    re-prompt. *)
Theorem gather_retry_policy (E : Env) (first : lang_config) (second : assistant_config)
    (w : World) (CallSid From : string) (s : session_obj) :
  twilio_installed E = true →
  dict_get (LANGUAGE_CONFIG E) "1" = Some first →
  dict_get (ASSISTANT_CONFIG E) "2" = Some second →
  call_sessions w !! CallSid = Some s →
  (∀ n fuel said,
     Twilio.run (2 * S n + fuel) E w CallSid From "/api/twilio/process-speech"
       (Twilio.Spoke "") (repeat (Twilio.Spoke "") n) said
     = Twilio.mkRun (said ++ repeat Twilio.reprompt (S n)) Twilio.Listening w) ∧
  (∀ fuel rest said,
     Twilio.run (2 + fuel) E w CallSid From "/api/twilio/process-speech"
       (Twilio.Spoke "") (Twilio.NoInput :: rest) said
     = Twilio.mkRun (said ++ [Twilio.reprompt; "I didn't hear anything. Goodbye!"])
         Twilio.HungUp w) ∧
  (∀ fuel choice rest said,
     ∃ connected,
       Twilio.spoken
         (Twilio.run (2 + fuel) E w CallSid From "/api/twilio/assistant-selection" choice
            (Twilio.NoInput :: Twilio.NoInput :: rest) said)
       = said ++ [connected; Twilio.reprompt; "I didn't hear anything. Goodbye!"] ∧
       Twilio.state
         (Twilio.run (2 + fuel) E w CallSid From "/api/twilio/assistant-selection" choice
            (Twilio.NoInput :: Twilio.NoInput :: rest) said)
       = Twilio.HungUp) ∧
  (∀ fuel speech reply rest said,
     str_truthy speech = true →
     get_response E speech (language (attrs s))
       (if (assistant_id (attrs s) =? 1)%Z then "Slah" else "Amira") = Some reply →
     Twilio.spoken
       (Twilio.run (1 + fuel) E w CallSid From "/api/twilio/process-speech"
          (Twilio.Spoke speech) (Twilio.NoInput :: rest) said)
     = said ++ [reply; "Is there anything else I can help you with?";
                "Thank you for calling Ooredoo. Goodbye!"] ∧
     Twilio.state
       (Twilio.run (1 + fuel) E w CallSid From "/api/twilio/process-speech"
          (Twilio.Spoke speech) (Twilio.NoInput :: rest) said)
     = Twilio.HungUp).
Proof.
  intros Htw Hfirst Hsecond Hs. split; [|split; [|split]].
  - intros n fuel said. exact (empty_speech_loop E first Htw Hfirst n fuel w CallSid From s said Hs).
  - intros fuel rest said.
    exact (empty_speech_round E first Htw Hfirst fuel w CallSid From s
             (Twilio.NoInput :: rest) said Hs).
  - intros fuel choice rest said.
    exact (silence_after_persona E first second Htw Hfirst Hsecond fuel w CallSid From
             choice rest said).
  - intros fuel speech reply rest said Hspeech Hreply.
    exact (silence_after_reply E first Htw Hfirst fuel w CallSid From speech reply s
             rest said Hs Hspeech Hreply).
Qed.

(** C5, amended, on three consecutive empty speech results. *)
Lemma gather_retry_policy_witness :
  Twilio.run 6 Examples.env Examples.world_in_call "CA1" Examples.phone
    "/api/twilio/process-speech" (Twilio.Spoke "") [Twilio.Spoke ""; Twilio.Spoke ""] []
  = Twilio.mkRun [Twilio.reprompt; Twilio.reprompt; Twilio.reprompt] Twilio.Listening
      Examples.world_in_call.
Proof.
  destruct (gather_retry_policy Examples.env
              (mkLang "en-US" "English" "alice") (mkAssistant 2 "Amira" "B2C")
              Examples.world_in_call "CA1" Examples.phone Examples.french_slah
              eq_refl eq_refl eq_refl eq_refl) as (Hloop & _).
  exact (Hloop 2 0 []).
Defined.

(** C5 as stated fails both ways.  The second and the third consecutive
    empty speech result are re-prompted like the first, and the call is not
    ended; and in the gather that follows a reply the first timeout already
    ends the call, with no re-prompt at all. *)
Lemma second_empty_speech_reprompts_again :
  Twilio.run 20 Examples.env Examples.world_in_call "CA1" Examples.phone
    "/api/twilio/process-speech" (Twilio.Spoke "")
    [Twilio.Spoke ""; Twilio.Spoke ""] []
  = Twilio.mkRun [Twilio.reprompt; Twilio.reprompt; Twilio.reprompt] Twilio.Listening
      Examples.world_in_call
  ∧ Twilio.spoken
      (Twilio.run 20 Examples.env Examples.world_in_call "CA1" Examples.phone
         "/api/twilio/process-speech" (Twilio.Spoke "my internet is slow")
         [Twilio.NoInput] [])
    = ["Your plan includes 10 GB."; "Is there anything else I can help you with?";
       "Thank you for calling Ooredoo. Goodbye!"]
  ∧ Twilio.state
      (Twilio.run 20 Examples.env Examples.world_in_call "CA1" Examples.phone
         "/api/twilio/process-speech" (Twilio.Spoke "my internet is slow")
         [Twilio.NoInput] [])
    = Twilio.HungUp.
Proof. repeat split; vm_compute; reflexivity. Qed.

(** ** Strings *)

Lemma append_cons (x : ascii) (a b : string) : String x a +:+ b = String x (a +:+ b).
Proof. reflexivity. Qed.

Lemma append_nil_r (a : string) : a +:+ EmptyString = a.
Proof. induction a as [|x a IH]; [reflexivity | now rewrite append_cons, IH]. Qed.

Lemma append_assoc (a b c : string) : (a +:+ b) +:+ c = a +:+ (b +:+ c).
Proof. induction a as [|x a IH]; [reflexivity | now rewrite !append_cons, IH]. Qed.

Lemma prefix_append (p s : string) : String.prefix p (p +:+ s) = true.
Proof.
  induction p as [|c p IH].
  - now destruct s.
  - rewrite append_cons. simpl. destruct (ascii_dec c c); [exact IH | congruence].
Qed.

Lemma py_in_prefix (sub s : string) : String.prefix sub s = true → py_in sub s = true.
Proof. intros Hp. destruct s; cbn [py_in]; rewrite Hp; reflexivity. Qed.

Lemma py_in_middle (sub pre post : string) : py_in sub (pre +:+ sub +:+ post) = true.
Proof.
  induction pre as [|c pre IH].
  - change (py_in sub (sub +:+ post) = true). apply py_in_prefix, prefix_append.
  - rewrite append_cons. cbn [py_in]. rewrite IH. apply orb_true_r.
Qed.

Lemma lower_ascii_append (a b : string) :
  lower_ascii (a +:+ b) = lower_ascii a +:+ lower_ascii b.
Proof.
  induction a as [|c a IH]; [reflexivity|].
  rewrite append_cons. simpl. now rewrite IH.
Qed.

(** With the ASCII case mapping, a phrase written in any mix of cases
    anywhere in a text is found in the lowered text. *)
Lemma py_in_any_case (phrase written pre post : string) :
  lower_ascii written = phrase →
  py_in phrase (lower_ascii (pre +:+ written +:+ post)) = true.
Proof.
  intros <-. rewrite !lower_ascii_append. apply py_in_middle.
Qed.

(** ** The context builder *)

Lemma turn_field_text (turn : Voice.history_item) (f : string) :
  (match turn with
   | Voice.TurnDict _ => True
   | Voice.TurnObject attributes => is_Some (dict_get attributes f)
   end) →
  ∃ v, Voice.turn_field turn f = Some v ∧ py_str v = field_text turn f.
Proof.
  destruct turn as [attributes|entries]; simpl.
  - intros [v Hv]. exists v. now rewrite Hv.
  - intros _. eexists. split; [reflexivity|]. now destruct (dict_get entries f).
Qed.

Lemma add_turn_lines (ctx : string) (turn : Voice.history_item) :
  well_shaped turn →
  Voice.add_turn (Some ctx) turn = Some (ctx +:+ turn_lines turn).
Proof.
  intros Hshape. unfold Voice.add_turn, turn_lines.
  destruct (turn_field_text turn "user") as (u & -> & <-).
  { destruct turn; [apply Hshape | exact I]. }
  destruct (turn_field_text turn "ai") as (a & -> & <-).
  { destruct turn; [apply Hshape | exact I]. }
  reflexivity.
Qed.

Lemma add_turns_lines (window : list Voice.history_item) (ctx : string) :
  Forall well_shaped window →
  fold_left Voice.add_turn window (Some ctx) = Some (ctx +:+ join (map turn_lines window)).
Proof.
  intros Hshape.
  induction Hshape as [|turn window Hturn _ IH] in ctx |- *; cbn [fold_left map join].
  - now rewrite append_nil_r.
  - rewrite add_turn_lines by exact Hturn. rewrite IH. now rewrite append_assoc.
Qed.

Lemma add_turn_raised (window : list Voice.history_item) :
  fold_left Voice.add_turn window None = None.
Proof. induction window; simpl; auto. Qed.

Lemma build_context_transcript (history_to_use : list Voice.history_item)
    (transcription : string) :
  Forall well_shaped history_to_use →
  Voice.build_context history_to_use transcription
  = Some (match history_to_use with
          | [] => transcription
          | _ => transcript (last_n 10 history_to_use) transcription
          end).
Proof.
  intros Hshape. destruct history_to_use as [|turn turns]; [reflexivity|].
  unfold Voice.build_context, transcript.
  rewrite add_turns_lines.
  - now rewrite !append_assoc.
  - unfold last_n. now apply Forall_drop.
Qed.



(** Outside the two shapes the builder is not total: an object that exposes
    only [ai] has neither the attribute [user] nor a [get], and the turn
    ends in the endpoint's 500. *)
Example build_context_raises :
  Voice.build_context [Voice.TurnObject [("ai", PStr "hello")]] "hi" = None.
Proof. reflexivity. Qed.

(** The history loaded from the database is made of mappings. *)
Lemma load_history_well_shaped (w : World) (session_id : string) :
  Forall well_shaped (Voice.load_history w session_id).
Proof.
  unfold Voice.load_history. destruct (db w) as [d|]; [|constructor].
  destruct (Db.select_limit_10 d session_id) as [rows|]; [|constructor].
  apply Forall_forall. intros turn Hin. apply list_elem_of_In, in_map_iff in Hin.
  destruct Hin as (row & <- & _). exact I.
Qed.

Lemma history_to_use_well_shaped (w : World) (request : Voice.TranscriptionRequest)
    (session_id : string) :
  Forall well_shaped (default [] (Voice.history request)) →
  Forall well_shaped (Voice.history_to_use request (Voice.load_history w session_id)).
Proof.
  intros Hshape. unfold Voice.history_to_use.
  destruct (Voice.history request) as [[|turn turns]|]; simpl in Hshape;
    auto using load_history_well_shaped.
Qed.

(** ** The escalation policy of the authenticated endpoint *)

Lemma save_turn_auth_calls (w : World) (request : Voice.TranscriptionRequest)
    (session_id : string) (uid : option Z) (name issue : option string) (reply : string) :
  calls (snd (Voice.save_turn_auth w request session_id uid name issue reply)) = calls w.
Proof.
  unfold Voice.save_turn_auth. destruct (db w) as [d|]; [|reflexivity].
  destruct (Db.save_session d _); [|reflexivity].
  now destruct (Db.insert_conversation _ _ _ _ _ _) as [[? ?]|].
Qed.

Lemma schedule_audio_calls (E : Env) (w : World) (request : Voice.TranscriptionRequest)
    (session_id assistant_name reply : string) (conversation_id : option Z) :
  calls (Voice.schedule_audio E w request session_id assistant_name reply conversation_id)
  = calls w.
Proof.
  unfold Voice.schedule_audio. destruct conversation_id as [cid|]; [|reflexivity].
  destruct (cid =? 0)%Z; [reflexivity|].
  now destruct (opt_truthy (Voice.audioData request)).
Qed.

(** Once the reply of the turn is decided, the rest of the endpoint (saving,
    scheduling the audio work, reading the history back) returns it as
    [aiResponse] and calls no collaborator. *)
Lemma process_voice_with_auth_reply (E : Env) (w : World)
    (request : Voice.TranscriptionRequest) (current_user : option Voice.user)
    (context : string) (decided : option string) (w1 : World) :
  Voice.build_context
    (Voice.history_to_use request (Voice.load_history w (Voice.session_id_of E request)))
    (Voice.transcription request) = Some context →
  Voice.decide_reply E w request current_user (Voice.session_id_of E request)
    (Voice.assistant_name_of request) context = (decided, w1) →
  reply_text (fst (Voice.process_voice_with_auth E w request current_user)) = decided ∧
  calls (snd (Voice.process_voice_with_auth E w request current_user)) = calls w1.
Proof.
  intros Hctx Hdecided. unfold Voice.process_voice_with_auth.
  rewrite Hctx, Hdecided. destruct decided as [reply|]; [|split; reflexivity].
  destruct (Voice.save_turn_auth w1 request _ _ _ _ reply) as [cid w2] eqn:Hsave.
  cbn [fst snd reply_text Voice.aiResponse]. split; [reflexivity|].
  rewrite schedule_audio_calls.
  change w2 with (snd (cid, w2)). rewrite <- Hsave. apply save_turn_auth_calls.
Qed.

Lemma build_context_of_request (E : Env) (w : World) (request : Voice.TranscriptionRequest) :
  Forall well_shaped (default [] (Voice.history request)) →
  ∃ context,
    Voice.build_context
      (Voice.history_to_use request (Voice.load_history w (Voice.session_id_of E request)))
      (Voice.transcription request) = Some context.
Proof.
  intros Hshape. eexists.
  apply build_context_transcript, history_to_use_well_shaped, Hshape.
Qed.





(** When the generator's reply calls for the fallback and ticketing returns
    nothing usable, the reply of the turn is the generator's reply as it
    is: the fallback branch has no message of its own for that case. *)
Lemma fallback_without_ticket (E : Env) (w : World) (request : Voice.TranscriptionRequest)
    (current_user : option Voice.user) (generated : string) :
  Forall well_shaped (default [] (Voice.history request)) →
  existsb (fun phrase => py_in phrase (str_lower E (Voice.transcription request)))
    Voice.ticket_phrases = false →
  (∀ context lang name, get_response E context lang name = Some generated) →
  negb (str_truthy generated) || py_in "technical difficulties" (str_lower E generated) = true →
  (∀ title description, opt_truthy (create_trello_card E title description) = false) →
  reply_text (fst (Voice.process_voice_with_auth E w request current_user)) = Some generated
  ∧ ∃ context title description,
      calls (snd (Voice.process_voice_with_auth E w request current_user))
      = calls w ++ [GeneratorCall context (Voice.req_language request)
                      (Voice.assistant_name_of request);
                    TicketCall title description].
Proof.
  intros Hshape Hno Hgen Hfallback Hticket.
  destruct (build_context_of_request E w request Hshape) as [context Hctx].
  set (title := "[AUTO-FALLBACK] " +:+ Voice.assistant_name_of request +:+ " - "
                  +:+ Voice.user_label current_user).
  set (description :=
         Voice.ticket_description 20 "AI failed to respond properly."
           (Voice.session_id_of E request) (Voice.req_language request)
           (Voice.transcription request)).
  destruct (process_voice_with_auth_reply E w request current_user context (Some generated)
              (log_call
                 (log_call w (GeneratorCall context (Voice.req_language request)
                                (Voice.assistant_name_of request)))
                 (TicketCall title description)) Hctx) as [Hreply Hcalls].
  - unfold Voice.decide_reply. rewrite Hno, Hgen, Hfallback. fold title. fold description.
    specialize (Hticket title description).
    destruct (create_trello_card E title description) as [url|]; [|reflexivity].
    cbn [opt_truthy] in Hticket. now rewrite Hticket.
  - split; [exact Hreply|]. exists context, title, description.
    rewrite Hcalls. cbn [log_call calls]. now rewrite <- app_assoc.
Qed.

(** C2 at its failing input: the generator returns [""], the fallback ticket
    is attempted (the second call in the log) and returns nothing, and the
    turn answers 200 with the empty [aiResponse]. *)
Theorem empty_generation_yields_empty_reply :
  reply_text
    (fst (Voice.process_voice_with_auth Examples.failing_env Examples.world0
            (Voice.mkRequest "hello" (Some "s1") (Some 2%Z) "en-US" None None) None))
  = Some ""
  ∧ calls
      (snd (Voice.process_voice_with_auth Examples.failing_env Examples.world0
              (Voice.mkRequest "hello" (Some "s1") (Some 2%Z) "en-US" None None) None))
    = [ GeneratorCall "hello" "en-US" "Amira";
        TicketCall "[AUTO-FALLBACK] Amira - guest"
          (Voice.ticket_description 20 "AI failed to respond properly." "s1" "en-US" "hello") ].
Proof. split; vm_compute; reflexivity. Qed.

(** The sibling branch, the explicit request, does answer with a message
    when ticketing returns nothing. *)
Example explicit_request_without_ticket :
  reply_text
    (fst (Voice.process_voice_with_auth Examples.failing_env Examples.world0
            (Voice.mkRequest "open a ticket" (Some "s1") (Some 2%Z) "en-US" None None) None))
  = Some "I'll create a support ticket for you right away.".
Proof. vm_compute. reflexivity. Qed.

(** ** The persisted history *)

Lemma order_by_timestamp_ascending (rows : list conv_row) :
  ascending rows → Db.order_by_timestamp rows = rows.
Proof.
  unfold Db.order_by_timestamp. induction rows as [|r rows IH]; [reflexivity|].
  intros [Hhead Htail]. cbn [fold_right]. rewrite (IH Htail).
  destruct rows as [|r' rows]; [reflexivity|]. cbn [Db.insert_row].
  now rewrite (proj2 (Z.leb_le _ _) Hhead).
Qed.

Lemma where_session_all (sid : string) (rows : list conv_row) :
  Forall (fun r => row_session_id r = sid) rows → Db.where_session sid rows = rows.
Proof.
  unfold Db.where_session. induction 1 as [|r rows Hr _ IH]; [reflexivity|].
  cbn [List.filter]. rewrite Hr, String.eqb_refl. now rewrite IH.
Qed.

(** Whatever the number of persisted turns of the session, the history the
    endpoints load is made of the ten oldest: the first ten in ascending
    order of timestamp. *)
Lemma load_history_oldest_ten (w : World) (d : Database) (sid : string) :
  db w = Some d → db_down d = false →
  Forall (fun r => row_session_id r = sid) (conversations d) →
  ascending (conversations d) →
  Voice.load_history w sid = map row_turn (firstn 10 (conversations d)).
Proof.
  intros Hdb Hup Hsid Hasc. unfold Voice.load_history, Db.select_limit_10.
  rewrite Hdb, Hup. now rewrite where_session_all, order_by_timestamp_ascending.
Qed.

(** C1 at its failing input: twelve turns A..L of one session are persisted
    and turn M arrives without client history.  The loaded history and the
    context handed to the generator hold turns A..J, the ten oldest; the two
    most recent turns, K and L, are not in them. *)
Theorem persisted_history_keeps_oldest_ten :
  Voice.load_history Examples.world_after_12 "s1" = map Examples.persisted (seq 0 10)
  ∧ last_context
      (snd (Voice.process_voice Examples.env Examples.world_after_12 Examples.turn_13))
    = Some (transcript (map Examples.persisted (seq 0 10)) (Examples.question 12))
  ∧ last_n 10 (map Examples.persisted (seq 0 12)) = map Examples.persisted (seq 2 10)
  ∧ Voice.load_history Examples.world_after_12 "s1"
    ≠ last_n 10 (map Examples.persisted (seq 0 12)).
Proof.
  split; [vm_compute; reflexivity|].
  split; [vm_compute; reflexivity|].
  split; [vm_compute; reflexivity|].
  vm_compute. discriminate.
Qed.

(** The twelve-turn table is the one twelve guest turns leave behind. *)
Example twelve_guest_turns :
  db (Examples.guest_turns Examples.world0 0 12) = db Examples.world_after_12.
Proof. vm_compute. reflexivity. Qed.

(* ===================================================================== *)
(** * Further properties of the voice endpoints                          *)
(* ===================================================================== *)

Lemma last_n_app_exact {A} (n : nat) (older recent : list A) :
  length recent = n → last_n n (older ++ recent) = recent.
Proof.
  intros Hlen. unfold last_n. rewrite length_app, Hlen.
  replace (length older + n - n) with (length older) by lia.
  now rewrite drop_app_length.
Qed.

Lemma last_n_exact {A} (n : nat) (l : list A) : length l = n → last_n n l = l.
Proof. exact (last_n_app_exact n [] l). Qed.

(** On a non-empty history the builder folds over the last ten items. *)
Lemma build_context_nonempty (history_to_use : list Voice.history_item)
    (transcription : string) :
  history_to_use ≠ [] →
  Voice.build_context history_to_use transcription
  = match fold_left Voice.add_turn (last_n 10 history_to_use)
            (Some ("Previous conversation:" +:+ nl)) with
    | None => None
    | Some ctx =>
        Some (ctx +:+ nl +:+ "Current user message: " +:+ transcription +:+ nl)
    end.
Proof. destruct history_to_use; [congruence | reflexivity]. Qed.

(** X1.  The context depends on the last ten turns only: whatever precedes
    them, well formed or not, changes nothing, and cannot make the builder
    raise. *)
Theorem build_context_window (older recent : list Voice.history_item)
    (transcription : string) :
  length recent = 10 →
  Voice.build_context (older ++ recent) transcription
  = Voice.build_context recent transcription.
Proof.
  intros Hlen.
  assert (Hrecent : recent ≠ []) by (destruct recent; [discriminate | congruence]).
  assert (Hall : older ++ recent ≠ []).
  { intros Hnil. apply app_eq_nil in Hnil as [_ ->]. congruence. }
  rewrite (build_context_nonempty _ _ Hall), (build_context_nonempty _ _ Hrecent).
  now rewrite (last_n_app_exact 10 older recent Hlen), (last_n_exact 10 recent Hlen).
Qed.

Lemma build_context_window_witness :
  Voice.build_context
    (Voice.TurnObject [] :: map Examples.persisted (seq 0 10)) "next"
  = Voice.build_context (map Examples.persisted (seq 0 10)) "next".
Proof.
  exact (build_context_window [Voice.TurnObject []] (map Examples.persisted (seq 0 10))
           "next" eq_refl).
Defined.

(** What the guest endpoint does to the log of calls: one generator call,
    made with the context it built, whether or not the generator answers. *)
Lemma process_voice_calls (E : Env) (w : World) (request : Voice.TranscriptionRequest)
    (context : string) :
  Voice.build_context
    (Voice.history_to_use request (Voice.load_history w (Voice.session_id_of E request)))
    (Voice.transcription request) = Some context →
  calls (snd (Voice.process_voice E w request))
  = calls w ++ [GeneratorCall context (Voice.req_language request)
                  (Voice.assistant_name_of request)].
Proof.
  intros Hctx. unfold Voice.process_voice. rewrite Hctx.
  destruct (get_response E context _ _) as [reply|]; [|reflexivity].
  assert (Hsave : ∀ w1 sid name issue,
            calls (Voice.save_turn_guest w1 request sid name issue reply) = calls w1).
  { intros w1 sid name issue. unfold Voice.save_turn_guest.
    destruct (db w1) as [d|]; [|reflexivity].
    destruct (Db.save_session d _); [|reflexivity].
    now destruct (Db.save_conversation _ _ _ _ _ _). }
  destruct (Voice.updated_history _); cbn [snd Voice.server_error]; now rewrite Hsave.
Qed.

(** X2.  A history supplied by the client is authoritative: the context the
    guest endpoint hands to the generator is the transcript of the client's
    last ten turns followed by the message, whatever the database holds for
    the session. *)
Theorem client_history_takes_precedence (E : Env) (w : World)
    (request : Voice.TranscriptionRequest) (turn : Voice.history_item)
    (turns : list Voice.history_item) :
  Voice.history request = Some (turn :: turns) →
  Forall well_shaped (turn :: turns) →
  last_context (snd (Voice.process_voice E w request))
  = Some (transcript (last_n 10 (turn :: turns)) (Voice.transcription request)).
Proof.
  intros Hhistory Hshape.
  assert (Huse : Voice.history_to_use request
                   (Voice.load_history w (Voice.session_id_of E request)) = turn :: turns).
  { unfold Voice.history_to_use. now rewrite Hhistory. }
  unfold last_context.
  rewrite (process_voice_calls E w request
             (transcript (last_n 10 (turn :: turns)) (Voice.transcription request))).
  - now rewrite last_snoc.
  - rewrite Huse. now rewrite (build_context_transcript _ _ Hshape).
Qed.

Lemma client_history_takes_precedence_witness :
  last_context
    (snd (Voice.process_voice Examples.env Examples.world_after_12
            (Voice.mkRequest "and now?" (Some "s1") (Some 2%Z) "en-US"
               (Some [Voice.TurnDict [("user", PStr "hi"); ("ai", PStr "hello")]]) None)))
  = Some (transcript [Voice.TurnDict [("user", PStr "hi"); ("ai", PStr "hello")]] "and now?").
Proof.
  refine (client_history_takes_precedence Examples.env Examples.world_after_12
            (Voice.mkRequest "and now?" (Some "s1") (Some 2%Z) "en-US"
               (Some [Voice.TurnDict [("user", PStr "hi"); ("ai", PStr "hello")]]) None)
            _ [] eq_refl _).
  repeat constructor.
Defined.

(** ** What a completed authenticated turn leaves behind *)

Lemma insert_row_perm (r : conv_row) (l : list conv_row) : Db.insert_row r l ≡ₚ r :: l.
Proof.
  induction l as [|x l IH]; cbn [Db.insert_row]; [reflexivity|].
  destruct (timestamp r <=? timestamp x)%Z; [reflexivity|].
  rewrite IH. apply Permutation_swap.
Qed.

Lemma order_by_timestamp_perm (l : list conv_row) : Db.order_by_timestamp l ≡ₚ l.
Proof.
  unfold Db.order_by_timestamp. induction l as [|x l IH]; cbn [fold_right]; [reflexivity|].
  rewrite insert_row_perm. now rewrite IH.
Qed.

Lemma where_session_snoc (sid : string) (l : list conv_row) (r : conv_row) :
  row_session_id r = sid →
  Db.where_session sid (l ++ [r]) = Db.where_session sid l ++ [r].
Proof.
  intros Hr. unfold Db.where_session. rewrite List.filter_app. cbn [List.filter].
  now rewrite Hr, String.eqb_refl.
Qed.

Lemma decide_reply_state (E : Env) (w : World) (request : Voice.TranscriptionRequest)
    (current_user : option Voice.user) (sid name context : string) :
  db (snd (Voice.decide_reply E w request current_user sid name context)) = db w ∧
  tasks (snd (Voice.decide_reply E w request current_user sid name context)) = tasks w.
Proof.
  unfold Voice.decide_reply.
  destruct (existsb _ Voice.ticket_phrases).
  - destruct (create_trello_card E _ _) as [url|]; [destruct (str_truthy url)|]; now split.
  - destruct (get_response E _ _ _) as [reply|]; [|now split].
    destruct (_ || _); [|now split].
    destruct (create_trello_card E _ _) as [url|]; [destruct (str_truthy url)|]; now split.
Qed.

(** The steps of a turn that answered 200, in the order the endpoint takes
    them. *)
Lemma process_voice_with_auth_steps (E : Env) (w w' : World)
    (request : Voice.TranscriptionRequest) (current_user : option Voice.user)
    (reply : Voice.voice_reply) :
  Voice.process_voice_with_auth E w request current_user = (Ok reply, w') →
  ∃ w1 cid w2,
    db w1 = db w ∧ tasks w1 = tasks w ∧
    Voice.save_turn_auth w1 request (Voice.session_id_of E request)
      (Voice.u_user_id <$> current_user) (extract_user_name E (Voice.transcription request))
      (extract_issue_type E (Voice.transcription request)) (Voice.aiResponse reply)
    = (cid, w2) ∧
    w' = Voice.schedule_audio E w2 request (Voice.session_id_of E request)
           (Voice.assistant_name_of request) (Voice.aiResponse reply) cid ∧
    Voice.conversationHistory reply = Voice.fetch_history w' (Voice.session_id_of E request) ∧
    Voice.r_sessionId reply = Voice.session_id_of E request ∧
    Voice.r_transcription reply = Voice.transcription request.
Proof.
  unfold Voice.process_voice_with_auth.
  destruct (Voice.build_context _ _) as [context|]; [|discriminate].
  pose proof (decide_reply_state E w request current_user (Voice.session_id_of E request)
                (Voice.assistant_name_of request) context) as [Hdb Htasks].
  destruct (Voice.decide_reply E w request current_user _ _ context) as [[text|] w1];
    [|discriminate].
  cbn [snd] in Hdb, Htasks.
  destruct (Voice.save_turn_auth w1 request _ _ _ _ text) as [cid w2] eqn:Hsave.
  intros [= <- <-]. exists w1, cid, w2. cbn. repeat split; assumption.
Qed.

Lemma schedule_audio_db (E : Env) (w : World) (request : Voice.TranscriptionRequest)
    (sid name reply : string) (cid : option Z) :
  db (Voice.schedule_audio E w request sid name reply cid) = db w.
Proof.
  unfold Voice.schedule_audio. destruct cid as [cid|]; [|reflexivity].
  destruct (cid =? 0)%Z; [reflexivity|].
  now destruct (opt_truthy (Voice.audioData request)).
Qed.

(** X3.  With a working database, a turn of the authenticated endpoint that
    answers 200 has appended exactly one row, holding the message and the
    very reply returned as [aiResponse]; and the [conversationHistory] it
    returns is read back after the insert: it has one entry more than the
    session had rows, among them the exchange just made. *)
Theorem authenticated_turn_is_persisted (E : Env) (w w' : World) (d : Database)
    (request : Voice.TranscriptionRequest) (current_user : option Voice.user)
    (reply : Voice.voice_reply) :
  db w = Some d → db_down d = false →
  Voice.process_voice_with_auth E w request current_user = (Ok reply, w') →
  (∃ d', db w' = Some d' ∧
         conversations d'
         = conversations d ++
           [mkRow (next_id d) (Voice.session_id_of E request)
                  (Voice.u_user_id <$> current_user)
                  (PStr (Voice.transcription request)) (PStr (Voice.aiResponse reply))
                  (Voice.req_language request) (clock d) None None]) ∧
  length (Voice.conversationHistory reply)
    = S (length (Db.where_session (Voice.session_id_of E request) (conversations d))) ∧
  In (Voice.mkEntry (PStr (Voice.transcription request)) (PStr (Voice.aiResponse reply))
        (Some (clock d)) None None)
     (Voice.conversationHistory reply).
Proof.
  intros Hdb Hup Hok.
  destruct (process_voice_with_auth_steps E w w' request current_user reply Hok)
    as (w1 & cid & w2 & Hdb1 & _ & Hsave & -> & Hhist & _).
  unfold Voice.save_turn_auth, Db.save_session, Db.insert_conversation in Hsave.
  rewrite Hdb1, Hdb in Hsave. cbn in Hsave. rewrite Hup in Hsave. cbn in Hsave.
  injection Hsave as <- <-.
  rewrite Hhist. unfold Voice.fetch_history, Db.select_all.
  rewrite schedule_audio_db. cbn [db with_db db_down conversations].
  rewrite where_session_snoc by reflexivity.
  split; [eexists; split; reflexivity|]. split.
  - rewrite length_map, order_by_timestamp_perm, length_app. cbn. lia.
  - apply in_map_iff. eexists. split; [|apply list_elem_of_In; rewrite order_by_timestamp_perm;
      apply list_elem_of_In, in_or_app; right; left; reflexivity].
    reflexivity.
Qed.

Lemma authenticated_turn_is_persisted_witness :
  ∃ reply,
    fst (Voice.process_voice_with_auth Examples.env Examples.world_after_12
           Examples.turn_13 None) = Ok reply ∧
    length (Voice.conversationHistory reply) = 13.
Proof.
  eexists. split; [vm_compute; reflexivity|].
  refine (proj1 (proj2 (authenticated_turn_is_persisted Examples.env Examples.world_after_12
            _ _ Examples.turn_13 None _ eq_refl eq_refl _))).
  vm_compute. reflexivity.
Defined.

(** X4.  Audio work follows persistence.  For a turn of the authenticated
    endpoint that answers 200: without a database, or with one that raises,
    nothing is scheduled and the returned history is empty; with a working
    one (whose next row id is not 0) the synthesis of the returned reply is
    scheduled for the new row, preceded by the saving of the caller's audio
    exactly when the request carried some. *)
Theorem audio_work_follows_persistence (E : Env) (w w' : World)
    (request : Voice.TranscriptionRequest) (current_user : option Voice.user)
    (reply : Voice.voice_reply) :
  Voice.process_voice_with_auth E w request current_user = (Ok reply, w') →
  (db w = None → tasks w' = tasks w ∧ Voice.conversationHistory reply = []) ∧
  (∀ d, db w = Some d → db_down d = true →
        tasks w' = tasks w ∧ Voice.conversationHistory reply = []) ∧
  (∀ d, db w = Some d → db_down d = false → next_id d ≠ 0%Z →
        tasks w'
        = tasks w
          ++ (if opt_truthy (Voice.audioData request)
              then [SaveAudio (default "" (Voice.audioData request))
                      (Voice.session_id_of E request) (next_id d) "user"]
              else [])
          ++ [GenerateAiAudio (Voice.aiResponse reply)
                (voice_id_for E (Voice.assistant_name_of request)
                   (Voice.req_language request))
                (Voice.session_id_of E request) (next_id d)
                (Voice.assistant_name_of request) (Voice.req_language request)]).
Proof.
  intros Hok.
  destruct (process_voice_with_auth_steps E w w' request current_user reply Hok)
    as (w1 & cid & w2 & Hdb1 & Htasks1 & Hsave & -> & Hhist & _).
  unfold Voice.save_turn_auth, Db.save_session, Db.insert_conversation in Hsave.
  rewrite Hdb1 in Hsave. rewrite Hhist. unfold Voice.fetch_history, Db.select_all.
  rewrite schedule_audio_db. split; [|split].
  - intros Hdb. rewrite Hdb in Hsave. injection Hsave as <- <-.
    rewrite Hdb1, Hdb. now split.
  - intros d Hdb Hdown. rewrite Hdb in Hsave. cbn in Hsave. rewrite Hdown in Hsave.
    injection Hsave as <- <-. rewrite Hdb1, Hdb, Hdown. now split.
  - intros d Hdb Hup Hid. rewrite Hdb in Hsave. cbn in Hsave. rewrite Hup in Hsave.
    cbn in Hsave. injection Hsave as <- <-.
    unfold Voice.schedule_audio. rewrite (proj2 (Z.eqb_neq _ _) Hid).
    destruct (opt_truthy (Voice.audioData request)); cbn; rewrite Htasks1;
      now rewrite <- ?app_assoc.
Qed.

Lemma audio_work_follows_persistence_witness :
  ∃ reply w',
    Voice.process_voice_with_auth Examples.env Examples.world0
      (Voice.mkRequest "hello" (Some "s1") (Some 2%Z) "en-US" None (Some "UklGRg=="))
      None = (Ok reply, w') ∧
    tasks w'
    = [ SaveAudio "UklGRg==" "s1" 1 "user";
        GenerateAiAudio "Your plan includes 10 GB." "en-US-JennyNeural" "s1" 1
          "Amira" "en-US" ].
Proof.
  eassert (Hrun : Voice.process_voice_with_auth Examples.env Examples.world0
                    (Voice.mkRequest "hello" (Some "s1") (Some 2%Z) "en-US" None
                       (Some "UklGRg==")) None = (Ok _, _))
    by (vm_compute; reflexivity).
  do 2 eexists. split; [exact Hrun|].
  refine (proj2 (proj2 (audio_work_follows_persistence _ _ _ _ _ _ Hrun))
            Db.empty eq_refl eq_refl _).
  discriminate.
Defined.

(** X5.  The first turn of a guest session.  When nothing is loaded for the
    session (no database, a failing one, or no row yet) and the client sends
    no history, the generator is given the bare message, with no label and
    no preamble, and the returned history is the single exchange just made. *)
Theorem first_guest_turn (E : Env) (w : World) (request : Voice.TranscriptionRequest)
    (reply : string) :
  Voice.load_history w (Voice.session_id_of E request) = [] →
  default [] (Voice.history request) = [] →
  get_response E (Voice.transcription request) (Voice.req_language request)
    (Voice.assistant_name_of request) = Some reply →
  fst (Voice.process_voice E w request)
    = Ok (Voice.mkReply (Voice.transcription request) reply (Voice.session_id_of E request)
            [Voice.mkEntry (PStr (Voice.transcription request)) (PStr reply) None None None]
            None (extract_user_name E (Voice.transcription request))
            (extract_issue_type E (Voice.transcription request)))
  ∧ calls (snd (Voice.process_voice E w request))
    = calls w ++ [GeneratorCall (Voice.transcription request) (Voice.req_language request)
                    (Voice.assistant_name_of request)].
Proof.
  intros Hload Hnone Hgen.
  assert (Huse : Voice.history_to_use request
                   (Voice.load_history w (Voice.session_id_of E request)) = []).
  { unfold Voice.history_to_use. rewrite Hload.
    destruct (Voice.history request) as [[|turn turns]|]; [reflexivity|discriminate|reflexivity]. }
  split.
  - unfold Voice.process_voice. rewrite Huse. cbn [Voice.build_context].
    rewrite Hgen. reflexivity.
  - apply process_voice_calls. now rewrite Huse.
Qed.

Lemma first_guest_turn_witness :
  calls (snd (Voice.process_voice Examples.env Examples.world0
                (Voice.mkRequest "my internet is slow" (Some "s7") None "en-US" None None)))
  = [GeneratorCall "my internet is slow" "en-US" "Amira"].
Proof.
  exact (proj2 (first_guest_turn Examples.env Examples.world0
                  (Voice.mkRequest "my internet is slow" (Some "s7") None "en-US" None None)
                  "Your plan includes 10 GB." eq_refl eq_refl eq_refl)).
Defined.

Lemma updated_history_some (turns : list Voice.history_item) :
  Voice.updated_history turns ≠ None ↔ Forall well_shaped turns.
Proof.
  induction turns as [|turn turns IH]; cbn [Voice.updated_history].
  - split; [constructor | discriminate].
  - rewrite Forall_cons, <- IH.
    destruct turn as [attributes|entries]; cbn [Voice.turn_field well_shaped].
    + destruct (dict_get attributes "user"), (dict_get attributes "ai");
        destruct (Voice.updated_history turns);
        split; try congruence; try (intros [[[? ?] [? ?]] ?]; congruence);
        intros _; repeat split; eauto; congruence.
    + destruct (Voice.updated_history turns); split;
        first [ intros [_ H]; exact H | intros H; split; [exact I | exact H]
              | intros _; split; [exact I | discriminate] | intros _; discriminate ].
Qed.

(** X6.  A late failure of the guest endpoint.  The window of the context
    builder is the last ten turns, but the history echoed back is rebuilt
    from every turn: when an item older than the window is of neither shape,
    the endpoint answers 500 although the generator was called and, with a
    working database, the exchange was already saved. *)
Theorem guest_turn_fails_after_saving (E : Env) (w : World) (d : Database)
    (request : Voice.TranscriptionRequest) (older recent : list Voice.history_item)
    (reply : string) :
  Voice.history request = Some (older ++ recent) →
  length recent = 10 →
  Forall well_shaped recent →
  ¬ Forall well_shaped older →
  get_response E (transcript recent (Voice.transcription request))
    (Voice.req_language request) (Voice.assistant_name_of request) = Some reply →
  db w = Some d → db_down d = false →
  fst (Voice.process_voice E w request) = HttpError 500 "AttributeError" ∧
  calls (snd (Voice.process_voice E w request))
    = calls w ++ [GeneratorCall (transcript recent (Voice.transcription request))
                    (Voice.req_language request) (Voice.assistant_name_of request)] ∧
  ∃ d', db (snd (Voice.process_voice E w request)) = Some d' ∧
        conversations d'
        = conversations d ++
          [mkRow (next_id d) (Voice.session_id_of E request) None
                 (PStr (Voice.transcription request)) (PStr reply)
                 (Voice.req_language request) (clock d) None None].
Proof.
  intros Hhistory Hlen Hrecent Holder Hgen Hdb Hup.
  assert (Hne : older ++ recent ≠ []).
  { destruct recent; [discriminate|]. now destruct older. }
  assert (Huse : Voice.history_to_use request
                   (Voice.load_history w (Voice.session_id_of E request)) = older ++ recent).
  { unfold Voice.history_to_use. rewrite Hhistory.
    destruct (older ++ recent); [congruence | reflexivity]. }
  assert (Hctx : Voice.build_context (older ++ recent) (Voice.transcription request)
                 = Some (transcript recent (Voice.transcription request))).
  { rewrite (build_context_nonempty _ _ Hne), (last_n_app_exact 10 older recent Hlen).
    pose proof (build_context_transcript recent (Voice.transcription request) Hrecent)
      as Hwindow.
    rewrite build_context_nonempty, (last_n_exact 10 recent Hlen) in Hwindow
      by (destruct recent; [discriminate | congruence]).
    rewrite Hwindow. now destruct recent. }
  assert (Hecho : Voice.updated_history (older ++ recent) = None).
  { destruct (Voice.updated_history (older ++ recent)) eqn:Hsome; [|reflexivity].
    exfalso. apply Holder.
    assert (Hall : Forall well_shaped (older ++ recent)).
    { apply updated_history_some. congruence. }
    now apply Forall_app in Hall. }
  split; [|split].
  - unfold Voice.process_voice. rewrite Huse, Hctx, Hgen, Hecho. reflexivity.
  - apply process_voice_calls. now rewrite Huse.
  - unfold Voice.process_voice. rewrite Huse, Hctx, Hgen, Hecho.
    cbn [snd Voice.server_error].
    unfold Voice.save_turn_guest, Db.save_session, Db.save_conversation,
      Db.insert_conversation.
    cbn [db log_call]. rewrite Hdb. cbn. rewrite Hup. cbn.
    eexists. split; reflexivity.
Qed.

Lemma guest_turn_fails_after_saving_witness :
  fst (Voice.process_voice Examples.env Examples.world0
         (Voice.mkRequest "next" (Some "s1") (Some 2%Z) "en-US"
            (Some (Voice.TurnObject [("ai", PStr "hello")]
                     :: map Examples.persisted (seq 0 10))) None))
  = HttpError 500 "AttributeError".
Proof.
  refine (proj1 (guest_turn_fails_after_saving Examples.env Examples.world0 Db.empty
            (Voice.mkRequest "next" (Some "s1") (Some 2%Z) "en-US"
               (Some (Voice.TurnObject [("ai", PStr "hello")]
                        :: map Examples.persisted (seq 0 10))) None)
            [Voice.TurnObject [("ai", PStr "hello")]] (map Examples.persisted (seq 0 10))
            "Your plan includes 10 GB." eq_refl eq_refl _ _ eq_refl eq_refl eq_refl)).
  - repeat constructor.
  - intros Hall. apply Forall_cons in Hall as [Hbad _].
    cbn in Hbad. destruct Hbad as [[v Hv] _]. discriminate.
Defined.

(** X7.  A request that names no assistant.  When [assistantId] is absent
    (or 0) the guest endpoint asks the generator for Amira's persona, yet
    records the session under assistant id 1, the id that every comparison
    [== 1] of the code reads as Slah. *)
Theorem unnamed_assistant_is_recorded_as_1 (E : Env) (w w' : World) (d : Database)
    (request : Voice.TranscriptionRequest) (reply : Voice.voice_reply) :
  Voice.assistantId request = None ∨ Voice.assistantId request = Some 0%Z →
  db w = Some d → db_down d = false →
  Voice.process_voice E w request = (Ok reply, w') →
  (∃ context,
     last (calls w') = Some (GeneratorCall context (Voice.req_language request) "Amira")) ∧
  ∃ d', db w' = Some d' ∧
        last (session_saves d')
        = Some (mkSessionSave (Voice.session_id_of E request) (Voice.req_language request) 1
                  None (extract_user_name E (Voice.transcription request))
                  (extract_issue_type E (Voice.transcription request))).
Proof.
  intros Hid Hdb Hup Hok.
  assert (Hname : Voice.assistant_name_of request = "Amira").
  { unfold Voice.assistant_name_of. now destruct Hid as [-> | ->]. }
  assert (Hone : Voice.assistant_id_or_1 request = 1%Z).
  { unfold Voice.assistant_id_or_1. now destruct Hid as [-> | ->]. }
  split.
  - destruct (Voice.build_context
                (Voice.history_to_use request
                   (Voice.load_history w (Voice.session_id_of E request)))
                (Voice.transcription request)) as [context|] eqn:Hctx.
    + exists context.
      pose proof (process_voice_calls E w request context Hctx) as Hcalls.
      rewrite Hok in Hcalls. cbn [snd] in Hcalls.
      now rewrite Hcalls, last_snoc, Hname.
    + unfold Voice.process_voice in Hok. rewrite Hctx in Hok. discriminate.
  - unfold Voice.process_voice in Hok.
    destruct (Voice.build_context _ _) as [context|]; [|discriminate].
    destruct (get_response E context _ _) as [answer|]; [|discriminate].
    destruct (Voice.updated_history _); [|discriminate].
    injection Hok as _ <-.
    unfold Voice.save_turn_guest, Db.save_session, Db.save_conversation,
      Db.insert_conversation.
    cbn [db log_call]. rewrite Hdb. cbn. rewrite Hup. cbn.
    eexists. split; [reflexivity|]. cbn. now rewrite last_snoc, Hone.
Qed.

Lemma unnamed_assistant_is_recorded_as_1_witness :
  ∃ reply w' d',
    Voice.process_voice Examples.env Examples.world0
      (Voice.mkRequest "hello" (Some "s1") None "en-US" None None) = (Ok reply, w') ∧
    db w' = Some d' ∧
    last (session_saves d') = Some (mkSessionSave "s1" "en-US" 1 None None None).
Proof.
  eassert (Hrun : Voice.process_voice Examples.env Examples.world0
                    (Voice.mkRequest "hello" (Some "s1") None "en-US" None None)
                  = (Ok _, _))
    by (vm_compute; reflexivity).
  destruct (proj2 (unnamed_assistant_is_recorded_as_1 Examples.env Examples.world0 _
                     Db.empty (Voice.mkRequest "hello" (Some "s1") None "en-US" None None) _
                     (or_introl eq_refl) eq_refl eq_refl Hrun)) as (d' & Hdb & Hlast).
  do 3 eexists. split; [exact Hrun|]. split; [exact Hdb | exact Hlast].
Defined.

(** ** Whole calls *)

Section Calls.
Import Twilio.
Context (E : Env) (first : lang_config) (second : assistant_config).
Hypothesis twilio_ok : twilio_installed E = true.
Hypothesis first_language : dict_get (LANGUAGE_CONFIG E) "1" = Some first.
Hypothesis second_assistant : dict_get (ASSISTANT_CONFIG E) "2" = Some second.

Let settles (url : string) (inputs : list caller_input) (budget : nat) : Prop :=
  ∀ fuel w CallSid From i said,
    budget ≤ fuel → settled (state (run fuel E w CallSid From url i inputs said)).

Ltac spend_request Hfuel :=
  match type of Hfuel with
  | _ ≤ ?fuel => destruct fuel as [|fuel]; [cbn in Hfuel; lia|]; rewrite (run_step E)
  end.

Lemma str_truthy_false (s : string) : str_truthy s = false → s = "".
Proof. now destruct s. Qed.

Lemma start_conversation_settles (inputs : list caller_input) :
  (∀ x rest, inputs = x :: rest →
             settles "/api/twilio/process-speech" rest (2 * length rest + 2)) →
  settles "/api/twilio/start-conversation" inputs (2 * length inputs + 1).
Proof.
  intros Hnext fuel w CallSid From i said Hfuel. spend_request Hfuel.
  change (dispatch E w CallSid From "/api/twilio/start-conversation" i)
    with (start_conversation E w CallSid).
  rewrite (start_conversation_eq E first twilio_ok first_language). cbv zeta.
  cbn [exec_verbs speech_gather prompt_text g_say].
  destruct inputs as [|x rest]; [exact I|].
  destruct x as [|digits|speech]; cbn [accepts g_input exec_verbs state]; try exact I.
  apply (Hnext _ _ eq_refl). cbn [length] in Hfuel. lia.
Qed.

Lemma process_speech_settles (inputs : list caller_input) :
  settles "/api/twilio/start-conversation" inputs (2 * length inputs + 1) →
  (∀ x rest, inputs = x :: rest →
             settles "/api/twilio/process-speech" rest (2 * length rest + 2)) →
  settles "/api/twilio/process-speech" inputs (2 * length inputs + 2).
Proof.
  intros Hstart Hnext fuel w CallSid From i said Hfuel. spend_request Hfuel.
  change (dispatch E w CallSid From "/api/twilio/process-speech" i)
    with (process_speech E w CallSid (form_speech i)).
  destruct (str_truthy (default "" (form_speech i))) eqn:Hspeech.
  - destruct i as [|digits|speech]; try discriminate. cbn in Hspeech.
    destruct (process_speech_spoken E first twilio_ok first_language w CallSid speech Hspeech)
      as (w' & _ & Hdoc).
    cbn [form_speech]. rewrite Hdoc. cbv zeta.
    destruct (get_response E speech _ _) as [reply|];
      cbn [exec_verbs speech_gather prompt_text g_say]; [|exact I].
    destruct inputs as [|x rest]; [exact I|].
    destruct x as [|digits|speech']; cbn [accepts g_input exec_verbs state]; try exact I.
    apply (Hnext _ _ eq_refl). cbn [length] in Hfuel. lia.
  - rewrite (process_speech_empty E first twilio_ok first_language)
      by now apply str_truthy_false.
    cbv zeta. cbn [exec_verbs]. apply Hstart. lia.
Qed.

Lemma speech_rounds_settle (inputs : list caller_input) :
  settles "/api/twilio/process-speech" inputs (2 * length inputs + 2) ∧
  settles "/api/twilio/start-conversation" inputs (2 * length inputs + 1).
Proof.
  induction inputs as [|x rest [IHspeech _]].
  - assert (Hstart : settles "/api/twilio/start-conversation" [] (2 * 0 + 1))
      by (apply start_conversation_settles; discriminate).
    split; [|exact Hstart]. apply process_speech_settles; [exact Hstart | discriminate].
  - assert (Hstart : settles "/api/twilio/start-conversation" (x :: rest)
                       (2 * length (x :: rest) + 1)).
    { apply start_conversation_settles. now intros ? ? [= <- <-]. }
    split; [|exact Hstart].
    apply process_speech_settles; [exact Hstart | now intros ? ? [= <- <-]].
Qed.

Lemma assistant_selection_settles (url : string) (inputs : list caller_input) :
  url_path url = "/api/twilio/assistant-selection" →
  settles url inputs (2 * length inputs + 2).
Proof.
  intros Hpath fuel w CallSid From i said Hfuel. spend_request Hfuel.
  replace (dispatch E w CallSid From url i)
    with (handle_assistant_selection E w CallSid (form_digits i))
    by (unfold dispatch; now rewrite Hpath).
  rewrite (handle_assistant_selection_eq E first second twilio_ok first_language
             second_assistant).
  cbv zeta. cbn [exec_verbs speech_gather prompt_text g_say].
  destruct inputs as [|x rest]; [exact I|].
  destruct x as [|digits|speech]; cbn [accepts g_input exec_verbs state].
  - apply (proj2 (speech_rounds_settle rest)). cbn [length] in Hfuel. lia.
  - apply (proj2 (speech_rounds_settle rest)). cbn [length] in Hfuel. lia.
  - apply (proj1 (speech_rounds_settle rest)). cbn [length] in Hfuel. lia.
Qed.

Lemma language_selection_settles (url : string) (inputs : list caller_input) :
  url_path url = "/api/twilio/language-selection" →
  settles url inputs (2 * length inputs + 2).
Proof.
  intros Hpath fuel w CallSid From i said Hfuel. spend_request Hfuel.
  replace (dispatch E w CallSid From url i)
    with (handle_language_selection E w CallSid (form_digits i))
    by (unfold dispatch; now rewrite Hpath).
  rewrite (handle_language_selection_eq E first twilio_ok first_language).
  cbv zeta. cbn [exec_verbs digit_gather prompt_text g_say].
  destruct inputs as [|x rest]; [exact I|].
  destruct x as [|digits|speech]; cbn [accepts g_input g_action exec_verbs state];
    (apply assistant_selection_settles; [reflexivity | cbn [length] in Hfuel; lia]).
Qed.

Lemma incoming_call_settles (url : string) (inputs : list caller_input) :
  url_path url = "/api/twilio/incoming-call" →
  settles url inputs (2 * length inputs + 2).
Proof.
  intros Hpath fuel w CallSid From i said Hfuel. spend_request Hfuel.
  replace (dispatch E w CallSid From url i)
    with (handle_incoming_call E w CallSid From)
    by (unfold dispatch; now rewrite Hpath).
  destruct (handle_incoming_call_eq E twilio_ok w CallSid From) as [greeting ->].
  cbv zeta. cbn [exec_verbs digit_gather prompt_text g_say].
  destruct inputs as [|x rest]; [exact I|].
  destruct x as [|digits|speech]; cbn [accepts g_input g_action exec_verbs state];
    (apply language_selection_settles; [reflexivity | cbn [length] in Hfuel; lia]).
Qed.

(** X8.  No call gets lost.  With Twilio installed and the entries ["1"] of
    the language table and ["2"] of the assistant table present, a call that
    enters at any TwiML route, whatever the state of the server and whatever
    the caller does or says, never meets an application error, and within
    two requests per caller input plus two it is waiting in a gather or has
    been hung up: no chain of redirects goes on without consuming input. *)
Theorem call_always_settles (fuel : nat) (w : World) (CallSid From url : string)
    (i : caller_input) (inputs : list caller_input) (said : list string) :
  In (url_path url) twiml_routes →
  2 * length inputs + 2 ≤ fuel →
  settled (state (run fuel E w CallSid From url i inputs said)).
Proof.
  intros Hroute Hfuel.
  destruct Hroute as [Hp|[Hp|[Hp|[Hp|[Hp|[]]]]]]; symmetry in Hp.
  - now apply incoming_call_settles.
  - now apply language_selection_settles.
  - now apply assistant_selection_settles.
  - destruct fuel as [|fuel]; [lia|]. rewrite (run_step E).
    replace (dispatch E w CallSid From url i) with (start_conversation E w CallSid)
      by (unfold dispatch; now rewrite Hp).
    pose proof (proj2 (speech_rounds_settle inputs) (S fuel) w CallSid From i said) as Hs.
    rewrite (run_step E) in Hs. apply Hs. lia.
  - destruct fuel as [|fuel]; [lia|]. rewrite (run_step E).
    replace (dispatch E w CallSid From url i)
      with (process_speech E w CallSid (form_speech i))
      by (unfold dispatch; now rewrite Hp).
    pose proof (proj1 (speech_rounds_settle inputs) (S fuel) w CallSid From i said) as Hs.
    rewrite (run_step E) in Hs. apply Hs. lia.
Qed.

End Calls.

Lemma call_always_settles_witness :
  settled (Twilio.state
             (Twilio.run 8 Examples.env Examples.world0 "CA1" Examples.phone
                "/api/twilio/incoming-call" Twilio.NoInput
                [Twilio.Pressed "3"; Twilio.NoInput; Twilio.Spoke "" ] [])).
Proof.
  refine (call_always_settles Examples.env _ _ eq_refl eq_refl eq_refl 8 Examples.world0
            "CA1" Examples.phone "/api/twilio/incoming-call" Twilio.NoInput
            [Twilio.Pressed "3"; Twilio.NoInput; Twilio.Spoke ""] [] _ _).
  - left. reflexivity.
  - cbn. lia.
Defined.

(** ** Calls do not interfere *)

Lemma get_or_create_frame (E : Env) (w : World) (call_sid caller_phone other : string) :
  other ≠ call_sid →
  call_sessions (snd (get_or_create_call_session E call_sid caller_phone w)) !! other
  = call_sessions w !! other.
Proof.
  intros Hne. unfold get_or_create_call_session.
  destruct (call_sessions w !! call_sid); [reflexivity|].
  cbn. now rewrite lookup_insert_ne by congruence.
Qed.

Lemma store_session_frame (w : World) (call_sid other : string) (s : session_obj) :
  other ≠ call_sid →
  call_sessions (store_session call_sid s w) !! other = call_sessions w !! other.
Proof. intros Hne. cbn. now rewrite lookup_insert_ne by congruence. Qed.

Lemma session_or_default_frame (E : Env) (w : World) (CallSid other : string)
    (fill : session_obj → session_obj) :
  other ≠ CallSid →
  call_sessions (snd (Twilio.session_or_default E CallSid fill w)) !! other
  = call_sessions w !! other.
Proof.
  intros Hne. unfold Twilio.session_or_default.
  destruct (call_sessions w !! CallSid); [reflexivity|].
  pose proof (get_or_create_frame E w CallSid "unknown" other Hne) as Hframe.
  destruct (get_or_create_call_session E CallSid "unknown" w) as [s w1].
  cbn [snd] in *. now rewrite store_session_frame.
Qed.

Lemma dispatch_frame (E : Env) (w : World) (CallSid From url other : string)
    (i : Twilio.caller_input) :
  other ≠ CallSid →
  call_sessions (snd (Twilio.dispatch E w CallSid From url i)) !! other
  = call_sessions w !! other.
Proof.
  intros Hne. unfold Twilio.dispatch.
  repeat match goal with |- context [String.eqb ?a ?b] => destruct (String.eqb a b) end;
    [| | | | |reflexivity].
  - unfold Twilio.handle_incoming_call.
    destruct (twilio_installed E); [|reflexivity]. cbn [negb].
    pose proof (get_or_create_frame E w CallSid From other Hne) as Hframe.
    destruct (get_or_create_call_session E CallSid From w) as [s w1].
    cbn [snd] in *. now rewrite store_session_frame.
  - unfold Twilio.handle_language_selection.
    destruct (twilio_installed E); [|reflexivity]. cbn [negb].
    pose proof (session_or_default_frame E w CallSid other id Hne) as Hframe.
    destruct (Twilio.session_or_default E CallSid id w) as [s w1].
    destruct (dict_get (LANGUAGE_CONFIG E) "1"); cbn [snd Twilio.uncaught] in *;
      [now rewrite store_session_frame | exact Hframe].
  - unfold Twilio.handle_assistant_selection.
    destruct (twilio_installed E); [|reflexivity]. cbn [negb].
    pose proof (session_or_default_frame E w CallSid other (set_language "en-US") Hne)
      as Hframe.
    destruct (Twilio.session_or_default E CallSid (set_language "en-US") w) as [s w1].
    destruct (dict_get (ASSISTANT_CONFIG E) "2"); cbn [snd Twilio.uncaught] in *;
      [|exact Hframe].
    destruct (dict_get (LANGUAGE_CONFIG E) "1"); cbn [snd Twilio.uncaught];
      now rewrite store_session_frame.
  - unfold Twilio.start_conversation.
    destruct (twilio_installed E); [|reflexivity]. cbn [negb].
    pose proof (session_or_default_frame E w CallSid other Twilio.en_amira Hne) as Hframe.
    destruct (Twilio.session_or_default E CallSid Twilio.en_amira w) as [s w1].
    now destruct (Twilio.lang_for_code E _).
  - unfold Twilio.process_speech.
    destruct (twilio_installed E); [|reflexivity]. cbn [negb].
    pose proof (session_or_default_frame E w CallSid other Twilio.en_amira Hne) as Hframe.
    destruct (Twilio.session_or_default E CallSid Twilio.en_amira w) as [s w1].
    cbn [snd] in Hframe.
    destruct (negb (str_truthy _)).
    + now destruct (Twilio.lang_for_code E _).
    + destruct (get_response E _ _ _); destruct (Twilio.lang_for_code E _);
        cbn [snd Twilio.uncaught]; rewrite ?save_call_turn_sessions; exact Hframe.
Qed.

Lemma run_frame (E : Env) (fuel : nat) (w : World) (CallSid From url other : string)
    (i : Twilio.caller_input) (inputs : list Twilio.caller_input) (said : list string) :
  other ≠ CallSid →
  call_sessions (Twilio.world (Twilio.run fuel E w CallSid From url i inputs said)) !! other
  = call_sessions w !! other.
Proof.
  intros Hne. induction fuel as [|fuel IH] in w, url, i, inputs, said |- *; [reflexivity|].
  rewrite run_step.
  pose proof (dispatch_frame E w CallSid From url other i Hne) as Hframe.
  destruct (Twilio.dispatch E w CallSid From url i) as [[doc|st msg] w']; [|exact Hframe].
  cbn [snd] in Hframe.
  destruct (Twilio.exec_verbs doc inputs said) as [said' [| |url' i' rest]];
    [exact Hframe | exact Hframe |].
  now rewrite IH.
Qed.

(** X9.  Calls are isolated.  From its first request to its status callback,
    whatever the caller does, a call reads and writes no session but its
    own: the session stored under any other call id is, at every point,
    the one that was there before. *)
Theorem calls_are_isolated (E : Env) (fuel : nat) (w : World)
    (CallSid From url CallStatus other : string)
    (i : Twilio.caller_input) (inputs : list Twilio.caller_input) (said : list string) :
  other ≠ CallSid →
  let after := Twilio.world (Twilio.run fuel E w CallSid From url i inputs said) in
  call_sessions after !! other = call_sessions w !! other ∧
  call_sessions (snd (Twilio.handle_status_callback after CallSid CallStatus)) !! other
  = call_sessions w !! other.
Proof.
  intros Hne after.
  assert (Hrun : call_sessions after !! other = call_sessions w !! other)
    by now apply run_frame.
  split; [exact Hrun|].
  unfold Twilio.handle_status_callback. cbn [snd].
  destruct (existsb _ _); [|exact Hrun].
  destruct (call_sessions after !! CallSid); [|exact Hrun].
  cbn. now rewrite lookup_delete_ne by congruence.
Qed.

Lemma calls_are_isolated_witness :
  call_sessions
    (snd (Twilio.handle_status_callback
            (Twilio.world
               (Twilio.run 8 Examples.env Examples.world_in_call "CA2" Examples.phone
                  "/api/twilio/incoming-call" Twilio.NoInput
                  [Twilio.Pressed "1"; Twilio.Pressed "2"; Twilio.Spoke "hello"] []))
            "CA2" "completed")) !! "CA1"
  = Some Examples.french_slah.
Proof.
  refine (eq_trans
            (proj2 (calls_are_isolated Examples.env 8 Examples.world_in_call "CA2"
                      Examples.phone "/api/twilio/incoming-call" "completed" "CA1"
                      Twilio.NoInput
                      [Twilio.Pressed "1"; Twilio.Pressed "2"; Twilio.Spoke "hello"] [] _))
            _).
  - discriminate.
  - vm_compute. reflexivity.
Defined.

(** ** The menus and the speech turn *)

Section Turns.
Import Twilio.
Context (E : Env) (first : lang_config) (second : assistant_config).
Hypothesis twilio_ok : twilio_installed E = true.
Hypothesis first_language : dict_get (LANGUAGE_CONFIG E) "1" = Some first.
Hypothesis second_assistant : dict_get (ASSISTANT_CONFIG E) "2" = Some second.

(** X10.  The two menus compose.  A language digit and then an assistant
    digit, both keys of their tables, leave the call's session with the
    code of the chosen language and the id of the chosen assistant, and the
    document that follows listens for speech in that language. *)
Theorem menu_choices_compose (w : World) (CallSid d1 d2 : string)
    (chosen_language : lang_config) (chosen_assistant : assistant_config) :
  dict_get (LANGUAGE_CONFIG E) d1 = Some chosen_language →
  dict_get (ASSISTANT_CONFIG E) d2 = Some chosen_assistant →
  let w1 := snd (handle_language_selection E w CallSid (Some d1)) in
  let answer := handle_assistant_selection E w1 CallSid (Some d2) in
  (∃ s, call_sessions (snd answer) !! CallSid = Some s ∧
        language (attrs s) = lang_code chosen_language ∧
        assistant_id (attrs s) = asst_id chosen_assistant) ∧
  ∃ doc, fst answer = Ok doc ∧
         In (Gather (speech_gather (lang_code chosen_language) None)) doc.
Proof.
  intros Hlang Hasst w1 answer. subst answer w1.
  rewrite (handle_language_selection_eq E first twilio_ok first_language).
  cbv zeta. cbn [snd].
  rewrite (handle_assistant_selection_eq E first second twilio_ok first_language
             second_assistant).
  cbv zeta.
  rewrite (session_or_default_live E _ CallSid (set_language "en-US") _
             (store_session_lookup _ _ _)).
  change (default "1" (Some d1)) with d1. change (default "2" (Some d2)) with d2.
  rewrite Hlang, Hasst. cbn [fst snd default from_option].
  split.
  - eexists. split; [apply store_session_lookup|]. split; reflexivity.
  - eexists. split; [reflexivity|]. right. left. reflexivity.
Qed.

(** X11.  What the caller hears is what is recorded.  A non-empty utterance
    in a live call, answered by the generator, with a working database: the
    reply is spoken first in the document, and exactly one row is added to
    the conversations, holding the utterance, that same reply, the
    session's language and the caller's user id; the session table is left
    as it was. *)
Theorem spoken_reply_is_recorded (w : World) (d : Database) (CallSid speech reply : string)
    (s : session_obj) :
  call_sessions w !! CallSid = Some s →
  str_truthy speech = true →
  get_response E speech (language (attrs s))
    (if (assistant_id (attrs s) =? 1)%Z then "Slah" else "Amira") = Some reply →
  db w = Some d → db_down d = false →
  ∃ voice rest w' d',
    process_speech E w CallSid (Some speech) = (Ok (Say reply voice :: rest), w') ∧
    call_sessions w' = call_sessions w ∧
    db w' = Some d' ∧
    conversations d'
    = conversations d ++
      [mkRow (next_id d) (session_id (attrs s))
             (match caller_info (attrs s) with Some c => user_id c | None => None end)
             (PStr speech) (PStr reply) (language (attrs s)) (clock d) None None].
Proof.
  intros Hs Hspeech Hreply Hdb Hup.
  unfold process_speech. rewrite twilio_ok. cbn [negb].
  change (default "" (Some speech)) with speech. rewrite Hspeech. cbn [negb].
  rewrite (session_or_default_live E w CallSid en_amira s Hs).
  rewrite (lang_for_code_voice E first first_language), Hreply.
  do 4 eexists. split; [reflexivity|].
  unfold save_call_turn, Db.save_session, Db.save_conversation, Db.insert_conversation.
  cbn [db log_call]. rewrite Hdb. cbn. rewrite Hup. cbn.
  split; [reflexivity|]. split; reflexivity.
Qed.

(** X12.  The caller's identity reaches the rows.  In a call whose first
    request found no session, the identity the resolver gave for the
    calling number at [incoming-call] is the one under which a later
    utterance is recorded: the user id on the conversation row, and the user
    id and name on the session record. *)
Theorem caller_identity_reaches_the_rows (w : World) (d : Database)
    (CallSid From speech reply : string) :
  call_sessions w !! CallSid = None →
  db w = Some d → db_down d = false →
  str_truthy speech = true →
  let fresh := new_CallSession E CallSid From in
  let caller := identify_caller_by_phone E From in
  get_response E speech (language fresh)
    (if (assistant_id fresh =? 1)%Z then "Slah" else "Amira") = Some reply →
  let w1 := snd (handle_incoming_call E w CallSid From) in
  ∃ d', db (snd (process_speech E w1 CallSid (Some speech))) = Some d' ∧
        last (conversations d')
        = Some (mkRow (next_id d) (session_id fresh) (user_id caller) (PStr speech)
                  (PStr reply) (language fresh) (clock d) None None) ∧
        last (session_saves d')
        = Some (mkSessionSave (session_id fresh) (language fresh) (assistant_id fresh)
                  (user_id caller) (full_name caller) None).
Proof.
  intros Hnone Hdb Hup Hspeech fresh caller Hreply w1. subst w1.
  destruct (handle_incoming_call_eq E twilio_ok w CallSid From) as [greeting ->].
  cbv zeta. rewrite (get_or_create_fresh E w CallSid From Hnone). cbn [fst snd].
  set (s := set_caller_info (identify_caller_by_phone E From)
              (mkObj (next_oid w) (new_CallSession E CallSid From))).
  set (w1 := store_session CallSid s _).
  assert (Hs : call_sessions w1 !! CallSid = Some s) by apply store_session_lookup.
  unfold process_speech. rewrite twilio_ok. cbn [negb].
  change (default "" (Some speech)) with speech. rewrite Hspeech. cbn [negb].
  rewrite (session_or_default_live E w1 CallSid en_amira s Hs).
  rewrite (lang_for_code_voice E first first_language).
  change (language (attrs s)) with (language fresh).
  change (assistant_id (attrs s)) with (assistant_id fresh).
  rewrite Hreply. cbn [snd].
  unfold save_call_turn, Db.save_session, Db.save_conversation, Db.insert_conversation.
  change (db (log_call w1 _)) with (db w). rewrite Hdb. cbn. rewrite Hup. cbn.
  eexists. split; [reflexivity|]. cbn. now rewrite !last_snoc.
Qed.

(** X13.  A generator that raises ends the call politely.  For a non-empty
    utterance in a live call the generator is asked once; when it raises,
    the document is the apology followed by a hang-up, and neither the
    database nor the session table is written. *)
Theorem generator_failure_hangs_up (w : World) (CallSid speech : string) (s : session_obj) :
  call_sessions w !! CallSid = Some s →
  str_truthy speech = true →
  get_response E speech (language (attrs s))
    (if (assistant_id (attrs s) =? 1)%Z then "Slah" else "Amira") = None →
  ∃ voice w',
    process_speech E w CallSid (Some speech)
    = (Ok [Say "I'm having technical difficulties. Please try again later." voice; Hangup],
       w') ∧
    db w' = db w ∧ call_sessions w' = call_sessions w ∧
    calls w' = calls w ++ [GeneratorCall speech (language (attrs s))
                             (if (assistant_id (attrs s) =? 1)%Z then "Slah" else "Amira")].
Proof.
  intros Hs Hspeech Hnone.
  unfold process_speech. rewrite twilio_ok. cbn [negb].
  change (default "" (Some speech)) with speech. rewrite Hspeech. cbn [negb].
  rewrite (session_or_default_live E w CallSid en_amira s Hs).
  rewrite (lang_for_code_voice E first first_language), Hnone.
  do 2 eexists. split; [reflexivity|]. repeat split; reflexivity.
Qed.

End Turns.

Lemma menu_choices_compose_witness :
  ∃ s, call_sessions
         (snd (Twilio.handle_assistant_selection Examples.env
                 (snd (Twilio.handle_language_selection Examples.env Examples.world0 "CA1"
                         (Some "3")))
                 "CA1" (Some "1"))) !! "CA1" = Some s ∧
       language (attrs s) = "fr-FR" ∧ assistant_id (attrs s) = 1%Z.
Proof.
  exact (proj1 (menu_choices_compose Examples.env _ _ eq_refl eq_refl eq_refl
                  Examples.world0 "CA1" "3" "1" _ _ eq_refl eq_refl)).
Defined.

Lemma spoken_reply_is_recorded_witness :
  ∃ voice rest w' d',
    Twilio.process_speech Examples.env Examples.world_in_call "CA1" (Some "bonjour")
    = (Ok (Twilio.Say "Your plan includes 10 GB." voice :: rest), w') ∧
    call_sessions w' = call_sessions Examples.world_in_call ∧
    db w' = Some d' ∧
    conversations d'
    = [mkRow 1 "CA1" None (PStr "bonjour") (PStr "Your plan includes 10 GB.") "fr-FR" 0
             None None].
Proof.
  exact (spoken_reply_is_recorded Examples.env _ eq_refl eq_refl
           Examples.world_in_call Db.empty "CA1" "bonjour" "Your plan includes 10 GB."
           Examples.french_slah eq_refl eq_refl eq_refl eq_refl eq_refl).
Defined.

Lemma caller_identity_reaches_the_rows_witness :
  ∃ d', db (snd (Twilio.process_speech Callers.env
                   (snd (Twilio.handle_incoming_call Callers.env Examples.world0 "CA1"
                           Examples.phone))
                   "CA1" (Some "hello"))) = Some d' ∧
        last (conversations d')
        = Some (mkRow 1 "CA1" (Some 7%Z) (PStr "hello") (PStr "Your plan includes 10 GB.")
                  "en-US" 0 None None) ∧
        last (session_saves d')
        = Some (mkSessionSave "CA1" "en-US" 2 (Some 7%Z) (Some "Sami") None).
Proof.
  exact (caller_identity_reaches_the_rows Callers.env _ eq_refl eq_refl
           Examples.world0 Db.empty "CA1" Examples.phone "hello"
           "Your plan includes 10 GB." eq_refl eq_refl eq_refl eq_refl eq_refl).
Defined.

Lemma generator_failure_hangs_up_witness :
  ∃ voice w',
    Twilio.process_speech (Examples.env_with None None) Examples.world_in_call "CA1"
      (Some "bonjour")
    = (Ok [Twilio.Say "I'm having technical difficulties. Please try again later." voice;
           Twilio.Hangup], w') ∧
    db w' = db Examples.world_in_call ∧
    call_sessions w' = call_sessions Examples.world_in_call ∧
    calls w' = [GeneratorCall "bonjour" "fr-FR" "Slah"].
Proof.
  exact (generator_failure_hangs_up (Examples.env_with None None) _ eq_refl eq_refl
           Examples.world_in_call "CA1" "bonjour" Examples.french_slah
           eq_refl eq_refl eq_refl).
Defined.



(** ** [clean_text] *)

Section CleanTextFacts.
Import Str.
Context (isspace : char → bool).

Lemma single_spaced_weaken (text : str) :
  single_spaced isspace true text → single_spaced isspace false text.
Proof.
  destruct text as [|c text]; cbn; [tauto|].
  destruct (isspace c); [|tauto]. intros (_ & Hfalse & _). discriminate.
Qed.

Lemma collapse_spaces_single (in_run : bool) (text : str) :
  single_spaced isspace in_run (collapse_spaces isspace in_run text).
Proof.
  induction text as [|c text IH] in in_run |- *; cbn; [exact I|].
  destruct (isspace c) eqn:Hc.
  - destruct in_run; [apply IH|]. cbn.
    destruct (isspace 32%N); [repeat split; apply IH|].
    apply single_spaced_weaken, IH.
  - cbn. rewrite Hc. apply IH.
Qed.

Lemma collapse_spaces_fixed (in_run : bool) (text : str) :
  single_spaced isspace in_run text → collapse_spaces isspace in_run text = text.
Proof.
  induction text as [|c text IH] in in_run |- *; cbn; [reflexivity|].
  destruct (isspace c).
  - intros (-> & -> & Hrest). now rewrite IH.
  - intros Hrest. now rewrite IH.
Qed.

Lemma lstrip_single (after_space : bool) (text : str) :
  single_spaced isspace after_space text → single_spaced isspace false (lstrip isspace text).
Proof.
  induction text as [|c text IH] in after_space |- *; cbn; [tauto|].
  destruct (isspace c) eqn:Hc.
  - intros (_ & _ & Hrest). now apply (IH true).
  - intros Hrest. cbn. now rewrite Hc.
Qed.

Lemma rstrip_single (after_space : bool) (text : str) :
  single_spaced isspace after_space text →
  single_spaced isspace after_space (rstrip isspace text).
Proof.
  induction text as [|c text IH] in after_space |- *; cbn; [tauto|].
  destruct (rstrip isspace text) as [|k kept] eqn:Hkept.
  - destruct (isspace c) eqn:Hc; [intros _; exact I|]. intros _. cbn. now rewrite Hc.
  - cbn [single_spaced]. destruct (isspace c).
    + intros (-> & -> & Hrest). repeat split. now apply (IH true).
    + intros Hrest. now apply (IH false).
Qed.

Lemma lstrip_head (text : str) (c : char) :
  head (lstrip isspace text) = Some c → isspace c = false.
Proof.
  induction text as [|x text IH]; cbn; [discriminate|].
  destruct (isspace x) eqn:Hx; [exact IH|]. cbn. now intros [= <-].
Qed.

Lemma rstrip_last (text : str) (c : char) :
  last (rstrip isspace text) = Some c → isspace c = false.
Proof.
  induction text as [|x text IH]; cbn; [discriminate|].
  destruct (rstrip isspace text) as [|k kept].
  - destruct (isspace x) eqn:Hx; cbn; [discriminate|]. now intros [= <-].
  - exact IH.
Qed.

Lemma rstrip_head (text : str) :
  (∀ c, head text = Some c → isspace c = false) →
  ∀ c, head (rstrip isspace text) = Some c → isspace c = false.
Proof.
  destruct text as [|x text]; cbn; [discriminate|]. intros Hhead c.
  destruct (rstrip isspace text) as [|k kept].
  - destruct (isspace x); cbn; [discriminate|]. intros [= <-]. now apply Hhead.
  - cbn. intros [= <-]. now apply Hhead.
Qed.

Lemma lstrip_fixed (text : str) :
  (∀ c, head text = Some c → isspace c = false) → lstrip isspace text = text.
Proof.
  destruct text as [|x text]; cbn; [reflexivity|]. intros Hhead.
  now rewrite (Hhead x eq_refl).
Qed.

Lemma rstrip_fixed (text : str) :
  (∀ c, last text = Some c → isspace c = false) → rstrip isspace text = text.
Proof.
  induction text as [|x text IH]; cbn [rstrip]; [reflexivity|]. intros Hlast.
  destruct text as [|y text].
  - cbn. now rewrite (Hlast x eq_refl).
  - rewrite IH; [reflexivity|]. intros c Hc. apply Hlast. exact Hc.
Qed.

Lemma clean_text_is_tidy (text : str) : tidy isspace (clean_text isspace text).
Proof.
  unfold clean_text. destruct text as [|c text]; cbn [truthy negb].
  { repeat split; cbn; discriminate. }
  unfold strip. split; [|split].
  - apply rstrip_single, (lstrip_single false), collapse_spaces_single.
  - apply rstrip_head. intros x. apply lstrip_head.
  - intros x. apply rstrip_last.
Qed.

Lemma tidy_is_clean (text : str) : tidy isspace text → clean_text isspace text = text.
Proof.
  intros (Hsingle & Hhead & Hlast). unfold clean_text.
  destruct text as [|c text]; [reflexivity|]. cbn [truthy negb]. unfold strip.
  rewrite (collapse_spaces_fixed false _ Hsingle).
  rewrite (lstrip_fixed _ Hhead). now apply rstrip_fixed.
Qed.

(** X15.  [clean_text] computes a normal form.  Whatever the text, the
    result holds whitespace only as single spaces between other characters,
    none at either end; cleaning a cleaned text changes nothing; and the
    texts [clean_text] returns unchanged are exactly those already of that
    form. *)
Theorem clean_text_normal_form (text : str) :
  tidy isspace (clean_text isspace text) ∧
  clean_text isspace (clean_text isspace text) = clean_text isspace text ∧
  (clean_text isspace text = text ↔ tidy isspace text).
Proof.
  split; [apply clean_text_is_tidy|]. split.
  - apply tidy_is_clean, clean_text_is_tidy.
  - split; [|apply tidy_is_clean]. intros <-. apply clean_text_is_tidy.
Qed.

Hypothesis space_is_space : isspace 32%N = true.

Lemma collapse_spaces_solid (in_run : bool) (text : str) :
  solid isspace (collapse_spaces isspace in_run text) = solid isspace text.
Proof.
  unfold solid. induction text as [|c text IH] in in_run |- *; cbn; [reflexivity|].
  destruct (isspace c) eqn:Hc; cbn.
  - destruct in_run; [apply IH|]. cbn. rewrite space_is_space. cbn. apply IH.
  - rewrite Hc. cbn. now rewrite IH.
Qed.

Lemma lstrip_solid (text : str) : solid isspace (lstrip isspace text) = solid isspace text.
Proof.
  unfold solid. induction text as [|c text IH]; cbn; [reflexivity|].
  destruct (isspace c) eqn:Hc; cbn; [exact IH|]. now rewrite Hc.
Qed.

Lemma rstrip_solid (text : str) : solid isspace (rstrip isspace text) = solid isspace text.
Proof.
  unfold solid. induction text as [|c text IH]; cbn [rstrip]; [reflexivity|].
  destruct (rstrip isspace text) as [|k kept].
  - cbn [List.filter] in *. rewrite <- IH.
    destruct (isspace c) eqn:Hc; cbn; [reflexivity|]. now rewrite Hc.
  - cbn [List.filter] in *. now rewrite IH.
Qed.

(** X16.  [clean_text] touches whitespace only: the characters that are not
    whitespace come out the same, and in the same order. *)
Theorem clean_text_keeps_characters (text : str) :
  solid isspace (clean_text isspace text) = solid isspace text.
Proof.
  unfold clean_text. destruct text as [|c text]; [reflexivity|]. cbn [truthy negb].
  unfold strip. now rewrite rstrip_solid, lstrip_solid, collapse_spaces_solid.
Qed.

End CleanTextFacts.

Lemma clean_text_keeps_characters_witness :
  solid Str.py_isspace (clean_text Str.py_isspace (Str.lit "  my   bill  is wrong "))
  = Str.lit "mybilliswrong".
Proof.
  exact (clean_text_keeps_characters Str.py_isspace eq_refl
           (Str.lit "  my   bill  is wrong ")).
Defined.

(** ** [truncate_text] *)

(** X17.  [truncate_text] keeps its bound when the suffix fits.  If the
    suffix is no longer than [max_length], the result has the length of the
    text or [max_length], whichever is smaller; a text within the bound is
    returned as it is, and a longer one ends in the suffix. *)
Theorem truncate_text_length (text suffix : Str.str) (max_length : Z) :
  (Z.of_nat (length suffix) ≤ max_length)%Z →
  length (truncate_text text max_length suffix)
    = Nat.min (length text) (Z.to_nat max_length) ∧
  (length text ≤ Z.to_nat max_length → truncate_text text max_length suffix = text) ∧
  (Z.to_nat max_length < length text →
   ∃ kept, truncate_text text max_length suffix = kept ++ suffix ∧ kept `prefix_of` text).
Proof.
  intros Hfits. unfold truncate_text.
  destruct text as [|c text]; cbn [Str.truthy negb orb].
  { split; [reflexivity|]. split; [reflexivity|]. cbn. lia. }
  destruct (Z.leb_spec (Z.of_nat (length (c :: text))) max_length) as [Hshort|Hlong].
  { split; [lia|]. split; [reflexivity|]. lia. }
  unfold Str.slice_to.
  destruct (Z.leb_spec 0 (max_length - Z.of_nat (length suffix))) as [_|Hneg]; [|lia].
  split; [|split].
  - rewrite length_app, length_firstn. lia.
  - lia.
  - intros _. eexists. split; [reflexivity|].
    exists (skipn (Z.to_nat (max_length - Z.of_nat (length suffix))) (c :: text)).
    symmetry. apply firstn_skipn.
Qed.

Lemma truncate_text_length_witness :
  length (truncate_text (Str.lit "my internet has been slow since monday") 20 (Str.lit "..."))
  = 20.
Proof.
  refine (proj1 (truncate_text_length (Str.lit "my internet has been slow since monday")
                   (Str.lit "...") 20 _)).
  cbn. lia.
Defined.

(** X18.  [truncate_text] with a bound shorter than the suffix.  The slice
    [text[:max_length - len(suffix)]] then has a negative bound, which
    counts from the end: with [0 <= max_length < len(suffix)] a text longer
    than [max_length] comes back longer than [max_length], and no shorter
    than it was. *)
Theorem truncate_text_short_bound (text suffix : Str.str) (max_length : Z) :
  (0 ≤ max_length < Z.of_nat (length suffix))%Z →
  (max_length < Z.of_nat (length text))%Z →
  (max_length < Z.of_nat (length (truncate_text text max_length suffix)))%Z ∧
  length text ≤ length (truncate_text text max_length suffix).
Proof.
  intros Hbound Hlong. unfold truncate_text.
  destruct text as [|c text]; [cbn in *; lia|]. cbn [Str.truthy negb orb].
  destruct (Z.leb_spec (Z.of_nat (length (c :: text))) max_length) as [Hshort|_]; [lia|].
  unfold Str.slice_to.
  destruct (Z.leb_spec 0 (max_length - Z.of_nat (length suffix))) as [Hpos|_]; [lia|].
  rewrite length_app, length_firstn. lia.
Qed.

Lemma truncate_text_short_bound_witness :
  truncate_text (Str.lit "abcd") 2 (Str.lit "...") = Str.lit "abc..." ∧
  length (Str.lit "abcd") ≤ length (truncate_text (Str.lit "abcd") 2 (Str.lit "...")).
Proof.
  split; [reflexivity|].
  refine (proj2 (truncate_text_short_bound (Str.lit "abcd") (Str.lit "...") 2 _ _));
    cbn; lia.
Defined.

(** ** [utils/phone_utils.py] *)

Section PhoneFacts.
Import Str.
Context (isdigit : char → bool).
(** What [str.isdigit] says of the characters the functions write. *)
Hypothesis plus_is_no_digit : isdigit 43%N = false.
Hypothesis space_is_no_digit : isdigit 32%N = false.
Hypothesis digit_1 : isdigit 49%N = true.
Hypothesis digit_2 : isdigit 50%N = true.
Hypothesis digit_6 : isdigit 54%N = true.

Let digits (phone : str) : str := List.filter isdigit phone.

(** Writes the literals of the goal out as their characters. *)
Ltac literals :=
  unfold valid_prefixes;
  repeat match goal with
         | |- context [lit ?s] =>
             let v := eval vm_compute in (lit s) in change (lit s) with v
         end.

(** The first test of the normaliser: eight digits, the first a ['2']. *)
Let local_number (d : str) : bool := (length d =? 8)%nat && startswith (lit "2") d.

Lemma digits_digits (phone : str) : digits (digits phone) = digits phone.
Proof.
  unfold digits. induction phone as [|c phone IH]; cbn; [reflexivity|].
  destruct (isdigit c) eqn:Hc; [|exact IH]. cbn. now rewrite Hc, IH.
Qed.

Lemma digits_all (d : str) : forallb isdigit d = true → digits d = d.
Proof.
  unfold digits. induction d as [|c d IH]; cbn; [reflexivity|].
  intros [Hc Hd]%andb_prop. now rewrite Hc, IH.
Qed.

Lemma digits_forall (phone : str) : forallb isdigit (digits phone) = true.
Proof.
  unfold digits. induction phone as [|c phone IH]; cbn; [reflexivity|].
  destruct (isdigit c) eqn:Hc; [|exact IH]. cbn. now rewrite Hc.
Qed.

(** The normaliser on a ['+'] followed by digits only. *)
Lemma normalize_plus_digits (d : str) :
  digits d = d →
  normalize_phone_number isdigit (43%N :: d)
  = if local_number d then lit "+216" ++ d else 43%N :: d.
Proof.
  intros Hd. unfold normalize_phone_number. cbn [truthy negb List.filter].
  rewrite plus_is_no_digit. fold (digits d). rewrite Hd. fold (local_number d).
  destruct (local_number d); [reflexivity|].
  destruct ((length d =? 11)%nat && startswith (lit "216") d); reflexivity.
Qed.

Lemma normalize_cases (phone : str) :
  phone ≠ [] →
  (local_number (digits phone) = true ∧
   normalize_phone_number isdigit phone = lit "+216" ++ digits phone) ∨
  (local_number (digits phone) = false ∧
   normalize_phone_number isdigit phone = 43%N :: digits phone) ∨
  (local_number (digits phone) = false ∧ startswith (lit "+") phone = true ∧
   normalize_phone_number isdigit phone = phone).
Proof.
  intros Hne. unfold normalize_phone_number.
  destruct phone as [|c phone]; [congruence|]. cbn [truthy negb].
  fold (digits (c :: phone)). fold (local_number (digits (c :: phone))).
  destruct (local_number (digits (c :: phone))); [left; now split|]. right.
  destruct ((length (digits (c :: phone)) =? 11)%nat && _); [left; now split|].
  destruct (startswith (lit "+") (c :: phone)); cbn [negb]; [right | left]; now repeat split.
Qed.

(** X19.  The normaliser computes a normal form.  The result of a non-empty
    number begins with ['+'], and normalising it again changes nothing. *)
Theorem normalize_phone_number_idempotent (phone : str) :
  (phone ≠ [] → startswith (lit "+") (normalize_phone_number isdigit phone) = true) ∧
  normalize_phone_number isdigit (normalize_phone_number isdigit phone)
  = normalize_phone_number isdigit phone.
Proof.
  destruct phone as [|c phone]; [split; [congruence | reflexivity]|].
  destruct (normalize_cases (c :: phone)) as [[Hlocal ->]|[[Hlocal ->]|(Hlocal & Hplus & Hsame)]];
    [discriminate| | |].
  - split; [intros _; cbn; now rewrite N.eqb_refl|].
    change (lit "+216" ++ digits (c :: phone))
      with (43%N :: (50%N :: 49%N :: 54%N :: digits (c :: phone))).
    rewrite normalize_plus_digits.
    + unfold local_number at 1. cbn [length].
      apply andb_prop in Hlocal as [Hlen%Nat.eqb_eq _]. now rewrite Hlen.
    + unfold digits at 1. cbn [List.filter]. rewrite digit_2, digit_1, digit_6.
      fold (digits (digits (c :: phone))). now rewrite digits_digits.
  - split; [intros _; cbn; now rewrite N.eqb_refl|].
    rewrite normalize_plus_digits by apply digits_digits. now rewrite Hlocal.
  - rewrite !Hsame. split; [intros _; exact Hplus | reflexivity].
Qed.

(** X20.  Local numbers.  A number written as eight digits and nothing else
    is accepted as Tunisian exactly when its first digit is ['2']: the
    country code is added for that first digit only, so the prefixes 3, 4,
    5, 7 and 9 of the list are reached through the eleven-digit form
    alone. *)
Theorem eight_digits_valid_iff_2 (phone : str) :
  forallb isdigit phone = true →
  length phone = 8 →
  validate_tunisian_phone isdigit phone = startswith (lit "2") phone.
Proof.
  intros Hall Hlen.
  destruct phone as [|d1 [|d2 [|d3 [|d4 [|d5 [|d6 [|d7 [|d8 [|]]]]]]]]]; try discriminate.
  unfold validate_tunisian_phone, normalize_phone_number. cbn [truthy negb].
  fold (digits [d1; d2; d3; d4; d5; d6; d7; d8]). rewrite (digits_all _ Hall).
  literals. cbn -[N.eqb] in Hall |- *.
  destruct (N.eqb_spec 50 d1) as [<-|Hne]; cbn -[N.eqb].
  - unfold str_isdigit. cbn -[N.eqb]. now rewrite Hall.
  - destruct (N.eqb_spec 43 d1) as [<-|Hplus]; cbn -[N.eqb].
    + rewrite plus_is_no_digit in Hall. discriminate.
    + destruct (N.eqb_spec 50 d1); [congruence | reflexivity].
Qed.

(** The checks of the validator read the number through the normaliser
    only. *)
Lemma validate_by_normal_form (phone phone' : str) :
  phone ≠ [] → phone' ≠ [] →
  normalize_phone_number isdigit phone' = normalize_phone_number isdigit phone →
  validate_tunisian_phone isdigit phone' = validate_tunisian_phone isdigit phone.
Proof.
  intros Hne Hne' Hsame. unfold validate_tunisian_phone. rewrite Hsame.
  destruct phone; [congruence|]. destruct phone'; [congruence|]. reflexivity.
Qed.

(** What an accepted number normalises to. *)
Lemma validate_normal_form (phone : str) :
  validate_tunisian_phone isdigit phone = true →
  phone ≠ [] ∧
  ∃ d1 d2 d3 d4 d5 d6 d7 d8,
    normalize_phone_number isdigit phone
    = lit "+216" ++ [d1; d2; d3; d4; d5; d6; d7; d8] ∧
    forallb isdigit [d1; d2; d3; d4; d5; d6; d7; d8] = true ∧
    existsb (N.eqb d1) valid_prefixes = true.
Proof.
  unfold validate_tunisian_phone.
  destruct phone as [|c phone]; [discriminate|]. cbn [truthy negb].
  set (n := normalize_phone_number isdigit (c :: phone)). literals.
  destruct (startswith _ n) eqn:Hstart; [|discriminate]. cbn [negb].
  destruct (Nat.eqb_spec (length n) 12) as [Hlen|]; [|discriminate]. cbn [negb].
  destruct n as [|a1 [|a2 [|a3 [|a4 [|d1 [|d2 [|d3 [|d4 [|d5 [|d6 [|d7 [|d8 [|]]]]]]]]]]]]];
    try discriminate.
  cbn -[N.eqb] in Hstart.
  apply andb_prop in Hstart as [<-%N.eqb_eq Hstart].
  apply andb_prop in Hstart as [<-%N.eqb_eq Hstart].
  apply andb_prop in Hstart as [<-%N.eqb_eq Hstart].
  apply andb_prop in Hstart as [<-%N.eqb_eq _].
  cbn [skipn]. unfold str_isdigit. cbn [truthy andb].
  destruct (forallb isdigit _) eqn:Hall; [|discriminate]. cbn [negb].
  intros Hprefix. split; [discriminate|].
  exists d1, d2, d3, d4, d5, d6, d7, d8. now repeat split.
Qed.

(** X21.  The display format loses nothing.  For a number the validator
    accepts, the formatted text [+216 XX XXX XXX] normalises to what the
    number itself normalises to, and is accepted in its turn. *)
Theorem format_phone_display_round_trip (phone : str) :
  validate_tunisian_phone isdigit phone = true →
  normalize_phone_number isdigit (format_phone_display isdigit phone)
  = normalize_phone_number isdigit phone ∧
  validate_tunisian_phone isdigit (format_phone_display isdigit phone) = true.
Proof.
  intros Hvalid.
  destruct (validate_normal_form phone Hvalid)
    as (Hne & d1 & d2 & d3 & d4 & d5 & d6 & d7 & d8 & Hnormal & Hall & _).
  assert (Hformat : format_phone_display isdigit phone
                    = lit "+216 " ++ [d1; d2] ++ lit " " ++ [d3; d4; d5] ++ lit " "
                        ++ [d6; d7; d8]).
  { unfold format_phone_display. destruct phone as [|c phone]; [congruence|].
    cbn [truthy negb]. rewrite Hnormal. reflexivity. }
  assert (Hround : normalize_phone_number isdigit (format_phone_display isdigit phone)
                   = normalize_phone_number isdigit phone).
  { rewrite Hformat, Hnormal. unfold normalize_phone_number. literals.
    cbn [forallb] in Hall.
    repeat match type of Hall with
           | (_ && _) = true => apply andb_prop in Hall as [? Hall]
           end.
    cbn [slice skipn firstn Nat.sub app truthy negb List.filter].
    rewrite plus_is_no_digit, space_is_no_digit, digit_1, digit_2, digit_6.
    repeat match goal with H : isdigit _ = true |- _ => rewrite H; clear H end.
    reflexivity. }
  split; [exact Hround|].
  rewrite <- Hvalid. apply validate_by_normal_form; [exact Hne | | exact Hround].
  rewrite Hformat. discriminate.
Qed.

End PhoneFacts.

Lemma normalize_phone_number_idempotent_witness :
  normalize_phone_number Str.ascii_isdigit
    (normalize_phone_number Str.ascii_isdigit (Str.lit "(20) 123-456"))
  = Str.lit "+21620123456".
Proof.
  refine (eq_trans
            (proj2 (normalize_phone_number_idempotent Str.ascii_isdigit
                      eq_refl eq_refl eq_refl eq_refl (Str.lit "(20) 123-456"))) _).
  reflexivity.
Defined.

Lemma eight_digits_valid_iff_2_witness :
  validate_tunisian_phone Str.ascii_isdigit (Str.lit "50123456") = false.
Proof.
  exact (eight_digits_valid_iff_2 Str.ascii_isdigit eq_refl
           (Str.lit "50123456") eq_refl eq_refl).
Defined.

Lemma format_phone_display_round_trip_witness :
  normalize_phone_number Str.ascii_isdigit
    (format_phone_display Str.ascii_isdigit (Str.lit "216 50 123456"))
  = normalize_phone_number Str.ascii_isdigit (Str.lit "216 50 123456").
Proof.
  exact (proj1 (format_phone_display_round_trip Str.ascii_isdigit
                  eq_refl eq_refl eq_refl eq_refl eq_refl (Str.lit "216 50 123456") eq_refl)).
Defined.

(** ** [extract_issue_type] and the text around a keyword *)

Lemma prefix_split (p s : string) : String.prefix p s = true → ∃ rest, s = p +:+ rest.
Proof.
  induction p as [|c p IH] in s |- *.
  - intros _. now exists s.
  - destruct s as [|c' s]; cbn; [discriminate|].
    destruct (ascii_dec c c') as [<-|]; [|discriminate].
    intros Hp. destruct (IH s Hp) as [rest ->]. now exists rest.
Qed.

Lemma py_in_split (sub s : string) :
  py_in sub s = true → ∃ pre post, s = pre +:+ sub +:+ post.
Proof.
  induction s as [|c s IH]; cbn [py_in].
  - rewrite orb_false_r. intros Hp. destruct (prefix_split _ _ Hp) as [rest ->].
    now exists "", rest.
  - intros [Hp|Hin]%orb_prop.
    + destruct (prefix_split _ _ Hp) as [rest ->]. now exists "", rest.
    + destruct (IH Hin) as (pre & post & ->). now exists (String c pre), post.
Qed.

Lemma py_in_context (sub before s after : string) :
  py_in sub s = true → py_in sub (before +:+ s +:+ after) = true.
Proof.
  intros Hin. destruct (py_in_split _ _ Hin) as (pre & post & ->).
  replace (before +:+ (pre +:+ sub +:+ post) +:+ after)
    with ((before +:+ pre) +:+ sub +:+ (post +:+ after))
    by now rewrite !append_assoc.
  apply py_in_middle.
Qed.

Lemma keyword_score_from (text : string) (kws : list string) (start : nat) :
  fold_left (fun score keyword => if py_in keyword text then score + 1 else score) kws start
  = start + keyword_score text kws.
Proof.
  unfold keyword_score. induction kws as [|k kws IH] in start |- *; cbn; [lia|].
  rewrite IH, (IH (if py_in k text then 1 else 0)).
  destruct (py_in k text); lia.
Qed.

Lemma keyword_score_mono (text text' : string) (kws : list string) :
  (∀ k, py_in k text = true → py_in k text' = true) →
  keyword_score text kws ≤ keyword_score text' kws.
Proof.
  intros Hmore. induction kws as [|k kws IH]; [reflexivity|].
  unfold keyword_score. cbn [fold_left]. rewrite !keyword_score_from.
  specialize (Hmore k).
  destruct (py_in k text); [rewrite (Hmore eq_refl); lia|].
  destruct (py_in k text'); lia.
Qed.

(** X22.  Surrounding text never hides an issue.  With a case mapping that
    works character by character, putting text before and after an
    utterance lowers the score of no category; so an utterance in which an
    issue is detected still has one detected, though possibly another. *)
Theorem issue_survives_context (E : Env) (before text after : string) :
  (∀ a b, str_lower E (a +:+ b) = str_lower E a +:+ str_lower E b) →
  (∀ p, category_score E text p ≤ category_score E (before +:+ text +:+ after) p) ∧
  (extract_issue_type E text ≠ None →
   extract_issue_type E (before +:+ text +:+ after) ≠ None).
Proof.
  intros Hlower.
  assert (Hscore : ∀ p, category_score E text p
                        ≤ category_score E (before +:+ text +:+ after) p).
  { intros p. unfold category_score. apply keyword_score_mono. intros k Hk.
    rewrite !Hlower. now apply py_in_context. }
  split; [exact Hscore|].
  assert (Hnone : ∀ t, extract_issue_type E t = None ↔
                       ∀ p, In p issue_patterns → category_score E t p = 0).
  { intros t.
    exact (proj1 (pick_first_highest (str_lower E t) issue_patterns issue_types_distinct)). }
  intros Hsome Hlost. apply Hsome. apply Hnone. intros p Hp.
  pose proof (proj1 (Hnone _) Hlost p Hp). specialize (Hscore p). lia.
Qed.

Lemma issue_survives_context_witness :
  is_Some (extract_issue_type Examples.env
             ("Hello, " +:+ "my BILL is wrong" +:+ ", please help")).
Proof.
  apply not_eq_None_Some.
  refine (proj2 (issue_survives_context Examples.env "Hello, " "my BILL is wrong"
                   ", please help" lower_ascii_append) _).
  vm_compute. discriminate.
Defined.
